(** * meta-pages-mcp: credential resolution and request dispatch

    A shallow embedding of [src/server.py]: the three credential
    resolvers, the three HTTP primitives, the response normalization and
    the exposed operations, followed by the properties the specification
    states about them.

    Python objects are modelled by the type [value] (the values JSON can
    hold, which is all this program handles); a [dict] is an association
    list in insertion order, updated the way Python updates one.  Text is
    ASCII: [string] holds code points below 128, which is the range on
    which [upper] and the JSON escapes below agree with Python.  A float
    is kept as the literal it was read from: the rounding Python applies
    to it, and the digits [repr] would choose for it, are left out.  Effects
    (the exceptions a call raises, the HTTP requests it sends) are made
    explicit by the monad [M]. *)

From Stdlib Require Import String Ascii List ZArith Bool Lia DecimalString.
Import ListNotations.
Local Open Scope list_scope.
Local Open Scope string_scope.
Set Warnings "-register-all".

(** ** Python values *)

Inductive value : Type :=
| VNone
| VBool (b : bool)
| VInt (n : Z)
| VFloat (literal : string)
| VStr (s : string)
| VList (items : list value)
| VDict (entries : list (string * value)).

(** A [dict] with [str] keys, in insertion order. *)
Definition dict : Type := list (string * value).

Fixpoint dict_get (k : string) (d : dict) : option value :=
  match d with
  | [] => None
  | (k', v) :: rest => if String.eqb k k' then Some v else dict_get k rest
  end.

Definition dict_in (k : string) (d : dict) : bool :=
  match dict_get k d with Some _ => true | None => false end.

(** [d[k] = v]: an existing key keeps its place, a new one goes last. *)
Fixpoint dict_set (k : string) (v : value) (d : dict) : dict :=
  match d with
  | [] => [(k, v)]
  | (k', v') :: rest =>
      if String.eqb k k' then (k, v) :: rest else (k', v') :: dict_set k v rest
  end.

(** [d.update(other)] for a dict [other]. *)
Definition dict_merge (d other : dict) : dict :=
  fold_left (fun acc kv => dict_set (fst kv) (snd kv) acc) other d.

Definition keys (d : dict) : list string := map fst d.

(** A float literal whose mantissa has no digit other than 0. *)
Fixpoint zero_mantissa (s : string) : bool :=
  match s with
  | EmptyString => true
  | String c rest =>
      let n := nat_of_ascii c in
      if (n =? 101)%nat || (n =? 69)%nat then true
      else if (49 <=? n)%nat && (n <=? 57)%nat then false
      else zero_mantissa rest
  end.

Definition float_is_zero (literal : string) : bool :=
  if String.eqb literal "nan" || String.eqb literal "inf" || String.eqb literal "-inf"
  then false
  else zero_mantissa literal.

(** Python's truth value of an object. *)
Definition truthy (v : value) : bool :=
  match v with
  | VNone => false
  | VBool b => b
  | VInt n => negb (Z.eqb n 0)
  | VFloat literal => negb (float_is_zero literal)
  | VStr s => negb (String.eqb s "")
  | VList l => match l with [] => false | _ => true end
  | VDict d => match d with [] => false | _ => true end
  end.

(** The truth value of an [Optional[str]] argument. *)
Definition given (o : option string) : bool :=
  match o with
  | Some s => negb (String.eqb s "")
  | None => false
  end.

Definition type_name (v : value) : string :=
  match v with
  | VNone => "NoneType"
  | VBool _ => "bool"
  | VInt _ => "int"
  | VFloat _ => "float"
  | VStr _ => "str"
  | VList _ => "list"
  | VDict _ => "dict"
  end.

(** ** Text *)

(** [str(n)] for an [int]. *)
Definition str_int (n : Z) : string := NilZero.string_of_int (Z.to_int n).

(** [str(b).lower()] for a [bool]. *)
Definition str_bool_lower (b : bool) : string := if b then "true" else "false".

Definition upper_char (c : ascii) : ascii :=
  let n := nat_of_ascii c in
  if (97 <=? n)%nat && (n <=? 122)%nat then ascii_of_nat (n - 32) else c.

(** [s.upper()]. *)
Fixpoint upper (s : string) : string :=
  match s with
  | EmptyString => EmptyString
  | String c rest => String (upper_char c) (upper rest)
  end.

Definition lower_char (c : ascii) : ascii :=
  let n := nat_of_ascii c in
  if (65 <=? n)%nat && (n <=? 90)%nat then ascii_of_nat (n + 32) else c.

(** [s.lower()]. *)
Fixpoint lower (s : string) : string :=
  match s with
  | EmptyString => EmptyString
  | String c rest => String (lower_char c) (lower rest)
  end.

(** [needle in hay] for two [str]. *)
Fixpoint str_contains (needle hay : string) : bool :=
  if String.prefix needle hay then true
  else match hay with
       | EmptyString => false
       | String _ rest => str_contains needle rest
       end.

Fixpoint join (sep : string) (parts : list string) : string :=
  match parts with
  | [] => EmptyString
  | [p] => p
  | p :: rest => p ++ sep ++ join sep rest
  end.

Fixpoint spaces (n : nat) : string :=
  match n with
  | O => EmptyString
  | S m => String " " (spaces m)
  end.

(** ** JSON text: [json.dumps] *)

Definition quote : ascii := "034"%char.
Definition backslash : ascii := "092"%char.
Definition newline : ascii := "010"%char.

Definition hex_digit (n : nat) : ascii :=
  if (n <? 10)%nat then ascii_of_nat (48 + n) else ascii_of_nat (87 + n).

Definition hex2 (n : nat) : string :=
  String (hex_digit (n / 16)) (String (hex_digit (n mod 16)) EmptyString).

(** One character inside a JSON string: the short escapes, [\u00xx] for
    the other control characters and, under [ensure_ascii], for
    everything outside the printable ASCII range. *)
Definition escape_char (ensure_ascii : bool) (c : ascii) : string :=
  let n := nat_of_ascii c in
  if (n =? 34)%nat then String backslash (String quote EmptyString)
  else if (n =? 92)%nat then String backslash (String backslash EmptyString)
  else if (n =? 10)%nat then String backslash "n"
  else if (n =? 13)%nat then String backslash "r"
  else if (n =? 9)%nat then String backslash "t"
  else if (n =? 8)%nat then String backslash "b"
  else if (n =? 12)%nat then String backslash "f"
  else if (n <? 32)%nat || (ensure_ascii && (126 <? n)%nat)
       then String backslash ("u00" ++ hex2 n)
  else String c EmptyString.

Fixpoint escape (ensure_ascii : bool) (s : string) : string :=
  match s with
  | EmptyString => EmptyString
  | String c rest => escape_char ensure_ascii c ++ escape ensure_ascii rest
  end.

Definition encode_string (ensure_ascii : bool) (s : string) : string :=
  String quote (escape ensure_ascii s ++ String quote EmptyString).

(** The line break and indentation [json.dumps] writes before an item at
    nesting depth [level]; nothing when [indent] is [None]. *)
Definition break (indent : option nat) (level : nat) : string :=
  match indent with
  | None => EmptyString
  | Some n => String newline (spaces (n * level))
  end.

Definition item_separator (indent : option nat) (level : nat) : string :=
  match indent with
  | None => ", "
  | Some _ => "," ++ break indent level
  end.

(** [json.dumps(v, indent=indent, ensure_ascii=ensure_ascii)], written at
    nesting depth [level]. *)
Fixpoint dumps_at (ensure_ascii : bool) (indent : option nat) (level : nat)
    (v : value) : string :=
  match v with
  | VNone => "null"
  | VBool true => "true"
  | VBool false => "false"
  | VInt n => str_int n
  | VFloat literal =>
      if String.eqb literal "nan" then "NaN"
      else if String.eqb literal "inf" then "Infinity"
      else if String.eqb literal "-inf" then "-Infinity"
      else literal
  | VStr s => encode_string ensure_ascii s
  | VList [] => "[]"
  | VList items =>
      "[" ++ break indent (S level)
      ++ join (item_separator indent (S level))
           (map (dumps_at ensure_ascii indent (S level)) items)
      ++ break indent level ++ "]"
  | VDict [] => "{}"
  | VDict entries =>
      "{" ++ break indent (S level)
      ++ join (item_separator indent (S level))
           (map (fun kv => encode_string ensure_ascii (fst kv) ++ ": "
                           ++ dumps_at ensure_ascii indent (S level) (snd kv))
                entries)
      ++ break indent level ++ "}"
  end.

(** [json.dumps(v)] with the defaults. *)
Definition json_dumps (v : value) : string := dumps_at true None 0 v.

(** [_fmt(data)]: [json.dumps(data, indent=2, ensure_ascii=False)]. *)
Definition _fmt (data : value) : string := dumps_at false (Some 2%nat) 0 data.

(** ** Python's [repr] and [str] *)

(** A character of a text is a code point below 256.  Of these
    [str.isprintable] refuses the control characters (below 32, and 127
    to 159), the no-break space (160) and the soft hyphen (173); [repr]
    writes those as [\xNN] and keeps the others. *)
Definition printable (c : ascii) : bool :=
  let n := nat_of_ascii c in
  negb ((n <? 32)%nat || ((126 <? n)%nat && (n <? 161)%nat) || (n =? 173)%nat).

Definition repr_char (q : ascii) (c : ascii) : string :=
  let n := nat_of_ascii c in
  if Ascii.eqb c backslash then String backslash (String backslash EmptyString)
  else if Ascii.eqb c q then String backslash (String q EmptyString)
  else if (n =? 10)%nat then String backslash "n"
  else if (n =? 13)%nat then String backslash "r"
  else if (n =? 9)%nat then String backslash "t"
  else if negb (printable c) then String backslash ("x" ++ hex2 n)
  else String c EmptyString.

Fixpoint repr_chars (q : ascii) (s : string) : string :=
  match s with
  | EmptyString => EmptyString
  | String c rest => repr_char q c ++ repr_chars q rest
  end.

(** [repr(s)] for a [str]: single quotes, unless the text holds a single
    quote and no double quote. *)
Definition repr_str (s : string) : string :=
  let q := if str_contains "'" s && negb (str_contains (String quote EmptyString) s)
           then quote else "'"%char in
  String q (repr_chars q s ++ String q EmptyString).

(** [repr(v)].  A float is written as its literal: that is what [repr]
    writes when the literal is in [repr]'s own form ([1.5], [100.0]),
    and not otherwise ([1e2] is written [100.0]); the properties that
    speak of [repr] leave floats out. *)
Fixpoint py_repr (v : value) : string :=
  match v with
  | VNone => "None"
  | VBool true => "True"
  | VBool false => "False"
  | VInt n => str_int n
  | VFloat literal => literal
  | VStr s => repr_str s
  | VList items => "[" ++ join ", " (map py_repr items) ++ "]"
  | VDict entries =>
      "{" ++ join ", " (map (fun kv => repr_str (fst kv) ++ ": " ++ py_repr (snd kv))
                          entries) ++ "}"
  end.

(** [str(v)]. *)
Definition py_str (v : value) : string :=
  match v with
  | VStr s => s
  | _ => py_repr v
  end.

(** ** JSON text: [json.loads] *)

Definition is_ws (c : ascii) : bool :=
  let n := nat_of_ascii c in
  (n =? 32)%nat || (n =? 9)%nat || (n =? 10)%nat || (n =? 13)%nat.

Fixpoint skip_ws (s : string) : string :=
  match s with
  | String c rest => if is_ws c then skip_ws rest else s
  | EmptyString => s
  end.

Definition is_digit (c : ascii) : bool :=
  let n := nat_of_ascii c in (48 <=? n)%nat && (n <=? 57)%nat.

Definition hex_value (c : ascii) : option nat :=
  let n := nat_of_ascii c in
  if (48 <=? n)%nat && (n <=? 57)%nat then Some (n - 48)%nat
  else if (97 <=? n)%nat && (n <=? 102)%nat then Some (n - 87)%nat
  else if (65 <=? n)%nat && (n <=? 70)%nat then Some (n - 55)%nat
  else None.

(** The code point of a [\uXXXX] escape, from its four digits. *)
Definition hex4 (a b c d : ascii) : option nat :=
  match hex_value a, hex_value b, hex_value c, hex_value d with
  | Some x, Some y, Some z, Some w => Some (((x * 16 + y) * 16 + z) * 16 + w)%nat
  | _, _, _, _ => None
  end.

(** The body of a string after its opening quote: the decoded text and
    what follows the closing quote.  Raw control characters are refused;
    an escape outside this model's one-byte code points is refused too. *)
Fixpoint scan_string (s : string) : option (string * string) :=
  match s with
  | EmptyString => None
  | String c rest =>
      if Ascii.eqb c quote then Some (EmptyString, rest)
      else if Ascii.eqb c backslash then
        match rest with
        | EmptyString => None
        | String e rest1 =>
            let simple (x : ascii) :=
              match scan_string rest1 with
              | Some (t, r) => Some (String x t, r)
              | None => None
              end in
            if Ascii.eqb e quote then simple quote
            else if Ascii.eqb e backslash then simple backslash
            else if Ascii.eqb e "/" then simple "/"%char
            else if Ascii.eqb e "b" then simple "008"%char
            else if Ascii.eqb e "f" then simple "012"%char
            else if Ascii.eqb e "n" then simple "010"%char
            else if Ascii.eqb e "r" then simple "013"%char
            else if Ascii.eqb e "t" then simple "009"%char
            else if Ascii.eqb e "u" then
              match rest1 with
              | String h1 (String h2 (String h3 (String h4 rest2))) =>
                  match hex4 h1 h2 h3 h4 with
                  | Some n =>
                      if (n <? 256)%nat then
                        match scan_string rest2 with
                        | Some (t, r) => Some (String (ascii_of_nat n) t, r)
                        | None => None
                        end
                      else None
                  | None => None
                  end
              | _ => None
              end
            else None
        end
      else if (nat_of_ascii c <? 32)%nat then None
      else
        match scan_string rest with
        | Some (t, r) => Some (String c t, r)
        | None => None
        end
  end.

(** [s] without its prefix [p], when it has it. *)
Fixpoint strip_prefix (p s : string) : option string :=
  match p with
  | EmptyString => Some s
  | String a p' =>
      match s with
      | String b s' => if Ascii.eqb a b then strip_prefix p' s' else None
      | EmptyString => None
      end
  end.

(** The longest run of digits [s] starts with, and the rest. *)
Fixpoint span_digits (s : string) : string * string :=
  match s with
  | String c rest =>
      if is_digit c then let (d, r) := span_digits rest in (String c d, r)
      else (EmptyString, s)
  | EmptyString => (EmptyString, s)
  end.

Fixpoint digits_value (acc : Z) (s : string) : Z :=
  match s with
  | EmptyString => acc
  | String c rest => digits_value (10 * acc + Z.of_nat (nat_of_ascii c - 48)) rest
  end.

(** The integer part [0|[1-9][0-9]*] of a number: its digits and the rest. *)
Definition scan_int_part (s : string) : option (string * string) :=
  match s with
  | String c rest =>
      if Ascii.eqb c "0" then Some ("0", rest)
      else if is_digit c then Some (span_digits s)
      else None
  | EmptyString => None
  end.

(** The optional fraction [\.[0-9]+]. *)
Definition scan_frac (s : string) : string * string :=
  match s with
  | String c rest =>
      if Ascii.eqb c "." then
        match span_digits rest with
        | (EmptyString, _) => (EmptyString, s)
        | (d, r) => (String c d, r)
        end
      else (EmptyString, s)
  | EmptyString => (EmptyString, s)
  end.

(** The optional exponent [[eE][-+]?[0-9]+]. *)
Definition scan_exp (s : string) : string * string :=
  match s with
  | String c rest =>
      if Ascii.eqb c "e" || Ascii.eqb c "E" then
        let (sign, rest1) :=
          match rest with
          | String g rest' =>
              if Ascii.eqb g "+" || Ascii.eqb g "-"
              then (String g EmptyString, rest') else (EmptyString, rest)
          | EmptyString => (EmptyString, rest)
          end in
        match span_digits rest1 with
        | (EmptyString, _) => (EmptyString, s)
        | (d, r) => (String c (sign ++ d), r)
        end
      else (EmptyString, s)
  | EmptyString => (EmptyString, s)
  end.

(** A number: an [int] when it has neither fraction nor exponent, else a
    [float], kept as its literal. *)
Definition scan_number (s : string) : option (value * string) :=
  let (neg, s1) :=
    match s with
    | String c rest => if Ascii.eqb c "-" then (true, rest) else (false, s)
    | EmptyString => (false, s)
    end in
  match scan_int_part s1 with
  | None => None
  | Some (ds, s2) =>
      let (frac, s3) := scan_frac s2 in
      let (ex, s4) := scan_exp s3 in
      match frac, ex with
      | EmptyString, EmptyString =>
          let n := digits_value 0 ds in
          Some (VInt (if neg then (- n)%Z else n), s4)
      | _, _ =>
          Some (VFloat ((if neg then "-" else EmptyString) ++ ds ++ frac ++ ex), s4)
      end
  end.

(** A literal or a number. *)
Definition scan_atom (s : string) : option (value * string) :=
  match strip_prefix "null" s with
  | Some r => Some (VNone, r)
  | None =>
  match strip_prefix "true" s with
  | Some r => Some (VBool true, r)
  | None =>
  match strip_prefix "false" s with
  | Some r => Some (VBool false, r)
  | None =>
  match strip_prefix "NaN" s with
  | Some r => Some (VFloat "nan", r)
  | None =>
  match strip_prefix "Infinity" s with
  | Some r => Some (VFloat "inf", r)
  | None =>
  match strip_prefix "-Infinity" s with
  | Some r => Some (VFloat "-inf", r)
  | None => scan_number s
  end end end end end end.

(** The decoder proper.  [fuel] bounds the nesting and the number of
    items; [json_loads] gives it the length of the text, which is
    enough. *)
Fixpoint scan_value (fuel : nat) (s : string) : option (value * string) :=
  match fuel with
  | O => None
  | S f =>
      match s with
      | EmptyString => None
      | String c rest =>
          if Ascii.eqb c quote then
            match scan_string rest with
            | Some (t, r) => Some (VStr t, r)
            | None => None
            end
          else if Ascii.eqb c "[" then
            match skip_ws rest with
            | EmptyString => None
            | String c1 rest1 as s1 =>
                if Ascii.eqb c1 "]" then Some (VList [], rest1)
                else
                  match scan_items f s1 with
                  | Some (items, r) => Some (VList items, r)
                  | None => None
                  end
            end
          else if Ascii.eqb c "{" then
            match skip_ws rest with
            | EmptyString => None
            | String c1 rest1 as s1 =>
                if Ascii.eqb c1 "}" then Some (VDict [], rest1)
                else
                  match scan_members f s1 with
                  | Some (pairs, r) => Some (VDict (dict_merge [] pairs), r)
                  | None => None
                  end
            end
          else scan_atom s
      end
  end

with scan_items (fuel : nat) (s : string) : option (list value * string) :=
  match fuel with
  | O => None
  | S f =>
      match scan_value f s with
      | None => None
      | Some (v, r) =>
          match skip_ws r with
          | EmptyString => None
          | String c rest =>
              if Ascii.eqb c "]" then Some ([v], rest)
              else if Ascii.eqb c "," then
                match scan_items f (skip_ws rest) with
                | Some (vs, r') => Some (v :: vs, r')
                | None => None
                end
              else None
          end
      end
  end

with scan_members (fuel : nat) (s : string) : option (list (string * value) * string) :=
  match fuel with
  | O => None
  | S f =>
      match s with
      | EmptyString => None
      | String q rest =>
          if Ascii.eqb q quote then
            match scan_string rest with
            | None => None
            | Some (k, r0) =>
                match skip_ws r0 with
                | EmptyString => None
                | String c0 r1 =>
                    if Ascii.eqb c0 ":" then
                      match scan_value f (skip_ws r1) with
                      | None => None
                      | Some (v, r) =>
                          match skip_ws r with
                          | EmptyString => None
                          | String c rest' =>
                              if Ascii.eqb c "}" then Some ([(k, v)], rest')
                              else if Ascii.eqb c "," then
                                match scan_members f (skip_ws rest') with
                                | Some (kvs, r') => Some ((k, v) :: kvs, r')
                                | None => None
                                end
                              else None
                          end
                      end
                    else None
                end
            end
          else None
      end
  end.

(** [json.loads(s)]: the object the text decodes to; [None] when it
    decodes to none.  On a text [within_limits] (below), [None] is
    [json.JSONDecodeError]. *)
Definition json_loads (s : string) : option value :=
  match scan_value (S (String.length s)) (skip_ws s) with
  | Some (v, r) =>
      match skip_ws r with
      | EmptyString => Some v
      | _ => None
      end
  | None => None
  end.

(** The texts on which the decoder above and [json.loads] refuse the
    same: [json.loads] also accepts a [\uXXXX] escape above [00FF],
    which gives a character the texts here do not have, and it ends in a
    [RecursionError] on brackets nested past the interpreter's limit and
    in a plain [ValueError] on an integer of more than 4300 digits.  A
    text of at most 4000 characters, with at most 100 opening brackets
    and no escape above [00FF], meets none of the three. *)
Fixpoint brackets (s : string) : nat :=
  match s with
  | EmptyString => O
  | String c rest =>
      if Ascii.eqb c "[" || Ascii.eqb c "{" then S (brackets rest) else brackets rest
  end.

Fixpoint short_escapes (s : string) : bool :=
  match s with
  | EmptyString => true
  | String c rest =>
      if Ascii.eqb c backslash then
        match rest with
        | EmptyString => true
        | String e rest1 =>
            if Ascii.eqb e "u" then
              match rest1 with
              | String h1 (String h2 rest2) =>
                  Ascii.eqb h1 "0" && Ascii.eqb h2 "0" && short_escapes rest2
              | _ => true
              end
            else short_escapes rest1
        end
      else short_escapes rest
  end.

Definition within_limits (s : string) : bool :=
  (String.length s <=? 4000)%nat && (brackets s <=? 100)%nat && short_escapes s.

(** ** Exceptions, requests and the effect monad *)

(** The exceptions this program meets, each with the text [str(e)] gives.
    [JSONDecodeError] is a subclass of [ValueError]; [TransportError]
    stands for what httpx raises when a request gets no response.
    [OutsideModel] is no Python exception: it marks the one behaviour
    this development leaves out, a dict that [update] would give a key
    that is not a [str]. *)
Inductive exn : Type :=
| ValueError (msg : string)
| JSONDecodeError (msg : string)
| AttributeError (msg : string)
| TypeError (msg : string)
| HTTPStatusError (msg : string)
| KeyError (msg : string)
| TransportError (msg : string)
| OutsideModel (what : string).

Definition exn_str (e : exn) : string :=
  match e with
  | ValueError m | JSONDecodeError m | AttributeError m | TypeError m
  | HTTPStatusError m | KeyError m | TransportError m | OutsideModel m => m
  end.

(** [isinstance(e, ValueError)]. *)
Definition is_ValueError (e : exn) : bool :=
  match e with
  | ValueError _ | JSONDecodeError _ => true
  | _ => false
  end.

(** [isinstance(e, json.JSONDecodeError)]. *)
Definition is_JSONDecodeError (e : exn) : bool :=
  match e with
  | JSONDecodeError _ => true
  | _ => false
  end.

Inductive verb : Type := GET | POST | DELETE.

(** What httpx is asked to send: [params=] is the query string, [data=]
    the form-encoded body. *)
Record request : Type := mkRequest {
  req_verb : verb;
  req_url : string;
  req_params : dict;
  req_data : dict
}.

(** What comes back: the status code, the text of the [HTTPStatusError]
    that [raise_for_status] raises for it, and what [resp.json()] gives
    (the decoded body, or the text of the decoding error). *)
Record response : Type := mkResponse {
  status_code : Z;
  status_error : string;
  body : string + value
}.

Inductive outcome : Type :=
| Unreachable (msg : string)
| Arrived (resp : response).

(** The requests sent so far, oldest first. *)
Definition trace : Type := list request.

Definition M (A : Type) : Type := trace -> (exn + A) * trace.

Definition ret {A : Type} (a : A) : M A := fun t => (inr a, t).

Definition raise {A : Type} (e : exn) : M A := fun t => (inl e, t).

Definition bind {A B : Type} (c : M A) (k : A -> M B) : M B :=
  fun t =>
    match c t with
    | (inr a, t') => k a t'
    | (inl e, t') => (inl e, t')
    end.

(** [try: c except <handles>: h e]. *)
Definition try_except {A : Type} (c : M A) (handles : exn -> bool)
    (h : exn -> M A) : M A :=
  fun t =>
    match c t with
    | (inl e, t') => if handles e then h e t' else (inl e, t')
    | ok => ok
    end.

Notation "x <- c ;; k" := (bind c (fun x => k))
  (at level 100, c at next level, right associativity).

(** A computation that sends nothing. *)
Definition silent {A : Type} (c : M A) : Prop := forall t, snd (c t) = t.

(** Every request [c] sends satisfies [P]. *)
Definition sends {A : Type} (P : request -> Prop) (c : M A) : Prop :=
  forall t, exists new, snd (c t) = (t ++ new)%list /\ Forall P new.

(** [c] raises, whatever was sent before. *)
Definition fails {A : Type} (c : M A) : Prop :=
  forall t, exists e t', c t = (inl e, t').

(** [c] raises a [ValueError] and sends nothing. *)
Definition refuses {A : Type} (c : M A) : Prop :=
  forall t, exists msg, c t = (inl (ValueError msg), t).

(** ** Operations on objects that can raise *)

(** [json.loads(s)] as a call; the text of the error is never looked at.
    For a text the decoder gives no object the call raises
    [JSONDecodeError]: that is [json.loads] on a text [within_limits],
    and the properties that rest on a refused text of the caller say
    so. *)
Definition loads (s : string) : M value :=
  match json_loads s with
  | Some v => ret v
  | None => raise (JSONDecodeError "Expecting value")
  end.

(** [k in v]. *)
Definition py_in (k : string) (v : value) : M bool :=
  match v with
  | VDict d => ret (dict_in k d)
  | VList l =>
      ret (existsb (fun x => match x with VStr s => String.eqb s k | _ => false end) l)
  | VStr s => ret (str_contains k s)
  | _ => raise (TypeError ("argument of type '" ++ type_name v ++ "' is not iterable"))
  end.

(** [v[k]] for a [str] key. *)
Definition py_item (v : value) (k : string) : M value :=
  match v with
  | VDict d =>
      match dict_get k d with
      | Some x => ret x
      | None => raise (KeyError (repr_str k))
      end
  | VList _ => raise (TypeError "list indices must be integers or slices, not str")
  | VStr _ => raise (TypeError "string indices must be integers, not 'str'")
  | _ => raise (TypeError ("'" ++ type_name v ++ "' object is not subscriptable"))
  end.

Definition no_attribute {A : Type} (v : value) (attr : string) : M A :=
  raise (AttributeError
           ("'" ++ type_name v ++ "' object has no attribute '" ++ attr ++ "'")).

(** [v.get(k, default)] *)
Definition py_get (v : value) (k : string) (default : value) : M value :=
  match v with
  | VDict d =>
      match dict_get k d with
      | Some x => ret x
      | None => ret default
      end
  | _ => no_attribute v "get"
  end.

(** One element of the sequence [dict.update] is given: a pair. *)
Definition update_pair (i : nat) (d : dict) (item : value) : exn + dict :=
  let bad_length (n : nat) :=
    inl (ValueError ("dictionary update sequence element #" ++ str_int (Z.of_nat i)
                     ++ " has length " ++ str_int (Z.of_nat n) ++ "; 2 is required")) in
  let put (k v : value) :=
    match k with
    | VStr key => inr (dict_set key v d)
    | VList _ | VDict _ => inl (TypeError ("unhashable type: '" ++ type_name k ++ "'"))
    | _ => inl (OutsideModel "a key that is not a str")
    end in
  match item with
  | VList [k; v] => put k v
  | VList l => bad_length (List.length l)
  | VStr (String a (String b EmptyString)) =>
      put (VStr (String a EmptyString)) (VStr (String b EmptyString))
  | VStr s => bad_length (String.length s)
  | VDict [(k1, _); (k2, _)] => put (VStr k1) (VStr k2)
  | VDict l => bad_length (List.length l)
  | _ => inl (TypeError ("cannot convert dictionary update sequence element #"
                         ++ str_int (Z.of_nat i) ++ " to a sequence"))
  end.

Fixpoint update_pairs (i : nat) (d : dict) (items : list value) : exn + dict :=
  match items with
  | [] => inr d
  | item :: rest =>
      match update_pair i d item with
      | inr d' => update_pairs (S i) d' rest
      | inl e => inl e
      end
  end.

(** [d.update(other)] for any object [other]; gives the updated dict. *)
Definition dict_update (d : dict) (other : value) : M dict :=
  match other with
  | VDict o => ret (dict_merge d o)
  | VList items =>
      match update_pairs 0 d items with
      | inr d' => ret d'
      | inl e => raise e
      end
  | VStr EmptyString => ret d
  | VStr _ =>
      raise (ValueError "dictionary update sequence element #0 has length 1; 2 is required")
  | _ => raise (TypeError ("'" ++ type_name other ++ "' object is not iterable"))
  end.

(** ** Configuration *)

Definition GRAPH_API_VERSION : string := "v22.0".
Definition GRAPH_API_BASE : string := "https://graph.facebook.com/" ++ GRAPH_API_VERSION.

(** ** The catalog of exposed operations *)

(** One constructor per tool the server registers, with its arguments. *)
Inductive operation : Type :=
| ListPages
| GetPageInfo (page_id : string)
| GetPagePosts (page_id : string) (limit : Z)
| CreatePagePost (page_id message : string) (link : option string)
| DeletePagePost (post_id page_id : string)
| GetPostComments (post_id page_id : string) (limit : Z)
| ReplyToComment (comment_id page_id message : string)
| DeleteComment (comment_id page_id : string)
| LikeComment (comment_id page_id : string)
| HideComment (comment_id page_id : string) (is_hidden : bool)
| GetAdAccounts
| GetAdCampaigns (ad_account_id status_filter : string) (limit : Z)
| GetAdAdsets (ad_account_id : string) (campaign_id : option string)
    (status_filter : string) (limit : Z)
| GetAds (ad_account_id : string) (campaign_id adset_id : option string)
    (status_filter : string) (limit : Z)
| GetAdCreative (ad_id : string)
| GetAdComments (effective_object_story_id page_id : string) (limit : Z)
    (filter_type : string)
| ReplyToAdComment (comment_id page_id message : string)
| HideAdComment (comment_id page_id : string) (is_hidden : bool)
| DeleteAdComment (comment_id page_id : string)
| GetIgAccounts (page_id : string)
| GetIgMedia (ig_account_id page_id : string) (limit : Z)
| GetIgComments (media_id page_id : string) (limit : Z)
| ReplyIgComment (comment_id page_id message : string)
| DeleteIgComment (comment_id page_id : string)
| GetConversations (page_id : string) (limit : Z)
| GetConversationMessages (conversation_id page_id : string) (limit : Z)
| SendMessage (page_id recipient_id message : string)
| GetLeadForms (page_id : string)
| GetLeadData (form_id page_id : string) (limit : Z)
| GetPageInsights (page_id metrics period : string) (since until : option string)
| GetPostInsights (post_id page_id : string)
| GetPageSubscriptions (page_id : string)
| SubscribePageWebhooks (page_id subscribed_fields : string)
| DebugToken (token_type : string)
| GraphApiCall (endpoint method token_type : string)
    (page_id fields params body : option string).

(** Every operation but the escape hatch. *)
Definition in_fixed_catalog (op : operation) : bool :=
  match op with
  | GraphApiCall _ _ _ _ _ _ _ => false
  | _ => true
  end.

(** ** The annotations of the tools *)

(** What a tool is registered with: [readOnlyHint], [destructiveHint] and
    [idempotentHint] ([openWorldHint] is [True] for every tool). *)
Record hints : Type := mkHints {
  readOnlyHint : bool;
  destructiveHint : bool;
  idempotentHint : bool
}.

Definition annotations (op : operation) : hints :=
  match op with
  | ListPages | GetPageInfo _ | GetPagePosts _ _ | GetPostComments _ _ _
  | GetAdAccounts | GetAdCampaigns _ _ _ | GetAdAdsets _ _ _ _ | GetAds _ _ _ _ _
  | GetAdCreative _ | GetAdComments _ _ _ _ | GetIgAccounts _ | GetIgMedia _ _ _
  | GetIgComments _ _ _ | GetConversations _ _ | GetConversationMessages _ _ _
  | GetLeadForms _ | GetLeadData _ _ _ | GetPageInsights _ _ _ _ _
  | GetPostInsights _ _ | GetPageSubscriptions _ | DebugToken _ =>
      mkHints true false true
  | DeletePagePost _ _ | DeleteComment _ _ | DeleteAdComment _ _
  | DeleteIgComment _ _ =>
      mkHints false true true
  | LikeComment _ _ | HideComment _ _ _ | HideAdComment _ _ _
  | SubscribePageWebhooks _ _ =>
      mkHints false false true
  | CreatePagePost _ _ _ | ReplyToComment _ _ _ | ReplyToAdComment _ _ _
  | ReplyIgComment _ _ _ | SendMessage _ _ _ | GraphApiCall _ _ _ _ _ _ _ =>
      mkHints false false false
  end.

(** ** Sample configurations and remote sides *)

(** Configurations: nothing set; the user credential alone; the user
    credential and a page map that gives [page1] a token and [page2] an
    empty one. *)
Definition bare_environ : string -> option string := fun _ => None.

Definition user_environ : string -> option string :=
  fun name =>
    if String.eqb name "META_SYSTEM_USER_TOKEN" then Some "USER-TOKEN" else None.

Definition mapped_environ : string -> option string :=
  fun name =>
    if String.eqb name "META_SYSTEM_USER_TOKEN" then Some "USER-TOKEN"
    else if String.eqb name "META_PAGE_TOKENS"
         then Some (json_dumps (VDict [("page1", VStr "PAGE-TOKEN");
                                        ("page2", VStr EmptyString)]))
    else None.

(** Remote sides: one that never answers; one that answers every request
    with a page entity; one that answers every request with an error
    payload and the status 400. *)
Definition dead_remote : trace -> request -> outcome :=
  fun _ _ => Unreachable "connection refused".

Definition entity_remote : trace -> request -> outcome :=
  fun _ _ =>
    Arrived (mkResponse 200 EmptyString
               (inr (VDict [("access_token", VStr "EXCHANGED"); ("id", VStr "1")]))).

Definition error_remote : trace -> request -> outcome :=
  fun _ _ =>
    Arrived (mkResponse 400 "Client error '400 Bad Request'"
               (inr (VDict [("error", VDict [("message", VStr "X");
                                             ("code", VInt 190)])]))).

(** Further configurations: the user credential with an app id and
    secret; with a page map that is no JSON text; with a page map that
    is a JSON array.  And a remote side that answers every request with
    the body [null]. *)
Definition app_environ : string -> option string :=
  fun name =>
    if String.eqb name "META_SYSTEM_USER_TOKEN" then Some "USER-TOKEN"
    else if String.eqb name "META_APP_ID" then Some "APP"
    else if String.eqb name "META_APP_SECRET" then Some "SECRET"
    else None.

Definition broken_map_environ : string -> option string :=
  fun name =>
    if String.eqb name "META_SYSTEM_USER_TOKEN" then Some "USER-TOKEN"
    else if String.eqb name "META_PAGE_TOKENS" then Some "page1=PAGE-TOKEN"
    else None.

Definition list_map_environ : string -> option string :=
  fun name =>
    if String.eqb name "META_SYSTEM_USER_TOKEN" then Some "USER-TOKEN"
    else if String.eqb name "META_PAGE_TOKENS" then Some "[]"
    else None.

Definition null_remote : trace -> request -> outcome :=
  fun _ _ => Arrived (mkResponse 200 EmptyString (inr VNone)).

(** A remote side that answers every request with an error object that
    has no message, and the status 400. *)
Definition typed_error_remote : trace -> request -> outcome :=
  fun _ _ =>
    Arrived (mkResponse 400 "Client error '400 Bad Request'"
               (inr (VDict [("error", VDict [("type", VStr "OAuthException");
                                             ("code", VInt 190)])]))).

Section Server.

(** [os.environ], and the remote side: what a request gets, given the
    requests sent before it. *)
Variable environ : string -> option string.
Variable remote : trace -> request -> outcome.

(** [os.environ.get(name, default)]. *)
Definition environ_get (name default : string) : string :=
  match environ name with
  | Some v => v
  | None => default
  end.

(** An httpx call: the request is recorded, then answered. *)
Definition send (r : request) : M response :=
  fun t =>
    match remote t r with
    | Unreachable msg => (inl (TransportError msg), (t ++ [r])%list)
    | Arrived resp => (inr resp, (t ++ [r])%list)
    end.

(** [resp.raise_for_status()]. *)
Definition raise_for_status (resp : response) : M unit :=
  if ((200 <=? status_code resp) && (status_code resp <=? 299))%Z then ret tt
  else raise (HTTPStatusError (status_error resp)).

(** [resp.json()]. *)
Definition resp_json (resp : response) : M value :=
  match body resp with
  | inr v => ret v
  | inl msg => raise (JSONDecodeError msg)
  end.

(** ** Token management *)

Definition _user_token : M string :=
  let token := environ_get "META_SYSTEM_USER_TOKEN" "" in
  if negb (truthy (VStr token)) then
    raise (ValueError "META_SYSTEM_USER_TOKEN env var is not set")
  else ret token.

Definition _page_tokens : M value :=
  let raw := environ_get "META_PAGE_TOKENS" "{}" in
  try_except (loads raw) is_JSONDecodeError (fun _ => ret (VDict [])).

Definition _exchange_page_token (page_id : string) : M value :=
  try_except
    (user <- _user_token ;;
     resp <- send (mkRequest GET (GRAPH_API_BASE ++ "/" ++ page_id)
                     [("fields", VStr "access_token"); ("access_token", VStr user)] []) ;;
     _ <- raise_for_status resp ;;
     data <- resp_json resp ;;
     token <- py_get data "access_token" VNone ;;
     if truthy token then ret token
     else raise (ValueError ("No access_token returned for page " ++ page_id)))
    (fun _ => true)
    (fun e => raise (ValueError ("Could not get page token for " ++ page_id ++ ": "
                                 ++ exn_str e))).

Definition _page_token (page_id : string) : M value :=
  tokens <- _page_tokens ;;
  token <- py_get tokens page_id VNone ;;
  if negb (truthy token) then _exchange_page_token page_id
  else ret token.

Definition _app_token : M string :=
  let app_id := environ_get "META_APP_ID" "" in
  let app_secret := environ_get "META_APP_SECRET" "" in
  if truthy (VStr app_id) && truthy (VStr app_secret) then
    ret (app_id ++ "|" ++ app_secret)
  else raise (ValueError "META_APP_ID and META_APP_SECRET env vars are not set").

(** ** HTTP helpers *)

Definition _graph_get (endpoint : string) (params : dict) (token : value) : M value :=
  let params := dict_set "access_token" token params in
  resp <- send (mkRequest GET (GRAPH_API_BASE ++ "/" ++ endpoint) params []) ;;
  data <- resp_json resp ;;
  has_error <- py_in "error" data ;;
  if has_error : bool then
    err <- py_item data "error" ;;
    msg <- py_get err "message" (VStr (py_str err)) ;;
    ret (VDict [("error", msg)])
  else ret data.

Definition _graph_post (endpoint : string) (payload : dict) (token : value) : M value :=
  let payload := dict_set "access_token" token payload in
  resp <- send (mkRequest POST (GRAPH_API_BASE ++ "/" ++ endpoint) [] payload) ;;
  data <- resp_json resp ;;
  has_error <- py_in "error" data ;;
  if has_error : bool then
    err <- py_item data "error" ;;
    msg <- py_get err "message" (VStr (py_str err)) ;;
    ret (VDict [("error", msg)])
  else ret data.

Definition _graph_delete (endpoint : string) (token : value) : M value :=
  resp <- send (mkRequest DELETE (GRAPH_API_BASE ++ "/" ++ endpoint)
                  [("access_token", token)] []) ;;
  data <- resp_json resp ;;
  has_error <- py_in "error" data ;;
  if has_error : bool then
    err <- py_item data "error" ;;
    msg <- py_get err "message" (VStr (py_str err)) ;;
    ret (VDict [("error", msg)])
  else ret data.

(** The limit sent: [str(min(max(limit, 1), ceiling))]. *)
Definition clamp (limit ceiling : Z) : Z := Z.min (Z.max limit 1) ceiling.

(** ** The exposed operations *)

(** *** Pages: list and info *)

Definition meta_list_pages : M string :=
  token <- _user_token ;;
  data <- _graph_get "me/accounts"
            [("fields", VStr "id,name,category,fan_count,username"); ("limit", VStr "100")]
            (VStr token) ;;
  ret (_fmt data).

Definition meta_get_page_info (page_id : string) : M string :=
  let fields := "id,name,username,category,fan_count,followers_count,about,description,website,phone,emails,location,hours,verification_status,picture{url}" in
  token <- _page_token page_id ;;
  data <- _graph_get page_id [("fields", VStr fields)] token ;;
  ret (_fmt data).

(** *** Page posts *)

Definition meta_get_page_posts (page_id : string) (limit : Z) : M string :=
  let fields := "id,message,created_time,type,permalink_url,shares,likes.summary(true).limit(0),comments.summary(true).limit(0),attachments{media_type,url,media}" in
  token <- _page_token page_id ;;
  data <- _graph_get (page_id ++ "/feed")
            [("fields", VStr fields); ("limit", VStr (str_int (clamp limit 100)))]
            token ;;
  ret (_fmt data).

Definition meta_create_page_post (page_id message : string) (link : option string)
    : M string :=
  let payload := [("message", VStr message)] in
  let payload :=
    match link with
    | Some l => if truthy (VStr l) then dict_set "link" (VStr l) payload else payload
    | None => payload
    end in
  token <- _page_token page_id ;;
  data <- _graph_post (page_id ++ "/feed") payload token ;;
  ret (_fmt data).

Definition meta_delete_page_post (post_id page_id : string) : M string :=
  token <- _page_token page_id ;;
  data <- _graph_delete post_id token ;;
  ret (_fmt data).

(** *** Comments *)

Definition meta_get_post_comments (post_id page_id : string) (limit : Z) : M string :=
  let fields := "id,message,from{id,name},created_time,like_count,comment_count,attachment{media_type,url,media}" in
  token <- _page_token page_id ;;
  data <- _graph_get (post_id ++ "/comments")
            [("fields", VStr fields); ("limit", VStr (str_int (clamp limit 100)))]
            token ;;
  ret (_fmt data).

Definition meta_reply_to_comment (comment_id page_id message : string) : M string :=
  token <- _page_token page_id ;;
  data <- _graph_post (comment_id ++ "/comments") [("message", VStr message)] token ;;
  ret (_fmt data).

Definition meta_delete_comment (comment_id page_id : string) : M string :=
  token <- _page_token page_id ;;
  data <- _graph_delete comment_id token ;;
  ret (_fmt data).

Definition meta_like_comment (comment_id page_id : string) : M string :=
  token <- _page_token page_id ;;
  data <- _graph_post (comment_id ++ "/likes") [] token ;;
  ret (_fmt data).

Definition meta_hide_comment (comment_id page_id : string) (is_hidden : bool)
    : M string :=
  token <- _page_token page_id ;;
  resp <- send (mkRequest POST (GRAPH_API_BASE ++ "/" ++ comment_id) []
                  [("is_hidden", VStr (str_bool_lower is_hidden));
                   ("access_token", token)]) ;;
  data <- resp_json resp ;;
  ret (_fmt data).

(** *** Ad accounts, campaigns, ad sets, ads *)

Definition meta_get_ad_accounts : M string :=
  token <- _user_token ;;
  data <- _graph_get "me/adaccounts"
            [("fields", VStr "id,name,account_id,account_status,currency,timezone_name");
             ("limit", VStr "100")]
            (VStr token) ;;
  ret (_fmt data).

(** The clause [{"field": field, "operator": operator, "value": v}]. *)
Definition clause (field operator : string) (v : value) : value :=
  VDict [("field", VStr field); ("operator", VStr operator); ("value", v)].

Definition meta_get_ad_campaigns (ad_account_id status_filter : string) (limit : Z)
    : M string :=
  let params :=
    [("fields", VStr "id,name,objective,status,effective_status,daily_budget,lifetime_budget,created_time");
     ("limit", VStr (str_int (clamp limit 100)))] in
  let params :=
    if negb (String.eqb (upper status_filter) "ALL") then
      dict_set "filtering"
        (VStr (json_dumps
                 (VList [clause "effective_status" "IN" (VList [VStr (upper status_filter)])])))
        params
    else params in
  token <- _user_token ;;
  data <- _graph_get (ad_account_id ++ "/campaigns") params (VStr token) ;;
  ret (_fmt data).

Definition meta_get_ad_adsets (ad_account_id : string) (campaign_id : option string)
    (status_filter : string) (limit : Z) : M string :=
  let params :=
    [("fields", VStr "id,name,campaign_id,status,effective_status,daily_budget,lifetime_budget,targeting,optimization_goal");
     ("limit", VStr (str_int (clamp limit 100)))] in
  let filtering : list value := [] in
  let filtering :=
    if negb (String.eqb (upper status_filter) "ALL") then
      (filtering ++ [clause "effective_status" "IN" (VList [VStr (upper status_filter)])])%list
    else filtering in
  let filtering :=
    match campaign_id with
    | Some c =>
        if truthy (VStr c) then (filtering ++ [clause "campaign.id" "EQUAL" (VStr c)])%list
        else filtering
    | None => filtering
    end in
  let params :=
    if truthy (VList filtering) then
      dict_set "filtering" (VStr (json_dumps (VList filtering))) params
    else params in
  token <- _user_token ;;
  data <- _graph_get (ad_account_id ++ "/adsets") params (VStr token) ;;
  ret (_fmt data).

Definition meta_get_ads (ad_account_id : string) (campaign_id adset_id : option string)
    (status_filter : string) (limit : Z) : M string :=
  let params :=
    [("fields", VStr "id,name,status,effective_status,campaign_id,adset_id,creative{id,effective_object_story_id}");
     ("limit", VStr (str_int (clamp limit 100)))] in
  let filtering : list value := [] in
  let filtering :=
    if negb (String.eqb (upper status_filter) "ALL") then
      (filtering ++ [clause "effective_status" "IN" (VList [VStr (upper status_filter)])])%list
    else filtering in
  let filtering :=
    match campaign_id with
    | Some c =>
        if truthy (VStr c) then (filtering ++ [clause "campaign.id" "EQUAL" (VStr c)])%list
        else filtering
    | None => filtering
    end in
  let filtering :=
    match adset_id with
    | Some a =>
        if truthy (VStr a) then (filtering ++ [clause "adset.id" "EQUAL" (VStr a)])%list
        else filtering
    | None => filtering
    end in
  let params :=
    if truthy (VList filtering) then
      dict_set "filtering" (VStr (json_dumps (VList filtering))) params
    else params in
  token <- _user_token ;;
  data <- _graph_get (ad_account_id ++ "/ads") params (VStr token) ;;
  ret (_fmt data).

Definition meta_get_ad_creative (ad_id : string) : M string :=
  token <- _user_token ;;
  data <- _graph_get ad_id
            [("fields", VStr "id,name,creative{id,effective_object_story_id,object_story_spec,thumbnail_url,title,body}")]
            (VStr token) ;;
  ret (_fmt data).

(** *** Ad comments *)

Definition meta_get_ad_comments (effective_object_story_id page_id : string)
    (limit : Z) (filter_type : string) : M string :=
  let fields := "id,message,from{id,name},created_time,like_count,comment_count,is_hidden,attachment{media_type,url,media}" in
  let params :=
    [("fields", VStr fields);
     ("limit", VStr (str_int (clamp limit 100)));
     ("filter", VStr filter_type)] in
  token <- _page_token page_id ;;
  data <- _graph_get (effective_object_story_id ++ "/comments") params token ;;
  ret (_fmt data).

Definition meta_reply_to_ad_comment (comment_id page_id message : string) : M string :=
  token <- _page_token page_id ;;
  data <- _graph_post (comment_id ++ "/comments") [("message", VStr message)] token ;;
  ret (_fmt data).

Definition meta_hide_ad_comment (comment_id page_id : string) (is_hidden : bool)
    : M string :=
  token <- _page_token page_id ;;
  resp <- send (mkRequest POST (GRAPH_API_BASE ++ "/" ++ comment_id) []
                  [("is_hidden", VStr (str_bool_lower is_hidden));
                   ("access_token", token)]) ;;
  data <- resp_json resp ;;
  ret (_fmt data).

Definition meta_delete_ad_comment (comment_id page_id : string) : M string :=
  token <- _page_token page_id ;;
  data <- _graph_delete comment_id token ;;
  ret (_fmt data).

(** *** Instagram *)

Definition meta_get_ig_accounts (page_id : string) : M string :=
  token <- _page_token page_id ;;
  data <- _graph_get page_id
            [("fields", VStr "instagram_business_account{id,name,username,profile_picture_url,followers_count,media_count}")]
            token ;;
  ret (_fmt data).

Definition meta_get_ig_media (ig_account_id page_id : string) (limit : Z) : M string :=
  let fields := "id,caption,media_type,media_url,permalink,timestamp,like_count,comments_count,thumbnail_url" in
  token <- _page_token page_id ;;
  data <- _graph_get (ig_account_id ++ "/media")
            [("fields", VStr fields); ("limit", VStr (str_int (clamp limit 50)))]
            token ;;
  ret (_fmt data).

Definition meta_get_ig_comments (media_id page_id : string) (limit : Z) : M string :=
  let fields := "id,text,username,timestamp,like_count,replies{id,text,username,timestamp}" in
  token <- _page_token page_id ;;
  data <- _graph_get (media_id ++ "/comments")
            [("fields", VStr fields); ("limit", VStr (str_int (clamp limit 100)))]
            token ;;
  ret (_fmt data).

Definition meta_reply_ig_comment (comment_id page_id message : string) : M string :=
  token <- _page_token page_id ;;
  data <- _graph_post (comment_id ++ "/replies") [("message", VStr message)] token ;;
  ret (_fmt data).

Definition meta_delete_ig_comment (comment_id page_id : string) : M string :=
  token <- _page_token page_id ;;
  data <- _graph_delete comment_id token ;;
  ret (_fmt data).

(** *** Messaging *)

Definition meta_get_conversations (page_id : string) (limit : Z) : M string :=
  let fields := "id,snippet,updated_time,message_count,participants,messages.limit(3){id,message,from,created_time}" in
  token <- _page_token page_id ;;
  data <- _graph_get (page_id ++ "/conversations")
            [("fields", VStr fields); ("limit", VStr (str_int (clamp limit 50)))]
            token ;;
  ret (_fmt data).

Definition meta_get_conversation_messages (conversation_id page_id : string)
    (limit : Z) : M string :=
  let fields := "id,message,from,to,created_time,attachments{mime_type,name,size,url}" in
  token <- _page_token page_id ;;
  data <- _graph_get (conversation_id ++ "/messages")
            [("fields", VStr fields); ("limit", VStr (str_int (clamp limit 100)))]
            token ;;
  ret (_fmt data).

Definition meta_send_message (page_id recipient_id message : string) : M string :=
  let payload :=
    [("recipient", VStr (json_dumps (VDict [("id", VStr recipient_id)])));
     ("message", VStr (json_dumps (VDict [("text", VStr message)])));
     ("messaging_type", VStr "RESPONSE")] in
  token <- _page_token page_id ;;
  data <- _graph_post (page_id ++ "/messages") payload token ;;
  ret (_fmt data).

(** *** Leads *)

Definition meta_get_lead_forms (page_id : string) : M string :=
  let fields := "id,name,status,created_time,leads_count,locale,questions{key,label,type}" in
  token <- _page_token page_id ;;
  data <- _graph_get (page_id ++ "/leadgen_forms")
            [("fields", VStr fields); ("limit", VStr "50")]
            token ;;
  ret (_fmt data).

Definition meta_get_lead_data (form_id page_id : string) (limit : Z) : M string :=
  let fields := "id,created_time,field_data,ad_id,ad_name,campaign_id,campaign_name" in
  token <- _page_token page_id ;;
  data <- _graph_get (form_id ++ "/leads")
            [("fields", VStr fields); ("limit", VStr (str_int (clamp limit 100)))]
            token ;;
  ret (_fmt data).

(** *** Page insights *)

Definition meta_get_page_insights (page_id metrics period : string)
    (since until : option string) : M string :=
  let params := [("metric", VStr metrics); ("period", VStr period)] in
  let params :=
    match since with
    | Some x => if truthy (VStr x) then dict_set "since" (VStr x) params else params
    | None => params
    end in
  let params :=
    match until with
    | Some x => if truthy (VStr x) then dict_set "until" (VStr x) params else params
    | None => params
    end in
  token <- _page_token page_id ;;
  data <- _graph_get (page_id ++ "/insights") params token ;;
  ret (_fmt data).

Definition meta_get_post_insights (post_id page_id : string) : M string :=
  let metrics := "post_impressions,post_impressions_unique,post_engaged_users,post_clicks,post_reactions_by_type_total" in
  token <- _page_token page_id ;;
  data <- _graph_get (post_id ++ "/insights") [("metric", VStr metrics)] token ;;
  ret (_fmt data).

(** *** Webhooks *)

Definition meta_get_page_subscriptions (page_id : string) : M string :=
  token <- _page_token page_id ;;
  data <- _graph_get (page_id ++ "/subscribed_apps") [] token ;;
  ret (_fmt data).

Definition meta_subscribe_page_webhooks (page_id subscribed_fields : string)
    : M string :=
  token <- _page_token page_id ;;
  data <- _graph_post (page_id ++ "/subscribed_apps")
            [("subscribed_fields", VStr subscribed_fields)] token ;;
  ret (_fmt data).

(** *** Utility *)

Definition meta_debug_token (token_type : string) : M string :=
  input_token <-
    (if String.eqb token_type "user" then (t <- _user_token ;; ret (VStr t))
     else if String.eqb token_type "app" then (t <- _app_token ;; ret (VStr t))
     else _page_token token_type) ;;
  app_token <- try_except _app_token is_ValueError (fun _ => _user_token) ;;
  data <- _graph_get "debug_token" [("input_token", input_token)] (VStr app_token) ;;
  ret (_fmt data).

(** The escape hatch.  A [return] in the middle of the body is a result
    [inl out] that the steps after it pass on. *)
Definition meta_graph_api_call (endpoint method token_type : string)
    (page_id fields params body : option string) : M string :=
  resolved <-
    (if String.eqb token_type "page" then
       match page_id with
       | Some p =>
           if negb (truthy (VStr p)) then
             ret (inl (_fmt (VDict [("error", VStr "page_id is required when token_type='page'")])))
           else (t <- _page_token p ;; ret (inr t))
       | None =>
           ret (inl (_fmt (VDict [("error", VStr "page_id is required when token_type='page'")])))
       end
     else if String.eqb token_type "app" then (t <- _app_token ;; ret (inr (VStr t)))
     else (t <- _user_token ;; ret (inr (VStr t)))) ;;
  match resolved with
  | inl out => ret out
  | inr token =>
      let extra_params : dict := [] in
      let extra_params :=
        match fields with
        | Some f =>
            if truthy (VStr f) then dict_set "fields" (VStr f) extra_params
            else extra_params
        | None => extra_params
        end in
      merged <-
        match params with
        | Some p =>
            if truthy (VStr p) then
              try_except
                (v <- loads p ;; d <- dict_update extra_params v ;; ret (inr d))
                is_JSONDecodeError
                (fun _ => ret (inl (_fmt (VDict [("error", VStr "params must be valid JSON")]))))
            else ret (inr extra_params)
        | None => ret (inr extra_params)
        end ;;
      match merged with
      | inl out => ret out
      | inr extra_params =>
          if String.eqb (upper method) "GET" then
            data <- _graph_get endpoint extra_params token ;;
            ret (_fmt data)
          else if String.eqb (upper method) "POST" then
            parsed <-
              match body with
              | Some b =>
                  if truthy (VStr b) then
                    try_except
                      (v <- loads b ;; ret (inr v))
                      is_JSONDecodeError
                      (fun _ => ret (inl (_fmt (VDict [("error", VStr "body must be valid JSON")]))))
                  else ret (inr (VDict []))
              | None => ret (inr (VDict []))
              end ;;
            match parsed with
            | inl out => ret out
            | inr payload =>
                payload <-
                  match payload with
                  | VDict d => ret (dict_merge d extra_params)
                  | other => no_attribute other "update"
                  end ;;
                data <- _graph_post endpoint payload token ;;
                ret (_fmt data)
            end
          else if String.eqb (upper method) "DELETE" then
            data <- _graph_delete endpoint token ;;
            ret (_fmt data)
          else
            ret (_fmt (VDict [("error", VStr ("Unsupported method: " ++ method
                                              ++ ". Use GET, POST, or DELETE."))]))
      end
  end.

(** A call of a tool by the hosting layer. *)
Definition run (op : operation) : M string :=
  match op with
  | ListPages => meta_list_pages
  | GetPageInfo page_id => meta_get_page_info page_id
  | GetPagePosts page_id limit => meta_get_page_posts page_id limit
  | CreatePagePost page_id message link => meta_create_page_post page_id message link
  | DeletePagePost post_id page_id => meta_delete_page_post post_id page_id
  | GetPostComments post_id page_id limit => meta_get_post_comments post_id page_id limit
  | ReplyToComment comment_id page_id message =>
      meta_reply_to_comment comment_id page_id message
  | DeleteComment comment_id page_id => meta_delete_comment comment_id page_id
  | LikeComment comment_id page_id => meta_like_comment comment_id page_id
  | HideComment comment_id page_id is_hidden =>
      meta_hide_comment comment_id page_id is_hidden
  | GetAdAccounts => meta_get_ad_accounts
  | GetAdCampaigns ad_account_id status_filter limit =>
      meta_get_ad_campaigns ad_account_id status_filter limit
  | GetAdAdsets ad_account_id campaign_id status_filter limit =>
      meta_get_ad_adsets ad_account_id campaign_id status_filter limit
  | GetAds ad_account_id campaign_id adset_id status_filter limit =>
      meta_get_ads ad_account_id campaign_id adset_id status_filter limit
  | GetAdCreative ad_id => meta_get_ad_creative ad_id
  | GetAdComments story_id page_id limit filter_type =>
      meta_get_ad_comments story_id page_id limit filter_type
  | ReplyToAdComment comment_id page_id message =>
      meta_reply_to_ad_comment comment_id page_id message
  | HideAdComment comment_id page_id is_hidden =>
      meta_hide_ad_comment comment_id page_id is_hidden
  | DeleteAdComment comment_id page_id => meta_delete_ad_comment comment_id page_id
  | GetIgAccounts page_id => meta_get_ig_accounts page_id
  | GetIgMedia ig_account_id page_id limit => meta_get_ig_media ig_account_id page_id limit
  | GetIgComments media_id page_id limit => meta_get_ig_comments media_id page_id limit
  | ReplyIgComment comment_id page_id message =>
      meta_reply_ig_comment comment_id page_id message
  | DeleteIgComment comment_id page_id => meta_delete_ig_comment comment_id page_id
  | GetConversations page_id limit => meta_get_conversations page_id limit
  | GetConversationMessages conversation_id page_id limit =>
      meta_get_conversation_messages conversation_id page_id limit
  | SendMessage page_id recipient_id message =>
      meta_send_message page_id recipient_id message
  | GetLeadForms page_id => meta_get_lead_forms page_id
  | GetLeadData form_id page_id limit => meta_get_lead_data form_id page_id limit
  | GetPageInsights page_id metrics period since until =>
      meta_get_page_insights page_id metrics period since until
  | GetPostInsights post_id page_id => meta_get_post_insights post_id page_id
  | GetPageSubscriptions page_id => meta_get_page_subscriptions page_id
  | SubscribePageWebhooks page_id subscribed_fields =>
      meta_subscribe_page_webhooks page_id subscribed_fields
  | DebugToken token_type => meta_debug_token token_type
  | GraphApiCall endpoint method token_type page_id fields params body =>
      meta_graph_api_call endpoint method token_type page_id fields params body
  end.

(** The three primitives under one name. *)
Inductive primitive : Type :=
| Read (endpoint : string) (params : dict)
| Write (endpoint : string) (payload : dict)
| Remove (endpoint : string).

Definition perform (p : primitive) (token : value) : M value :=
  match p with
  | Read endpoint params => _graph_get endpoint params token
  | Write endpoint payload => _graph_post endpoint payload token
  | Remove endpoint => _graph_delete endpoint token
  end.

(** The request a primitive sends. *)
Definition request_of (p : primitive) (token : value) : request :=
  match p with
  | Read endpoint params =>
      mkRequest GET (GRAPH_API_BASE ++ "/" ++ endpoint)
        (dict_set "access_token" token params) []
  | Write endpoint payload =>
      mkRequest POST (GRAPH_API_BASE ++ "/" ++ endpoint) []
        (dict_set "access_token" token payload)
  | Remove endpoint =>
      mkRequest DELETE (GRAPH_API_BASE ++ "/" ++ endpoint) [("access_token", token)] []
  end.

(** ** The vocabulary of the properties *)

(** The request of the token exchange, and the error it ends in on a
    failure: what [_exchange_page_token] sends and raises. *)
Definition exchange_request (page_id user : string) : request :=
  mkRequest GET (GRAPH_API_BASE ++ "/" ++ page_id)
    [("fields", VStr "access_token"); ("access_token", VStr user)] [].

Definition exchange_error (page_id cause : string) : exn :=
  ValueError ("Could not get page token for " ++ page_id ++ ": " ++ cause).

Definition is_success (status : Z) : bool :=
  ((200 <=? status) && (status <=? 299))%Z.

(** The request carries [token] as its [access_token], in the query or in
    the form-encoded body. *)
Definition carries (token : value) (r : request) : Prop :=
  dict_get "access_token" (req_params r) = Some token
  \/ dict_get "access_token" (req_data r) = Some token.

(** The result the escape hatch gives for the page selector without a
    page id. *)
Definition page_id_required : string :=
  _fmt (VDict [("error", VStr "page_id is required when token_type='page'")]).

(** The [limit] argument of the operations that take one. *)
Definition limit_arg (op : operation) : option Z :=
  match op with
  | GetPagePosts _ n | GetPostComments _ _ n | GetAdCampaigns _ _ n
  | GetAdAdsets _ _ _ n | GetAds _ _ _ _ n | GetAdComments _ _ n _
  | GetIgMedia _ _ n | GetIgComments _ _ n | GetConversations _ n
  | GetConversationMessages _ _ n | GetLeadData _ _ n => Some n
  | _ => None
  end.

(** The ceilings as the claim gives them: 50 for the Instagram media
    listing, 100 for the other listings. *)
Definition stated_ceiling (op : operation) : Z :=
  match op with
  | GetIgMedia _ _ _ => 50
  | _ => 100
  end.

(** The ceilings as the code has them: the conversations listing stops
    at 50 too. *)
Definition ceiling (op : operation) : Z :=
  match op with
  | GetIgMedia _ _ _ | GetConversations _ _ => 50
  | _ => 100
  end.

(** The request has no [limit] parameter other than [expected]. *)
Definition limit_is (expected : value) (r : request) : Prop :=
  forall v, dict_get "limit" (req_params r) = Some v -> v = expected.

(** The objects whose JSON text is read back as the object itself: no
    number in them, and no key twice in a dict. *)
Fixpoint distinct (l : list string) : bool :=
  match l with
  | [] => true
  | x :: rest => negb (existsb (String.eqb x) rest) && distinct rest
  end.

Fixpoint plain (v : value) : bool :=
  match v with
  | VNone | VBool _ | VStr _ => true
  | VInt _ | VFloat _ => false
  | VList items => forallb plain items
  | VDict entries => forallb (fun kv => plain (snd kv)) entries && distinct (keys entries)
  end.

(** No float anywhere in the object. *)
Fixpoint float_free (v : value) : bool :=
  match v with
  | VFloat _ => false
  | VList items => forallb float_free items
  | VDict entries => forallb (fun kv => float_free (snd kv)) entries
  | _ => true
  end.

(** A text [repr] writes between single quotes as it is: printable
    characters, no single quote and no backslash among them. *)
Definition simple_char (c : ascii) : bool :=
  printable c && negb (Ascii.eqb c "'") && negb (Ascii.eqb c backslash).

Fixpoint simple_text (s : string) : bool :=
  match s with
  | EmptyString => true
  | String c rest => simple_char c && simple_text rest
  end.

(** The fuel [scan_value] needs to read the text of [v]. *)
Fixpoint need (v : value) : nat :=
  match v with
  | VList items => S (fold_right (fun x acc => S (Nat.max (need x) acc)) O items)
  | VDict entries =>
      S (fold_right (fun kv acc => S (Nat.max (need (snd kv)) acc)) O entries)
  | _ => 1
  end.

Definition need_items (items : list value) : nat :=
  fold_right (fun x acc => S (Nat.max (need x) acc)) O items.

Definition need_entries (entries : list (string * value)) : nat :=
  fold_right (fun kv acc => S (Nat.max (need (snd kv)) acc)) O entries.

(** The text of one entry of a dict. *)
Definition entry_text (level : nat) (kv : string * value) : string :=
  encode_string true (fst kv) ++ ": " ++ dumps_at true None level (snd kv).

(** The [status_filter] argument of the operations that take one, and
    their identity filters ([campaign_id], [adset_id]) in the order of the
    arguments, each with the field it restricts. *)
Definition status_arg (op : operation) : option string :=
  match op with
  | GetAdCampaigns _ s _ | GetAdAdsets _ _ s _ | GetAds _ _ _ s _ => Some s
  | _ => None
  end.

Definition identity_args (op : operation) : list (string * option string) :=
  match op with
  | GetAdAdsets _ c _ _ => [("campaign.id", c)]
  | GetAds _ c a _ _ => [("campaign.id", c); ("adset.id", a)]
  | _ => []
  end.

(** [status_filter] is ["all"] in some casing. *)
Definition caseless_all (status_filter : string) : bool :=
  String.eqb (lower status_filter) "all".

Definition status_clause (status_filter : string) : value :=
  VDict [("field", VStr "effective_status"); ("operator", VStr "IN");
         ("value", VList [VStr (upper status_filter)])].

Definition identity_clause (field id : string) : value :=
  VDict [("field", VStr field); ("operator", VStr "EQUAL"); ("value", VStr id)].

(** The clauses of the identity filters that are given and not empty. *)
Fixpoint identity_clauses (args : list (string * option string)) : list value :=
  match args with
  | [] => []
  | (field, Some id) :: rest =>
      if String.eqb id "" then identity_clauses rest
      else identity_clause field id :: identity_clauses rest
  | (_, None) :: rest => identity_clauses rest
  end.

(** The filter array as the specification describes it: the status
    clause unless the status is ["all"], then the identity clauses. *)
Definition filter_clauses (op : operation) (status_filter : string) : list value :=
  ((if caseless_all status_filter then [] else [status_clause status_filter])
   ++ identity_clauses (identity_args op))%list.

(** The credential the escape hatch selects: [token], leaving the trace
    [t']. *)
Definition selects (token_type : string) (page_id : option string)
    (t : trace) (token : value) (t' : trace) : Prop :=
  if String.eqb token_type "page" then
    exists p, page_id = Some p /\ p <> EmptyString /\ _page_token p t = (inr token, t')
  else if String.eqb token_type "app" then
    exists a, _app_token t = (inr a, t') /\ token = VStr a
  else
    exists u, _user_token t = (inr u, t') /\ token = VStr u.

(** The uniform error result, as the document an operation returns. *)
Definition error_result (message : string) : string :=
  _fmt (VDict [("error", VStr message)]).

(** A blob argument of the escape hatch ([params], [body]) is absent,
    empty, or the text of a JSON object. *)
Definition params_object (params : option string) : Prop :=
  match params with
  | None => True
  | Some p => p = EmptyString \/ exists o, json_loads p = Some (VDict o)
  end.

(** The operation resolves a credential: every one does, but the escape
    hatch called with the page selector and no page id. *)
Definition resolves_credential (op : operation) : bool :=
  match op with
  | GraphApiCall _ _ token_type page_id _ _ _ =>
      negb (String.eqb token_type "page" && negb (given page_id))
  | _ => true
  end.

(** The operation gets as far as its request once its credential is
    resolved: every one of the fixed catalog does; the escape hatch does
    when its blobs are objects and its verb is one of the three. *)
Definition reaches_remote (op : operation) : Prop :=
  match op with
  | GraphApiCall _ method _ _ _ params body =>
      params_object params
      /\ (upper method = "GET" \/ upper method = "DELETE"
          \/ (upper method = "POST" /\ params_object body))
  | _ => True
  end.

(** The request gets no decoded body: no response at all, or a response
    whose body is not JSON. *)
Definition no_body (o : outcome) : Prop :=
  match o with
  | Unreachable _ => True
  | Arrived resp => exists msg, body resp = inl msg
  end.

(** The [fields] argument as the parameters the call starts from. *)
Definition fields_entry (fields : option string) : dict :=
  match fields with
  | Some f => if truthy (VStr f) then dict_set "fields" (VStr f) [] else []
  | None => []
  end.

(** The page whose credential a fixed operation asks for, when it asks
    for one by its [page_id] argument. *)
Definition page_of (op : operation) : option string :=
  match op with
  | GetPageInfo p | GetPagePosts p _ | CreatePagePost p _ _ | DeletePagePost _ p
  | GetPostComments _ p _ | ReplyToComment _ p _ | DeleteComment _ p
  | LikeComment _ p | HideComment _ p _ | GetAdComments _ p _ _
  | ReplyToAdComment _ p _ | HideAdComment _ p _ | DeleteAdComment _ p
  | GetIgAccounts p | GetIgMedia _ p _ | GetIgComments _ p _
  | ReplyIgComment _ p _ | DeleteIgComment _ p | GetConversations p _
  | GetConversationMessages _ p _ | SendMessage p _ _ | GetLeadForms p
  | GetLeadData _ p _ | GetPageInsights p _ _ _ _ | GetPostInsights _ p
  | GetPageSubscriptions p | SubscribePageWebhooks p _ => Some p
  | _ => None
  end.

(** The fixed operations that work under the user credential. *)
Definition by_user (op : operation) : bool :=
  match op with
  | ListPages | GetAdAccounts | GetAdCampaigns _ _ _ | GetAdAdsets _ _ _ _
  | GetAds _ _ _ _ _ | GetAdCreative _ => true
  | _ => false
  end.

(** An optional argument as the entries it adds: none when it is absent
    or empty. *)
Definition optional_entry (k : string) (x : option string) : dict :=
  match x with
  | Some s => if truthy (VStr s) then [(k, VStr s)] else []
  | None => []
  end.

(** The text of one entry of a dict, under any settings of the encoder. *)
Definition formatted_entry (ensure_ascii : bool) (indent : option nat) (level : nat)
    (kv : string * value) : string :=
  encode_string ensure_ascii (fst kv) ++ ": "
  ++ dumps_at ensure_ascii indent level (snd kv).

(** The two operations that send their request themselves, not through
    a primitive. *)
Definition sends_by_itself (op : operation) : bool :=
  match op with
  | HideComment _ _ _ | HideAdComment _ _ _ => true
  | _ => false
  end.

(** The request carries a credential that is not empty. *)
Definition credentialed (r : request) : Prop :=
  exists token, carries token r /\ token <> VNone /\ token <> VStr EmptyString.

(** The credential step of an operation: the resolver it calls before
    anything else, with the credential as the primitives take it.  The
    escape hatch has none when it is called with the page selector and
    no page id. *)
Definition credential_of (op : operation) : option (M value) :=
  match op with
  | DebugToken token_type =>
      Some (if String.eqb token_type "user" then (t <- _user_token ;; ret (VStr t))
            else if String.eqb token_type "app" then (t <- _app_token ;; ret (VStr t))
            else _page_token token_type)
  | GraphApiCall _ _ token_type page_id _ _ _ =>
      if String.eqb token_type "page" then
        match page_id with
        | Some p => if negb (truthy (VStr p)) then None else Some (_page_token p)
        | None => None
        end
      else if String.eqb token_type "app" then Some (t <- _app_token ;; ret (VStr t))
      else Some (t <- _user_token ;; ret (VStr t))
  | _ =>
      match page_of op with
      | Some p => Some (_page_token p)
      | None => Some (t <- _user_token ;; ret (VStr t))
      end
  end.

(** The second credential of the token inspection, the one that
    authorizes its request: the app token, or the user token when the
    app token raises its [ValueError]. *)
Definition debug_authorization : M string :=
  try_except _app_token is_ValueError (fun _ => _user_token).

(** Every credential the operation needs is resolved at [t]: its
    credential step gives [token] and leaves the trace [t'], and for the
    token inspection the authorization is resolved too. *)
Definition credentials_resolved (op : operation) (t : trace) (token : value)
    (t' : trace) : Prop :=
  (exists c, credential_of op = Some c /\ c t = (inr token, t'))
  /\ match op with
     | DebugToken _ => exists auth, debug_authorization t' = (inr auth, t')
     | _ => True
     end.

(** The exception a request ends in when it gets no decoded body: what
    httpx raises when there is no response, what [resp.json()] raises
    when the body is not JSON. *)
Definition failure_of (o : outcome) : option exn :=
  match o with
  | Unreachable msg => Some (TransportError msg)
  | Arrived resp =>
      match body resp with
      | inl msg => Some (JSONDecodeError msg)
      | inr _ => None
      end
  end.

(** [c] sends at most [n] requests. *)
Definition sends_at_most {A : Type} (n : nat) (c : M A) : Prop :=
  forall t, exists new, snd (c t) = (t ++ new)%list /\ (List.length new <= n)%nat.

(** * Properties *)

Arguments py_str : simpl never.
Arguments py_repr : simpl never.
Arguments _fmt : simpl never.
Arguments json_dumps : simpl never.
Arguments json_loads : simpl never.
Arguments str_int : simpl never.
Arguments upper : simpl never.

(** Every operation, unfolded to the resolvers and the primitives. *)
Ltac unfold_tools :=
  unfold meta_list_pages, meta_get_page_info, meta_get_page_posts,
    meta_create_page_post, meta_delete_page_post, meta_get_post_comments,
    meta_reply_to_comment, meta_delete_comment, meta_like_comment,
    meta_hide_comment, meta_get_ad_accounts, meta_get_ad_campaigns,
    meta_get_ad_adsets, meta_get_ads, meta_get_ad_creative, meta_get_ad_comments,
    meta_reply_to_ad_comment, meta_hide_ad_comment, meta_delete_ad_comment,
    meta_get_ig_accounts, meta_get_ig_media, meta_get_ig_comments,
    meta_reply_ig_comment, meta_delete_ig_comment, meta_get_conversations,
    meta_get_conversation_messages, meta_send_message, meta_get_lead_forms,
    meta_get_lead_data, meta_get_page_insights, meta_get_post_insights,
    meta_get_page_subscriptions, meta_subscribe_page_webhooks, meta_debug_token,
    meta_graph_api_call.

(** ** Text *)

Lemma append_assoc (a b c : string) : (a ++ b) ++ c = a ++ (b ++ c).
Proof. induction a as [|x a IH]; simpl; [reflexivity | now rewrite IH]. Qed.

Lemma append_nil_r (a : string) : a ++ EmptyString = a.
Proof. induction a as [|x a IH]; simpl; [reflexivity | now rewrite IH]. Qed.

Lemma length_append (a b : string) :
  String.length (a ++ b) = (String.length a + String.length b)%nat.
Proof. induction a as [|x a IH]; simpl; [reflexivity | now rewrite IH]. Qed.

(** ** Dictionaries *)

Lemma dict_get_set_same (k : string) (v : value) (d : dict) :
  dict_get k (dict_set k v d) = Some v.
Proof.
  induction d as [|[k' v'] d IH]; simpl.
  - now rewrite String.eqb_refl.
  - destruct (String.eqb k k') eqn:E; simpl.
    + now rewrite String.eqb_refl.
    + now rewrite E.
Qed.

Lemma dict_get_set_other (k k' : string) (v : value) (d : dict) :
  k <> k' -> dict_get k' (dict_set k v d) = dict_get k' d.
Proof.
  intros Hne. induction d as [|[k0 v0] d IH]; simpl.
  - destruct (String.eqb k' k) eqn:E; [|reflexivity].
    apply String.eqb_eq in E. congruence.
  - destruct (String.eqb k k0) eqn:E; simpl.
    + apply String.eqb_eq in E. subst k0.
      destruct (String.eqb k' k) eqn:E'; [|reflexivity].
      apply String.eqb_eq in E'. congruence.
    + destruct (String.eqb k' k0); [reflexivity | exact IH].
Qed.

Lemma keys_dict_set_in (k : string) (v : value) (d : dict) :
  In k (keys d) -> keys (dict_set k v d) = keys d.
Proof.
  induction d as [|[k' v'] d IH]; simpl; [tauto|].
  intros H. destruct (String.eqb k k') eqn:E; simpl.
  - apply String.eqb_eq in E. now subst.
  - f_equal. apply IH. destruct H as [H|H]; [|exact H].
    subst. now rewrite String.eqb_refl in E.
Qed.

Lemma keys_dict_set_new (k : string) (v : value) (d : dict) :
  ~ In k (keys d) -> keys (dict_set k v d) = (keys d ++ [k])%list.
Proof.
  induction d as [|[k' v'] d IH]; simpl; [reflexivity|].
  intros H. destruct (String.eqb k k') eqn:E; simpl.
  - apply String.eqb_eq in E. subst. tauto.
  - f_equal. apply IH. tauto.
Qed.

Lemma dict_set_NoDup (k : string) (v : value) (d : dict) :
  NoDup (keys d) -> NoDup (keys (dict_set k v d)).
Proof.
  intros H. destruct (in_dec string_dec k (keys d)) as [Hin|Hout].
  - now rewrite keys_dict_set_in.
  - rewrite keys_dict_set_new by assumption.
    apply NoDup_app; [assumption | repeat constructor; simpl; tauto |].
    intros x Hx [Hx'|[]]. subst. contradiction.
Qed.

(** ** The monad *)

Lemma bind_inr {A B : Type} (c : M A) (k : A -> M B) (t t' : trace) (a : A) :
  c t = (inr a, t') -> bind c k t = k a t'.
Proof. intros H. unfold bind. now rewrite H. Qed.

Lemma bind_inl {A B : Type} (c : M A) (k : A -> M B) (t t' : trace) (e : exn) :
  c t = (inl e, t') -> bind c k t = (inl e, t').
Proof. intros H. unfold bind. now rewrite H. Qed.

Lemma silent_ret {A : Type} (a : A) : silent (ret a).
Proof. intros t. reflexivity. Qed.

Lemma silent_raise {A : Type} (e : exn) : silent (@raise A e).
Proof. intros t. reflexivity. Qed.

Lemma silent_bind {A B : Type} (c : M A) (k : A -> M B) :
  silent c -> (forall a, silent (k a)) -> silent (bind c k).
Proof.
  intros Hc Hk t. unfold bind. specialize (Hc t).
  destruct (c t) as [[e|a] t']; simpl in *; subst; [reflexivity | apply Hk].
Qed.

Lemma snd_bind_silent {A B : Type} (c : M A) (k : A -> M B) (t : trace) :
  (forall a, silent (k a)) -> snd (bind c k t) = snd (c t).
Proof.
  intros Hk. unfold bind. destruct (c t) as [[e|a] t']; [reflexivity | apply Hk].
Qed.

Lemma silent_try_except {A : Type} (c : M A) (handles : exn -> bool) (h : exn -> M A) :
  silent c -> (forall e, silent (h e)) -> silent (try_except c handles h).
Proof.
  intros Hc Hh t. unfold try_except. specialize (Hc t).
  destruct (c t) as [[e|a] t']; simpl in *; subst; [|reflexivity].
  destruct (handles e); [apply Hh | reflexivity].
Qed.

Lemma silent_py_in (k : string) (v : value) : silent (py_in k v).
Proof. destruct v; intros t; reflexivity. Qed.

Lemma silent_py_item (v : value) (k : string) : silent (py_item v k).
Proof.
  destruct v; intros t; try reflexivity.
  simpl. destruct (dict_get k entries); reflexivity.
Qed.

Lemma silent_py_get (v : value) (k : string) (default : value) :
  silent (py_get v k default).
Proof.
  destruct v; intros t; try reflexivity.
  simpl. destruct (dict_get k entries); reflexivity.
Qed.

Lemma silent_resp_json (resp : response) : silent (resp_json resp).
Proof. unfold resp_json. destruct (body resp); intros t; reflexivity. Qed.

Lemma silent_raise_for_status (resp : response) : silent (raise_for_status resp).
Proof.
  unfold raise_for_status.
  destruct ((200 <=? status_code resp)%Z && (status_code resp <=? 299)%Z);
    intros t; reflexivity.
Qed.

Lemma silent_loads (s : string) : silent (loads s).
Proof. unfold loads. destruct (json_loads s); intros t; reflexivity. Qed.

Lemma silent_dict_update (d : dict) (other : value) : silent (dict_update d other).
Proof.
  destruct other; intros t; try reflexivity; simpl.
  - destruct s; reflexivity.
  - destruct (update_pairs 0 d items); reflexivity.
Qed.

Lemma silent_user_token : silent _user_token.
Proof.
  unfold _user_token.
  destruct (negb (truthy (VStr (environ_get "META_SYSTEM_USER_TOKEN" EmptyString))));
    intros t; reflexivity.
Qed.

Lemma silent_app_token : silent _app_token.
Proof.
  unfold _app_token.
  destruct (truthy (VStr (environ_get "META_APP_ID" EmptyString))
            && truthy (VStr (environ_get "META_APP_SECRET" EmptyString)));
    intros t; reflexivity.
Qed.

Lemma silent_page_tokens : silent _page_tokens.
Proof.
  unfold _page_tokens. apply silent_try_except.
  - apply silent_loads.
  - intros e. apply silent_ret.
Qed.

(** The response normalization the three primitives share sends nothing. *)
Lemma silent_normalize (resp : response) :
  silent (data <- resp_json resp ;;
          has_error <- py_in "error" data ;;
          if has_error : bool then
            err <- py_item data "error" ;;
            msg <- py_get err "message" (VStr (py_str err)) ;;
            ret (VDict [("error", msg)])
          else ret data).
Proof.
  apply silent_bind; [apply silent_resp_json|]. intros data.
  apply silent_bind; [apply silent_py_in|]. intros [|]; [|apply silent_ret].
  apply silent_bind; [apply silent_py_item|]. intros err.
  apply silent_bind; [apply silent_py_get|]. intros msg. apply silent_ret.
Qed.

(** A request followed by steps that send nothing leaves exactly that
    request behind, whatever the answer. *)
Lemma send_then_silent {A : Type} (r : request) (k : response -> M A) (t : trace) :
  (forall resp, silent (k resp)) ->
  snd (bind (send r) k t) = (t ++ [r])%list.
Proof.
  intros Hk. unfold bind, send.
  destruct (remote t r) as [msg|resp]; [reflexivity | apply Hk].
Qed.

Lemma perform_trace (p : primitive) (token : value) (t : trace) :
  snd (perform p token t) = (t ++ [request_of p token])%list.
Proof.
  destruct p; simpl; unfold _graph_get, _graph_post, _graph_delete;
    apply send_then_silent; intros resp; apply silent_normalize.
Qed.

(** ** The primitives *)

(** C8.  Whatever mapping the caller gives, the read primitive sends one
    GET request whose query is the caller's mapping with [access_token]
    set to the credential: a value the caller gave under that name is
    replaced, every other parameter is the caller's.  The write primitive
    does the same with the form-encoded body of its POST request. *)
Theorem credential_overwrites_access_token :
  forall (endpoint : string) (given_params : dict) (token : value) (t : trace),
    (exists r,
        snd (_graph_get endpoint given_params token t) = (t ++ [r])%list
        /\ req_verb r = GET
        /\ req_url r = GRAPH_API_BASE ++ "/" ++ endpoint
        /\ req_params r = dict_set "access_token" token given_params
        /\ dict_get "access_token" (req_params r) = Some token
        /\ (forall k, k <> "access_token" ->
                      dict_get k (req_params r) = dict_get k given_params)
        /\ (In "access_token" (keys given_params) ->
            keys (req_params r) = keys given_params))
    /\ (exists r,
        snd (_graph_post endpoint given_params token t) = (t ++ [r])%list
        /\ req_verb r = POST
        /\ req_url r = GRAPH_API_BASE ++ "/" ++ endpoint
        /\ req_data r = dict_set "access_token" token given_params
        /\ dict_get "access_token" (req_data r) = Some token
        /\ (forall k, k <> "access_token" ->
                      dict_get k (req_data r) = dict_get k given_params)
        /\ (In "access_token" (keys given_params) ->
            keys (req_data r) = keys given_params)).
Proof.
  intros endpoint given_params token t. split.
  - exists (request_of (Read endpoint given_params) token).
    split; [exact (perform_trace (Read endpoint given_params) token t)|].
    simpl. repeat split.
    + apply dict_get_set_same.
    + intros k Hk. apply dict_get_set_other. congruence.
    + apply keys_dict_set_in.
  - exists (request_of (Write endpoint given_params) token).
    split; [exact (perform_trace (Write endpoint given_params) token t)|].
    simpl. repeat split.
    + apply dict_get_set_same.
    + intros k Hk. apply dict_get_set_other. congruence.
    + apply keys_dict_set_in.
Qed.

Lemma perform_answer (p : primitive) (token : value) (t : trace) (resp : response) :
  remote t (request_of p token) = Arrived resp ->
  perform p token t =
  (data <- resp_json resp ;;
   has_error <- py_in "error" data ;;
   if has_error : bool then
     err <- py_item data "error" ;;
     msg <- py_get err "message" (VStr (py_str err)) ;;
     ret (VDict [("error", msg)])
   else ret data) (t ++ [request_of p token])%list.
Proof.
  intros H.
  destruct p; unfold perform, _graph_get, _graph_post, _graph_delete;
    unfold request_of in *;
    (erewrite bind_inr; [reflexivity|]); unfold send; now rewrite H.
Qed.

Lemma perform_plain (p : primitive) (token : value) (t : trace) (resp : response)
    (d : dict) :
  remote t (request_of p token) = Arrived resp ->
  body resp = inr (VDict d) ->
  dict_get "error" d = None ->
  perform p token t = (inr (VDict d), (t ++ [request_of p token])%list).
Proof.
  intros Hr Hb He. rewrite (perform_answer p token t resp Hr).
  unfold bind, resp_json, py_in, py_item, dict_in, ret. rewrite Hb. cbv beta iota.
  rewrite He. reflexivity.
Qed.

Lemma perform_error_message (p : primitive) (token : value) (t : trace)
    (resp : response) (d e : dict) (msg : value) :
  remote t (request_of p token) = Arrived resp ->
  body resp = inr (VDict d) ->
  dict_get "error" d = Some (VDict e) ->
  dict_get "message" e = Some msg ->
  perform p token t
  = (inr (VDict [("error", msg)]), (t ++ [request_of p token])%list).
Proof.
  intros Hr Hb He Hmsg. rewrite (perform_answer p token t resp Hr).
  unfold bind, resp_json, py_in, py_item, py_get, dict_in, ret. rewrite Hb.
  cbv beta iota. rewrite He. cbv beta iota. rewrite Hmsg. reflexivity.
Qed.

(** A request that gets no decoded body ends in the exception of the
    failure, in a primitive and in an operation that sends it itself. *)
Lemma send_json_failure {A : Type} (r : request) (k : value -> M A) (t : trace)
    (e : exn) :
  failure_of (remote t r) = Some e ->
  (resp <- send r ;; data <- resp_json resp ;; k data) t = (inl e, (t ++ [r])%list).
Proof.
  unfold failure_of, bind, send.
  destruct (remote t r) as [msg|resp]; [intros [= <-]; reflexivity|].
  unfold resp_json. destruct (body resp); [intros [= <-]; reflexivity | discriminate].
Qed.

Lemma perform_failure (p : primitive) (token : value) (t : trace) (e : exn) :
  failure_of (remote t (request_of p token)) = Some e ->
  perform p token t = (inl e, (t ++ [request_of p token])%list).
Proof.
  destruct p; cbn [perform request_of]; unfold _graph_get, _graph_post, _graph_delete;
    apply send_json_failure.
Qed.

(** What [repr] writes for a simple text. *)
Lemma repr_simple_char (c : ascii) :
  simple_char c = true -> repr_char "'" c = String c EmptyString.
Proof.
  destruct c as [[|] [|] [|] [|] [|] [|] [|] [|]]; intros H; vm_compute in H;
    try discriminate H; reflexivity.
Qed.

Lemma repr_simple_chars (s : string) :
  simple_text s = true -> repr_chars "'" s = s.
Proof.
  induction s as [|c s IH]; cbn [simple_text repr_chars]; [reflexivity|].
  intros H. apply andb_true_iff in H. destruct H as [Hc Hs].
  rewrite (repr_simple_char c Hc), (IH Hs). reflexivity.
Qed.

Lemma simple_has_no_quote (s : string) :
  simple_text s = true -> str_contains "'" s = false.
Proof.
  induction s as [|c s IH]; cbn [simple_text]; [reflexivity|].
  intros H. apply andb_true_iff in H. destruct H as [Hc Hs].
  cbn [str_contains String.prefix]. destruct (ascii_dec "'" c) as [<-|_].
  - discriminate Hc.
  - exact (IH Hs).
Qed.

Lemma repr_simple (s : string) :
  simple_text s = true -> repr_str s = String "'" (s ++ "'").
Proof.
  intros H. unfold repr_str. rewrite (simple_has_no_quote s H). cbn [andb].
  now rewrite (repr_simple_chars s H).
Qed.

Lemma str_of_two_entries (k1 s k2 : string) (n : Z) :
  simple_text k1 = true -> simple_text s = true -> simple_text k2 = true ->
  py_str (VDict [(k1, VStr s); (k2, VInt n)])
  = "{'" ++ k1 ++ "': '" ++ s ++ "', '" ++ k2 ++ "': " ++ str_int n ++ "}".
Proof.
  intros H1 Hs H2. unfold py_str, py_repr. cbn [map join fst snd].
  rewrite (repr_simple k1 H1), (repr_simple s Hs), (repr_simple k2 H2).
  repeat (progress (rewrite ?append_assoc; cbn [append])). reflexivity.
Qed.


(** ** The credential resolver *)

Lemma page_token_lookup (page_id : string) (m : dict) (t : trace) :
  _page_tokens t = (inr (VDict m), t) ->
  _page_token page_id t =
  match dict_get page_id m with
  | Some tok => if truthy tok then (inr tok, t) else _exchange_page_token page_id t
  | None => _exchange_page_token page_id t
  end.
Proof.
  intros H. unfold _page_token. rewrite (bind_inr _ _ _ _ _ H).
  unfold bind, py_get, ret. destruct (dict_get page_id m) as [tok|]; [|reflexivity].
  destruct (truthy tok); reflexivity.
Qed.

(** C5, as the code has it.  When the static map gives the page id a
    token that is not empty, resolving the page credential returns that
    token and sends no request.  When it gives the page id an empty
    value (the empty string, [null], anything Python takes for false),
    the key counts as absent: the resolution is the token exchange, the
    same computation as for a page id the map does not hold. *)
Theorem mapped_page_token_needs_no_exchange :
  forall (page_id : string) (m : dict) (t : trace),
    _page_tokens t = (inr (VDict m), t) ->
    (forall tok,
        dict_get page_id m = Some (VStr tok) ->
        tok <> EmptyString ->
        _page_token page_id t = (inr (VStr tok), t))
    /\ (forall v,
           dict_get page_id m = Some v ->
           truthy v = false ->
           _page_token page_id t = _exchange_page_token page_id t)
    /\ (dict_get page_id m = None ->
        _page_token page_id t = _exchange_page_token page_id t).
Proof.
  intros page_id m t Hm. rewrite (page_token_lookup page_id m t Hm).
  split; [|split].
  - intros tok Hget Htok. rewrite Hget. cbn [truthy].
    apply String.eqb_neq in Htok. now rewrite Htok.
  - intros v Hget Hv. now rewrite Hget, Hv.
  - intros Hget. now rewrite Hget.
Qed.

(** What the exchange does, once the user credential is known. *)
Lemma exchange_unfold (page_id user : string) (t : trace) :
  _user_token t = (inr user, t) ->
  let req := exchange_request page_id user in
  _exchange_page_token page_id t =
  (match remote t req with
   | Unreachable msg => inl (exchange_error page_id msg)
   | Arrived resp =>
       if is_success (status_code resp) then
         match body resp with
         | inl msg => inl (exchange_error page_id msg)
         | inr (VDict d) =>
             match dict_get "access_token" d with
             | Some tok =>
                 if truthy tok then inr tok
                 else inl (exchange_error page_id
                             ("No access_token returned for page " ++ page_id))
             | None => inl (exchange_error page_id
                              ("No access_token returned for page " ++ page_id))
             end
         | inr other =>
             inl (exchange_error page_id
                    ("'" ++ type_name other ++ "' object has no attribute 'get'"))
         end
       else inl (exchange_error page_id (status_error resp))
   end, (t ++ [req])%list).
Proof.
  intros Hu req. unfold _exchange_page_token, try_except.
  rewrite (bind_inr _ _ _ _ _ Hu). fold (exchange_request page_id user). fold req.
  unfold bind at 1. unfold send.
  destruct (remote t req) as [msg|resp]; [reflexivity|].
  unfold bind at 1. unfold raise_for_status, is_success.
  destruct ((200 <=? status_code resp)%Z && (status_code resp <=? 299)%Z);
    [|reflexivity].
  unfold ret, bind at 1. unfold resp_json.
  destruct (body resp) as [msg|data]; [reflexivity|].
  unfold ret, bind, py_get, no_attribute, raise.
  destruct data as [| | | | | |d]; try reflexivity.
  destruct (dict_get "access_token" d) as [tok|]; simpl.
  - destruct (truthy tok); reflexivity.
  - reflexivity.
Qed.

(** Without a user credential the exchange sends nothing and fails. *)
Lemma exchange_without_user (page_id : string) (t : trace) (e : exn) :
  _user_token t = (inl e, t) ->
  _exchange_page_token page_id t = (inl (exchange_error page_id (exn_str e)), t).
Proof.
  intros Hu. unfold _exchange_page_token, try_except.
  rewrite (bind_inl _ _ _ _ _ Hu). reflexivity.
Qed.

(** C6, as the code has it.  For a page id the static map does not
    hold.  With the user credential configured, resolving the page
    credential sends exactly one request: a read of the page entity's
    [access_token] field that carries the user credential.  A successful
    response whose object holds a token that is not empty gives that
    token.  A response without the field, a request that gets no
    response and an error status each end in the error that names the
    page id and the cause.  No result is ever an empty token.  Without
    the user credential nothing is sent, and the resolution ends in the
    same error, whose cause is the missing credential. *)
Theorem unmapped_page_token_is_exchanged :
  forall (page_id : string) (m : dict) (t : trace),
    _page_tokens t = (inr (VDict m), t) ->
    dict_get page_id m = None ->
    (forall user,
        _user_token t = (inr user, t) ->
        let req := exchange_request page_id user in
        snd (_page_token page_id t) = (t ++ [req])%list
        /\ (forall status text d tok,
               remote t req = Arrived (mkResponse status text (inr (VDict d))) ->
               is_success status = true ->
               dict_get "access_token" d = Some (VStr tok) ->
               tok <> EmptyString ->
               fst (_page_token page_id t) = inr (VStr tok))
        /\ (forall status text d,
               remote t req = Arrived (mkResponse status text (inr (VDict d))) ->
               is_success status = true ->
               dict_get "access_token" d = None ->
               fst (_page_token page_id t)
               = inl (exchange_error page_id
                        ("No access_token returned for page " ++ page_id)))
        /\ (forall msg,
               remote t req = Unreachable msg ->
               fst (_page_token page_id t) = inl (exchange_error page_id msg))
        /\ (forall status text payload,
               remote t req = Arrived (mkResponse status text payload) ->
               is_success status = false ->
               fst (_page_token page_id t) = inl (exchange_error page_id text))
        /\ (forall tok,
               fst (_page_token page_id t) = inr tok ->
               tok <> VNone /\ tok <> VStr EmptyString)
        /\ (forall e, fst (_page_token page_id t) = inl e ->
                      exists cause, e = exchange_error page_id cause))
    /\ (forall e,
           _user_token t = (inl e, t) ->
           _page_token page_id t = (inl (exchange_error page_id (exn_str e)), t)).
Proof.
  intros page_id m t Hm Hmiss.
  rewrite (page_token_lookup page_id m t Hm), Hmiss.
  split; [|intros e He; now apply exchange_without_user].
  intros user Hu req.
  rewrite (exchange_unfold page_id user t Hu). fold req. cbn [fst snd].
  split; [reflexivity|].
  split.
  { intros status text d tok H Hs Hd Ht. rewrite H. cbn [status_code body].
    rewrite Hs, Hd. cbn [truthy]. apply String.eqb_neq in Ht. now rewrite Ht. }
  split. { intros status text d H Hs Hd. rewrite H. cbn. now rewrite Hs, Hd. }
  split. { intros msg H. now rewrite H. }
  split. { intros status text payload H Hs. rewrite H. cbn. now rewrite Hs. }
  split.
  - intros tok. destruct (remote t req) as [msg|resp]; [discriminate|].
    destruct (is_success (status_code resp)); [|discriminate].
    destruct (body resp) as [msg|[| | | | | |d]]; try discriminate.
    destruct (dict_get "access_token" d) as [tok'|]; [|discriminate].
    destruct (truthy tok') eqn:Ht; [|discriminate].
    intros [= <-]. split; intros ->; discriminate.
  - intros e. destruct (remote t req) as [msg|resp].
    { intros [= <-]. eauto. }
    destruct (is_success (status_code resp)); [|intros [= <-]; eauto].
    destruct (body resp) as [msg|[| | | | | |d]]; try (intros [= <-]; eauto).
    destruct (dict_get "access_token" d) as [tok'|]; [|intros [= <-]; eauto].
    destruct (truthy tok'); [discriminate | intros [= <-]; eauto].
Qed.

(** ** What a computation sends *)

Lemma sends_silent {A : Type} (P : request -> Prop) (c : M A) :
  silent c -> sends P c.
Proof.
  intros H t. exists []. rewrite H, app_nil_r. split; [reflexivity | constructor].
Qed.

Lemma sends_bind {A B : Type} (P : request -> Prop) (c : M A) (k : A -> M B) :
  sends P c -> (forall a, sends P (k a)) -> sends P (bind c k).
Proof.
  intros Hc Hk t. unfold bind. destruct (Hc t) as (new & Hnew & HP).
  destruct (c t) as [[e|a] t']; simpl in Hnew; subst t'.
  - exists new. now split.
  - destruct (Hk a (t ++ new)%list) as (new' & Hnew' & HP').
    exists (new ++ new')%list. rewrite Hnew', app_assoc. split; [reflexivity|].
    apply Forall_app. now split.
Qed.

Lemma sends_try_except {A : Type} (P : request -> Prop) (c : M A)
    (handles : exn -> bool) (h : exn -> M A) :
  sends P c -> (forall e, sends P (h e)) -> sends P (try_except c handles h).
Proof.
  intros Hc Hh t. unfold try_except. destruct (Hc t) as (new & Hnew & HP).
  destruct (c t) as [[e|a] t']; simpl in Hnew; subst t'.
  - destruct (handles e).
    + destruct (Hh e (t ++ new)%list) as (new' & Hnew' & HP').
      exists (new ++ new')%list. rewrite Hnew', app_assoc. split; [reflexivity|].
      apply Forall_app. now split.
    + exists new. now split.
  - exists new. now split.
Qed.

Lemma sends_send (P : request -> Prop) (r : request) : P r -> sends P (send r).
Proof.
  intros HP t. exists [r]. split; [|now repeat constructor].
  unfold send. destruct (remote t r); reflexivity.
Qed.

Lemma sends_perform (P : request -> Prop) (p : primitive) (token : value) :
  P (request_of p token) -> sends P (perform p token).
Proof.
  intros HP t. exists [request_of p token]. split; [|now repeat constructor].
  apply perform_trace.
Qed.

Lemma sends_exchange (P : request -> Prop) (page_id : string) :
  (forall user, P (exchange_request page_id user)) ->
  sends P (_exchange_page_token page_id).
Proof.
  intros HP. unfold _exchange_page_token. apply sends_try_except.
  - apply sends_bind; [apply sends_silent, silent_user_token|]. intros user.
    apply sends_bind; [apply sends_send, HP|]. intros resp.
    apply sends_silent.
    apply silent_bind; [apply silent_raise_for_status|]. intros _.
    apply silent_bind; [apply silent_resp_json|]. intros data.
    apply silent_bind; [apply silent_py_get|]. intros token.
    destruct (truthy token); [apply silent_ret | apply silent_raise].
  - intros e. apply sends_silent, silent_raise.
Qed.

Lemma sends_page_token (P : request -> Prop) (page_id : string) :
  (forall user, P (exchange_request page_id user)) ->
  sends P (_page_token page_id).
Proof.
  intros HP. unfold _page_token.
  apply sends_bind; [apply sends_silent, silent_page_tokens|]. intros tokens.
  apply sends_bind; [apply sends_silent, silent_py_get|]. intros token.
  destruct (negb (truthy token)); [now apply sends_exchange|].
  apply sends_silent, silent_ret.
Qed.

(** The user credential does not depend on what was sent before. *)
Lemma user_token_anywhere (t t' : trace) (r : exn + string) :
  _user_token t = (r, t) -> _user_token t' = (r, t').
Proof.
  unfold _user_token.
  destruct (negb (truthy (VStr (environ_get "META_SYSTEM_USER_TOKEN" EmptyString))));
    unfold raise, ret; congruence.
Qed.

(** ** The escape hatch *)

(** C9.  With the page selector and no page id (none given, or an empty
    one) the escape hatch returns the document
    [{"error": "page_id is required when token_type='page'"}] and leaves
    the trace as it was: nothing is sent; the result is the same
    under every configuration, so none was read. *)
Theorem page_selector_requires_page_id :
  forall (endpoint method : string) (fields params body : option string) (t : trace),
    meta_graph_api_call endpoint method "page" None fields params body t
    = (inr page_id_required, t)
    /\ meta_graph_api_call endpoint method "page" (Some EmptyString) fields params body t
       = (inr page_id_required, t)
    /\ json_loads page_id_required
       = Some (VDict [("error", VStr "page_id is required when token_type='page'")]).
Proof.
  intros endpoint method fields params body t.
  split; [reflexivity|]. split; [reflexivity|]. vm_compute. reflexivity.
Qed.

Lemma carries_read (endpoint : string) (params : dict) (token : value) :
  carries token (request_of (Read endpoint params) token).
Proof. left. apply dict_get_set_same. Qed.

Lemma carries_write (endpoint : string) (payload : dict) (token : value) :
  carries token (request_of (Write endpoint payload) token).
Proof. right. apply dict_get_set_same. Qed.

Lemma carries_remove (endpoint : string) (token : value) :
  carries token (request_of (Remove endpoint) token).
Proof. left. reflexivity. Qed.

(** ** Listings and their limit *)

Lemma clamp_range (n c : Z) : (1 <= c)%Z -> (1 <= clamp n c <= c)%Z.
Proof. unfold clamp. lia. Qed.

Lemma clamp_fixes (n c : Z) : (1 <= n <= c)%Z -> clamp n c = n.
Proof. unfold clamp. lia. Qed.

Lemma ceiling_positive (op : operation) : (1 <= ceiling op)%Z.
Proof. destruct op; simpl; lia. Qed.

(** The shape every listing has: resolve the credential, read, format. *)
Lemma listing_sends {A : Type} (P : request -> Prop) (cred : M A) (f : A -> value)
    (endpoint : string) (params : dict) :
  sends P cred ->
  (forall token, P (request_of (Read endpoint params) token)) ->
  sends P (token <- cred ;;
           data <- _graph_get endpoint params (f token) ;;
           ret (_fmt data)).
Proof.
  intros Hc HP. apply sends_bind; [exact Hc|]. intros token.
  apply sends_bind; [|intros data; apply sends_silent, silent_ret].
  apply (sends_perform P (Read endpoint params)), HP.
Qed.

Lemma listing_returns {A : Type} (cred : M A) (f : A -> value)
    (endpoint : string) (params : dict) (t : trace) (out : string) :
  fst ((token <- cred ;;
        data <- _graph_get endpoint params (f token) ;;
        ret (_fmt data)) t) = inr out ->
  exists token t',
    cred t = (inr token, t')
    /\ snd ((token <- cred ;;
             data <- _graph_get endpoint params (f token) ;;
             ret (_fmt data)) t)
       = (t' ++ [request_of (Read endpoint params) (f token)])%list.
Proof.
  unfold bind at 1 3. destruct (cred t) as [[e|token] t']; [discriminate|].
  intros _. exists token, t'. split; [reflexivity|].
  rewrite snd_bind_silent by (intros data; apply silent_ret).
  apply (perform_trace (Read endpoint params)).
Qed.

Lemma limit_is_exchange (expected : value) (page_id user : string) :
  limit_is expected (exchange_request page_id user).
Proof. intros v. discriminate. Qed.

Lemma limit_after_token (params : dict) (token : value) :
  dict_get "limit" (dict_set "access_token" token params) = dict_get "limit" params.
Proof. apply dict_get_set_other. discriminate. Qed.

Lemma limit_after_filtering (params : dict) (v : value) :
  dict_get "limit" (dict_set "filtering" v params) = dict_get "limit" params.
Proof. apply dict_get_set_other. discriminate. Qed.

Ltac listing_params :=
  cbn [request_of req_params]; rewrite limit_after_token;
  repeat match goal with
         | |- context [if ?b then _ else _] => destruct b
         end;
  rewrite ?limit_after_filtering; cbn [dict_get String.eqb Ascii.eqb Bool.eqb].

(** The credential step of an operation under the user credential. *)
Lemma user_credential_step (t t' : trace) (token : value) :
  (u <- _user_token ;; ret (VStr u)) t = (inr token, t') ->
  exists user, _user_token t = (inr user, t') /\ token = VStr user.
Proof.
  unfold bind, ret. destruct (_user_token t) as [[e|u] t0]; [discriminate|].
  intros [= <- <-]. now exists u.
Qed.

(** A read and its formatting, the credential in hand: one GET request
    is sent, and an object answered without an [error] member is the
    result. *)
Lemma read_then_format (endpoint : string) (params : dict) (token : value)
    (t : trace) :
  snd ((data <- _graph_get endpoint params token ;; ret (_fmt data)) t)
  = (t ++ [request_of (Read endpoint params) token])%list
  /\ forall status text d,
       remote t (request_of (Read endpoint params) token)
       = Arrived (mkResponse status text (inr (VDict d))) ->
       dict_get "error" d = None ->
       fst ((data <- _graph_get endpoint params token ;; ret (_fmt data)) t)
       = inr (_fmt (VDict d)).
Proof.
  split.
  - rewrite snd_bind_silent by (intros data; apply silent_ret).
    apply (perform_trace (Read endpoint params)).
  - intros status text d Hr He.
    now rewrite (bind_inr _ _ _ _ _
                   (perform_plain (Read endpoint params) token t _ d Hr eq_refl He)).
Qed.

(** C2, as the code has it.  For an operation that takes a limit [n],
    with the ceiling 50 for the Instagram media and the conversations
    listings and 100 for the others: no request of the call has a
    [limit] other than [str(min(max(n, 1), ceiling))]; when the call
    returns, its last request has that limit; whatever [n] is, once the
    credential is resolved the call sends exactly one request, a GET
    with that limit, and an object the remote side answers without an
    [error] member is the result of the call, so no [n] is refused; and
    the value lies between 1 and the ceiling, and is [n] itself when [n]
    does. *)
Theorem limit_is_clamped :
  forall (op : operation) (n : Z) (t : trace),
    limit_arg op = Some n ->
    let expected := VStr (str_int (clamp n (ceiling op))) in
    (exists new,
        snd (run op t) = (t ++ new)%list /\ Forall (limit_is expected) new)
    /\ (forall out,
           fst (run op t) = inr out ->
           exists t' r,
             snd (run op t) = (t' ++ [r])%list
             /\ dict_get "limit" (req_params r) = Some expected)
    /\ (forall c token t',
           credential_of op = Some c ->
           c t = (inr token, t') ->
           exists r,
             snd (run op t) = (t' ++ [r])%list
             /\ req_verb r = GET
             /\ dict_get "limit" (req_params r) = Some expected
             /\ forall status text d,
                  remote t' r = Arrived (mkResponse status text (inr (VDict d))) ->
                  dict_get "error" d = None ->
                  fst (run op t) = inr (_fmt (VDict d)))
    /\ (1 <= clamp n (ceiling op) <= ceiling op)%Z
    /\ ((1 <= n <= ceiling op)%Z -> clamp n (ceiling op) = n).
Proof.
  intros op n t Hop expected.
  split; [|split; [|split;
    [|split; [apply clamp_range, ceiling_positive | apply clamp_fixes]]]];
    [| |
     intros c token t' Hc Hct;
     destruct op; try discriminate; injection Hop as ->; subst expected;
     cbn [credential_of page_of] in Hc; injection Hc as <-;
     try (apply user_credential_step in Hct; destruct Hct as (user & Hct & ->));
     cbn [run ceiling];
     unfold meta_get_page_posts, meta_get_post_comments, meta_get_ad_campaigns,
       meta_get_ad_adsets, meta_get_ads, meta_get_ad_comments, meta_get_ig_media,
       meta_get_ig_comments, meta_get_conversations, meta_get_conversation_messages,
       meta_get_lead_data;
     cbv zeta; rewrite (bind_inr _ _ _ _ _ Hct);
     match goal with
     | |- context [_graph_get ?e ?p ?tk] =>
         destruct (read_then_format e p tk t') as (Htrace & Hresult);
         exists (request_of (Read e p) tk);
         (split; [exact Htrace|]); (split; [reflexivity|]);
         (split; [listing_params; reflexivity | exact Hresult])
     end].
  - revert t.
    change (sends (limit_is expected) (run op)).
    destruct op; try discriminate; injection Hop as ->; subst expected;
      cbn [run ceiling];
      unfold meta_get_page_posts, meta_get_post_comments, meta_get_ad_campaigns,
        meta_get_ad_adsets, meta_get_ads, meta_get_ad_comments, meta_get_ig_media,
        meta_get_ig_comments, meta_get_conversations, meta_get_conversation_messages,
        meta_get_lead_data;
      apply listing_sends;
      try (apply sends_page_token; intros user; apply limit_is_exchange);
      try (apply sends_silent, silent_user_token);
      intros token v; listing_params; congruence.
  - intros out.
    destruct op; try discriminate; injection Hop as ->; subst expected;
      cbn [run ceiling];
      unfold meta_get_page_posts, meta_get_post_comments, meta_get_ad_campaigns,
        meta_get_ad_adsets, meta_get_ads, meta_get_ad_comments, meta_get_ig_media,
        meta_get_ig_comments, meta_get_conversations, meta_get_conversation_messages,
        meta_get_lead_data;
      intros Hout; apply listing_returns in Hout;
      destruct Hout as (token & t' & _ & ->);
      eexists t', _; (split; [reflexivity|]); listing_params; reflexivity.
Qed.

(** ** Decoding what [json.dumps] wrote *)

(** One escaped character is read back as the character. *)
Lemma scan_escape_char (c : ascii) (tail : string) (t r : string) :
  scan_string tail = Some (t, r) ->
  scan_string (escape_char true c ++ tail) = Some (String c t, r).
Proof.
  intros H.
  destruct c as [[|] [|] [|] [|] [|] [|] [|] [|]];
    match goal with
    | |- context [escape_char true ?c] =>
        let e := eval vm_compute in (escape_char true c) in
        change (escape_char true c) with e
    end;
    cbn; rewrite H; reflexivity.
Qed.

Lemma scan_escape (s rest : string) :
  scan_string (escape true s ++ String quote rest) = Some (s, rest).
Proof.
  induction s as [|c s IH]; [reflexivity|].
  cbn [escape]. rewrite append_assoc. now apply scan_escape_char.
Qed.

Lemma scan_encode_string (s rest : string) :
  encode_string true s ++ rest = String quote (escape true s ++ String quote rest).
Proof.
  unfold encode_string. cbn [append]. now rewrite append_assoc.
Qed.


(** The text of a plain object starts with a character that is neither
    blank nor a closing bracket. *)
Lemma dumps_head (v : value) (level : nat) :
  plain v = true ->
  exists c s,
    dumps_at true None level v = String c s
    /\ is_ws c = false /\ Ascii.eqb c "]" = false /\ Ascii.eqb c "}" = false.
Proof.
  destruct v as [|[|]| | |s|[|x xs]|[|e es]]; try discriminate; intros _;
    cbn [dumps_at encode_string break append]; eexists _, _;
    (split; [reflexivity | repeat split]).
Qed.

Lemma skip_ws_head (c : ascii) (s : string) :
  is_ws c = false -> skip_ws (String c s) = String c s.
Proof. intros H. cbn [skip_ws]. now rewrite H. Qed.

Lemma skip_ws_dumps (v : value) (level : nat) (rest : string) :
  plain v = true ->
  skip_ws (dumps_at true None level v ++ rest) = dumps_at true None level v ++ rest.
Proof.
  intros H. destruct (dumps_head v level H) as (c & s & -> & Hws & _).
  now apply skip_ws_head.
Qed.

(** The steps of the decoder, one lemma each. *)
Lemma scan_open_list (f : nat) (c : ascii) (s : string) :
  is_ws c = false -> Ascii.eqb c "]" = false ->
  scan_value (S f) (String "[" (String c s)) =
  match scan_items f (String c s) with
  | Some (items, r) => Some (VList items, r)
  | None => None
  end.
Proof.
  intros Hws Hc. cbn [scan_value Ascii.eqb Bool.eqb quote].
  rewrite (skip_ws_head c s Hws), Hc. reflexivity.
Qed.

Lemma scan_open_dict (f : nat) (s : string) :
  scan_value (S f) (String "{" (String quote s)) =
  match scan_members f (String quote s) with
  | Some (pairs, r) => Some (VDict (dict_merge [] pairs), r)
  | None => None
  end.
Proof. reflexivity. Qed.

Lemma scan_open_dict_at (f : nat) (members : string) :
  (exists s, members = String quote s) ->
  scan_value (S f) (String "{" members) =
  match scan_members f members with
  | Some (pairs, r) => Some (VDict (dict_merge [] pairs), r)
  | None => None
  end.
Proof. intros [s ->]. apply scan_open_dict. Qed.

Lemma scan_items_last (f : nat) (s rest : string) (v : value) :
  scan_value f s = Some (v, String "]" rest) ->
  scan_items (S f) s = Some ([v], rest).
Proof. intros H. cbn [scan_items]. rewrite H. reflexivity. Qed.

Lemma scan_items_more (f : nat) (s s' r : string) (v : value) (vs : list value) :
  scan_value f s = Some (v, String "," (String " " s')) ->
  skip_ws s' = s' ->
  scan_items f s' = Some (vs, r) ->
  scan_items (S f) s = Some (v :: vs, r).
Proof.
  intros H Hs H'. cbn [scan_items]. rewrite H.
  change (skip_ws (String "," (String " " s'))) with (String "," (String " " s')).
  cbn [Ascii.eqb Bool.eqb].
  change (skip_ws (String " " s')) with (skip_ws s').
  rewrite Hs, H'. reflexivity.
Qed.

Lemma scan_members_key (f : nat) (k s : string) :
  skip_ws s = s ->
  scan_members (S f) (encode_string true k ++ ": " ++ s) =
  match scan_value f s with
  | None => None
  | Some (v, r) =>
      match skip_ws r with
      | EmptyString => None
      | String c rest' =>
          if Ascii.eqb c "}" then Some ([(k, v)], rest')
          else if Ascii.eqb c "," then
            match scan_members f (skip_ws rest') with
            | Some (kvs, r') => Some ((k, v) :: kvs, r')
            | None => None
            end
          else None
      end
  end.
Proof.
  intros Hs. rewrite scan_encode_string.
  cbn [scan_members Ascii.eqb Bool.eqb quote]. rewrite scan_escape.
  cbn [append].
  change (skip_ws (String ":" (String " " s))) with (String ":" (String " " s)).
  cbn [Ascii.eqb Bool.eqb].
  change (skip_ws (String " " s)) with (skip_ws s).
  rewrite Hs. reflexivity.
Qed.

Lemma scan_members_last (f : nat) (k s rest : string) (v : value) :
  skip_ws s = s ->
  scan_value f s = Some (v, String "}" rest) ->
  scan_members (S f) (encode_string true k ++ ": " ++ s) = Some ([(k, v)], rest).
Proof.
  intros Hs H. rewrite (scan_members_key f k s Hs), H. reflexivity.
Qed.

Lemma scan_members_more (f : nat) (k s s' r : string) (v : value)
    (kvs : list (string * value)) :
  skip_ws s = s ->
  scan_value f s = Some (v, String "," (String " " s')) ->
  skip_ws s' = s' ->
  scan_members f s' = Some (kvs, r) ->
  scan_members (S f) (encode_string true k ++ ": " ++ s) = Some ((k, v) :: kvs, r).
Proof.
  intros Hs H Hs' H'. rewrite (scan_members_key f k s Hs), H.
  change (skip_ws (String "," (String " " s'))) with (String "," (String " " s')).
  cbn [Ascii.eqb Bool.eqb].
  change (skip_ws (String " " s')) with (skip_ws s').
  rewrite Hs', H'. reflexivity.
Qed.

(** A dict without a repeated key is what [json.loads] rebuilds from its
    own entries. *)
Lemma distinct_NoDup (l : list string) : distinct l = true -> NoDup l.
Proof.
  induction l as [|x l IH]; cbn [distinct]; intros H; [constructor|].
  apply andb_true_iff in H. destruct H as [Hx Hl]. constructor; [|now apply IH].
  intros Hin. apply negb_true_iff in Hx.
  assert (existsb (String.eqb x) l = true) as Hex
      by (apply existsb_exists; exists x; split; [exact Hin | apply String.eqb_refl]).
  congruence.
Qed.

Lemma dict_set_fresh (k : string) (v : value) (d : dict) :
  ~ In k (keys d) -> dict_set k v d = (d ++ [(k, v)])%list.
Proof.
  induction d as [|[k' v'] d IH]; cbn [dict_set keys map fst app In]; intros H;
    [reflexivity|].
  destruct (String.eqb k k') eqn:E.
  - apply String.eqb_eq in E. subst. tauto.
  - f_equal. apply IH. cbn [keys] in *. tauto.
Qed.

Lemma dict_merge_fresh (d acc : dict) :
  NoDup (keys d) -> (forall k, In k (keys d) -> ~ In k (keys acc)) ->
  dict_merge acc d = (acc ++ d)%list.
Proof.
  revert acc. induction d as [|[k v] d IH]; intros acc Hnd Hfresh.
  - cbn. now rewrite app_nil_r.
  - unfold dict_merge in *. cbn [fold_left fst snd].
    rewrite dict_set_fresh by (apply Hfresh; now left).
    cbn [keys map fst] in Hnd. inversion Hnd as [|? ? Hk Hd]; subst.
    rewrite IH.
    + now rewrite <- app_assoc.
    + exact Hd.
    + intros k' Hk'. unfold keys. rewrite map_app, in_app_iff.
      intros [Hin|[<-|[]]].
      * apply (Hfresh k'); [now right | exact Hin].
      * contradiction.
Qed.

Lemma dict_merge_distinct (d : dict) :
  distinct (keys d) = true -> dict_merge [] d = d.
Proof.
  intros H. apply (dict_merge_fresh d []); [now apply distinct_NoDup | intros k _ []].
Qed.

Lemma join_followed (g : value -> string) (x : value) (xs : list value) (R : string) :
  join ", " (map g (x :: xs)) ++ R =
  g x ++ match xs with
         | [] => R
         | _ :: _ => String "," (String " " (join ", " (map g xs) ++ R))
         end.
Proof.
  destruct xs as [|y ys]; cbn [map join]; [reflexivity|].
  rewrite !append_assoc. reflexivity.
Qed.

Lemma join_entries_followed (g : string * value -> string) (e : string * value)
    (es : list (string * value)) (R : string) :
  join ", " (map g (e :: es)) ++ R =
  g e ++ match es with
         | [] => R
         | _ :: _ => String "," (String " " (join ", " (map g es) ++ R))
         end.
Proof.
  destruct es as [|y ys]; cbn [map join]; [reflexivity|].
  rewrite !append_assoc. reflexivity.
Qed.

Lemma dumps_list_text (x : value) (xs : list value) (level : nat) (rest : string) :
  dumps_at true None level (VList (x :: xs)) ++ rest =
  String "[" (join ", " (map (dumps_at true None (S level)) (x :: xs))
              ++ String "]" rest).
Proof.
  cbn [dumps_at break item_separator]. cbn [append]. now rewrite append_assoc.
Qed.

Lemma dumps_dict_text (e : string * value) (es : list (string * value))
    (level : nat) (rest : string) :
  dumps_at true None level (VDict (e :: es)) ++ rest =
  String "{" (join ", " (map (entry_text (S level)) (e :: es)) ++ String "}" rest).
Proof.
  cbn [dumps_at break item_separator]. cbn [append]. now rewrite append_assoc.
Qed.

Lemma need_positive (v : value) : (1 <= need v)%nat.
Proof. destruct v; cbn [need]; lia. Qed.

(** With enough fuel, the decoder reads the text of a plain object back
    as that object and stops right after it. *)
Lemma scan_dumps (fuel : nat) :
  (forall v level rest,
      plain v = true -> (need v <= fuel)%nat ->
      scan_value fuel (dumps_at true None level v ++ rest) = Some (v, rest))
  /\ (forall x xs level rest,
         forallb plain (x :: xs) = true -> (need_items (x :: xs) <= fuel)%nat ->
         scan_items fuel
           (join ", " (map (dumps_at true None level) (x :: xs)) ++ String "]" rest)
         = Some (x :: xs, rest))
  /\ (forall e es level rest,
         forallb (fun kv => plain (snd kv)) (e :: es) = true ->
         (need_entries (e :: es) <= fuel)%nat ->
         scan_members fuel
           (join ", " (map (entry_text level) (e :: es)) ++ String "}" rest)
         = Some (e :: es, rest)).
Proof.
  induction fuel as [|f (IHv & IHi & IHm)].
  - split; [|split].
    + intros v level rest _ H. pose proof (need_positive v). lia.
    + intros x xs level rest _ H. cbn [need_items fold_right] in H. lia.
    + intros e es level rest _ H. cbn [need_entries fold_right] in H. lia.
  - split; [|split].
    + intros v level rest Hp Hn.
      destruct v as [|[|]| | |s|[|x xs]|[|e es]]; try discriminate; try reflexivity.
      * cbn [dumps_at]. rewrite scan_encode_string.
        cbn [scan_value Ascii.eqb Bool.eqb quote]. now rewrite scan_escape.
      * rewrite dumps_list_text. cbn [plain] in Hp.
        assert (plain x = true) as Hx
            by (cbn [forallb] in Hp; now apply andb_true_iff in Hp).
        rewrite join_followed.
        destruct (dumps_head x (S level) Hx) as (c & s' & Hc & Hws & Hclose & _).
        rewrite Hc. cbn [append]. rewrite (scan_open_list f c _ Hws Hclose).
        change (String c (s' ++ ?R)) with (String c s' ++ R). rewrite <- Hc.
        rewrite <- join_followed. rewrite IHi; [reflexivity | exact Hp|].
        cbn [need] in Hn. unfold need_items. lia.
      * rewrite dumps_dict_text. cbn [plain] in Hp.
        apply andb_true_iff in Hp. destruct Hp as [Hp Hd].
        rewrite scan_open_dict_at.
        -- rewrite IHm; [|exact Hp|].
           ++ now rewrite (dict_merge_distinct (e :: es) Hd).
           ++ cbn [need] in Hn. unfold need_entries. lia.
        -- rewrite join_entries_followed. unfold entry_text at 1.
           unfold encode_string. cbn [append]. eexists. reflexivity.
    + intros x xs level rest Hp Hn. rewrite join_followed.
      cbn [forallb] in Hp. apply andb_true_iff in Hp. destruct Hp as [Hx Hxs].
      cbn [need_items fold_right] in Hn. fold (need_items xs) in Hn.
      destruct xs as [|y ys].
      * apply scan_items_last. apply IHv; [exact Hx | lia].
      * eapply scan_items_more.
        -- apply IHv; [exact Hx | lia].
        -- rewrite join_followed. apply skip_ws_dumps.
           cbn [forallb] in Hxs. now apply andb_true_iff in Hxs.
        -- apply IHi; [exact Hxs | lia].
    + intros [k v] es level rest Hp Hn. rewrite join_entries_followed.
      cbn [forallb snd] in Hp. apply andb_true_iff in Hp. destruct Hp as [He Hes].
      cbn [need_entries fold_right snd] in Hn. fold (need_entries es) in Hn.
      unfold entry_text at 1. cbn [fst snd]. rewrite !append_assoc.
      destruct es as [|y ys].
      * apply scan_members_last; [now apply skip_ws_dumps|].
        apply IHv; [exact He | lia].
      * eapply scan_members_more.
        -- now apply skip_ws_dumps.
        -- apply IHv; [exact He | lia].
        -- rewrite join_entries_followed. unfold entry_text at 1.
           unfold encode_string. reflexivity.
        -- apply IHm; [exact Hes | lia].
Qed.

(** The text is longer than the fuel its object needs. *)
Lemma need_below_length (n : nat) :
  forall v level,
    (need v <= n)%nat -> plain v = true ->
    (S (need v) <= String.length (dumps_at true None level v))%nat.
Proof.
  induction n as [|n IH]; intros v level Hn Hp.
  { pose proof (need_positive v). lia. }
  destruct v as [|[|]| | |s|items|entries]; try discriminate;
    try (cbn; lia).
  - cbn [dumps_at]. unfold encode_string. cbn [String.length need].
    rewrite length_append. cbn [String.length]. lia.
  - cbn [need] in Hn. fold (need_items items) in Hn. cbn [plain] in Hp.
    assert (forall l, (need_items l <= n)%nat -> forallb plain l = true -> l <> [] ->
                      (need_items l <=
                       String.length (join ", " (map (dumps_at true None (S level)) l)))%nat)
      as Hitems.
    { induction l as [|x l IHl]; intros Hl Hpl Hne; [congruence|].
      cbn [need_items fold_right] in Hl. fold (need_items l) in Hl.
      cbn [forallb] in Hpl. apply andb_true_iff in Hpl. destruct Hpl as [Hx Hpl].
      assert (S (need x) <= String.length (dumps_at true None (S level) x))%nat
        as Hbx by (apply IH; [lia | exact Hx]).
      cbn [need_items fold_right]. fold (need_items l).
      destruct l as [|y l].
      - cbn [map join need_items fold_right]. lia.
      - assert (need_items (y :: l) <=
                String.length (join ", " (map (dumps_at true None (S level)) (y :: l))))%nat
          as Hrest by (apply IHl; [lia | exact Hpl | discriminate]).
        change (join ", " (map (dumps_at true None (S level)) (x :: y :: l)))
          with (dumps_at true None (S level) x ++ ", "
                ++ join ", " (map (dumps_at true None (S level)) (y :: l))).
        rewrite !length_append. cbn [String.length]. lia. }
    destruct items as [|x xs]; [cbn; lia|].
    specialize (Hitems (x :: xs)).
    cbn [need]. fold (need_items (x :: xs)).
    cbn [dumps_at break item_separator]. cbn [append String.length].
    rewrite length_append. cbn [String.length].
    assert (need_items (x :: xs) <= n)%nat by lia.
    specialize (Hitems H Hp). assert (x :: xs <> []) as Hne by discriminate.
    specialize (Hitems Hne). lia.
  - cbn [need] in Hn. fold (need_entries entries) in Hn. cbn [plain] in Hp.
    apply andb_true_iff in Hp. destruct Hp as [Hp _].
    assert (forall l, (need_entries l <= n)%nat ->
                      forallb (fun kv => plain (snd kv)) l = true -> l <> [] ->
                      (need_entries l <=
                       String.length (join ", " (map (entry_text (S level)) l)))%nat)
      as Hentries.
    { induction l as [|e l IHl]; intros Hl Hpl Hne; [congruence|].
      cbn [need_entries fold_right] in Hl. fold (need_entries l) in Hl.
      cbn [forallb] in Hpl. apply andb_true_iff in Hpl. destruct Hpl as [He Hpl].
      assert (S (need (snd e))
              <= String.length (dumps_at true None (S level) (snd e)))%nat
        as Hbe by (apply IH; [lia | exact He]).
      assert (S (need (snd e)) <= String.length (entry_text (S level) e))%nat as Hbt.
      { unfold entry_text. rewrite !length_append. lia. }
      cbn [need_entries fold_right]. fold (need_entries l).
      destruct l as [|y l].
      - cbn [map join need_entries fold_right]. lia.
      - assert (need_entries (y :: l) <=
                String.length (join ", " (map (entry_text (S level)) (y :: l))))%nat
          as Hrest by (apply IHl; [lia | exact Hpl | discriminate]).
        change (join ", " (map (entry_text (S level)) (e :: y :: l)))
          with (entry_text (S level) e ++ ", "
                ++ join ", " (map (entry_text (S level)) (y :: l))).
        rewrite !length_append. cbn [String.length]. lia. }
    destruct entries as [|e es]; [cbn; lia|].
    specialize (Hentries (e :: es)).
    cbn [need]. fold (need_entries (e :: es)).
    rewrite <- (append_nil_r (dumps_at true None level (VDict (e :: es)))).
    rewrite dumps_dict_text. cbn [String.length].
    rewrite length_append. cbn [String.length].
    assert (need_entries (e :: es) <= n)%nat by lia.
    specialize (Hentries H Hp). assert (e :: es <> []) as Hne by discriminate.
    specialize (Hentries Hne). lia.
Qed.

(** [json.loads(json.dumps(v))] is [v] for a plain object [v]. *)
Lemma loads_dumps (v : value) : plain v = true -> json_loads (json_dumps v) = Some v.
Proof.
  intros Hp. unfold json_loads, json_dumps.
  pose proof (skip_ws_dumps v 0 EmptyString Hp) as Hws.
  rewrite append_nil_r in Hws. rewrite Hws.
  pose proof (need_below_length (need v) v 0 (Nat.le_refl _) Hp) as Hlen.
  destruct (scan_dumps (S (String.length (dumps_at true None 0 v)))) as (Hv & _ & _).
  specialize (Hv v 0%nat EmptyString Hp). rewrite append_nil_r in Hv.
  rewrite Hv by lia. reflexivity.
Qed.

(** ** Filters *)

Lemma upper_char_A (c : ascii) :
  Ascii.eqb (upper_char c) "A" = Ascii.eqb (lower_char c) "a".
Proof. destruct c as [[|] [|] [|] [|] [|] [|] [|] [|]]; reflexivity. Qed.

Lemma upper_char_L (c : ascii) :
  Ascii.eqb (upper_char c) "L" = Ascii.eqb (lower_char c) "l".
Proof. destruct c as [[|] [|] [|] [|] [|] [|] [|] [|]]; reflexivity. Qed.

(** The test the code makes, [status_filter.upper() != "ALL"], is the
    comparison with ["all"] that ignores case. *)
Lemma upper_is_ALL (s : string) : String.eqb (upper s) "ALL" = caseless_all s.
Proof.
  unfold caseless_all.
  destruct s as [|a [|b [|c [|d s]]]]; try reflexivity;
    repeat match goal with
           | |- context [upper (String ?x ?r)] =>
               change (upper (String x r)) with (String (upper_char x) (upper r))
           end;
    change (upper EmptyString) with EmptyString;
    cbn [lower String.eqb]; rewrite upper_char_A, ?upper_char_L;
    destruct (Ascii.eqb (lower_char a) "a"); try reflexivity;
    destruct (Ascii.eqb (lower_char b) "l"); try reflexivity;
    destruct (Ascii.eqb (lower_char c) "l"); reflexivity.
Qed.

Lemma plain_filter_clauses (op : operation) (status_filter : string) :
  plain (VList (filter_clauses op status_filter)) = true.
Proof.
  cbn [plain]. unfold filter_clauses. rewrite forallb_app. apply andb_true_iff. split.
  - destruct (caseless_all status_filter); reflexivity.
  - generalize (identity_args op). intros args.
    induction args as [|[field [id|]] args IH]; cbn [identity_clauses];
      [reflexivity | | assumption].
    destruct (String.eqb id ""); [assumption|].
    cbn [forallb]. now rewrite IH.
Qed.

(** What an operation authorized by the user credential sends. *)
Lemma user_read_trace (endpoint : string) (params : dict) (user : string) (t : trace) :
  _user_token t = (inr user, t) ->
  snd ((token <- _user_token ;;
        data <- _graph_get endpoint params (VStr token) ;;
        ret (_fmt data)) t)
  = (t ++ [request_of (Read endpoint params) (VStr user)])%list.
Proof.
  intros Hu. rewrite (bind_inr _ _ _ _ _ Hu).
  rewrite snd_bind_silent by (intros data; apply silent_ret).
  apply (perform_trace (Read endpoint params)).
Qed.

Lemma filtering_after_token (params : dict) (token : value) :
  dict_get "filtering" (dict_set "access_token" token params)
  = dict_get "filtering" params.
Proof. apply dict_get_set_other. discriminate. Qed.

(** The parameters of the three filtered listings, in terms of
    [filter_clauses]. *)
Lemma filtered_request (op : operation) (status_filter user : string) (t : trace) :
  status_arg op = Some status_filter ->
  _user_token t = (inr user, t) ->
  exists r,
    snd (run op t) = (t ++ [r])%list
    /\ dict_get "filtering" (req_params r)
       = match filter_clauses op status_filter with
         | [] => None
         | clauses => Some (VStr (json_dumps (VList clauses)))
         end
    /\ NoDup (keys (req_params r)).
Proof.
  intros Hop Hu.
  destruct op; try discriminate; injection Hop as ->; cbn [run];
    unfold meta_get_ad_campaigns, meta_get_ad_adsets, meta_get_ads;
    rewrite (user_read_trace _ _ user t Hu); eexists; (split; [reflexivity|]);
    cbn [request_of req_params]; rewrite filtering_after_token;
    unfold filter_clauses; cbn [identity_args identity_clauses];
    rewrite upper_is_ALL; fold (status_clause status_filter); unfold clause;
    destruct (caseless_all status_filter); cbn [negb app].
  - split; [reflexivity|]. apply dict_set_NoDup. repeat constructor; cbn; intuition congruence.
  - split; [rewrite dict_get_set_same; reflexivity|].
    apply dict_set_NoDup. apply dict_set_NoDup. repeat constructor; cbn; intuition congruence.
  - destruct campaign_id as [c|]; cbn [truthy];
      [destruct (String.eqb c ""); cbn [negb app truthy]|];
      (split; [try reflexivity; rewrite dict_get_set_same; reflexivity|]);
      repeat apply dict_set_NoDup; repeat constructor; cbn; intuition congruence.
  - destruct campaign_id as [c|]; cbn [truthy];
      [destruct (String.eqb c ""); cbn [negb app truthy]|];
      (split; [try reflexivity; rewrite dict_get_set_same; reflexivity|]);
      repeat apply dict_set_NoDup; repeat constructor; cbn; intuition congruence.
  - destruct campaign_id as [c|]; cbn [truthy];
      [destruct (String.eqb c ""); cbn [negb app truthy]| ];
      (destruct adset_id as [a|]; cbn [truthy];
       [destruct (String.eqb a ""); cbn [negb app truthy]|]);
      (split; [try reflexivity; rewrite dict_get_set_same; reflexivity|]);
      repeat apply dict_set_NoDup; repeat constructor; cbn; intuition congruence.
  - destruct campaign_id as [c|]; cbn [truthy];
      [destruct (String.eqb c ""); cbn [negb app truthy]| ];
      (destruct adset_id as [a|]; cbn [truthy];
       [destruct (String.eqb a ""); cbn [negb app truthy]|]);
      (split; [try reflexivity; rewrite dict_get_set_same; reflexivity|]);
      repeat apply dict_set_NoDup; repeat constructor; cbn; intuition congruence.
Qed.

Lemma no_identity_clauses (args : list (string * option string)) :
  Forall (fun a => given (snd a) = false) args -> identity_clauses args = [].
Proof.
  induction 1 as [|[field [id|]] args Hg _ IH]; cbn [identity_clauses];
    [reflexivity | | assumption].
  cbn [given snd] in Hg. apply negb_false_iff in Hg. now rewrite Hg.
Qed.

(** C3, as the code has it.  For an operation that takes a status
    filter, with the user credential configured, the one request sent
    has these parameters.  When the status is ["all"] in any casing and
    no identity filter is given (none, or empty ones), there is no
    [filtering] key; with an identity filter given, [filtering] decodes
    to the identity clauses alone.  For any other status, [filtering]
    is a text that decodes to an array whose first element is
    [{"field": "effective_status", "operator": "IN", "value": [S]}],
    [S] being the status in upper case. *)
Theorem status_filter_encoding :
  forall (op : operation) (status_filter user : string) (t : trace),
    status_arg op = Some status_filter ->
    _user_token t = (inr user, t) ->
    exists r,
      snd (run op t) = (t ++ [r])%list
      /\ (caseless_all status_filter = true ->
          Forall (fun a => given (snd a) = false) (identity_args op) ->
          dict_get "filtering" (req_params r) = None)
      /\ (caseless_all status_filter = true ->
          identity_clauses (identity_args op) <> [] ->
          exists text,
            dict_get "filtering" (req_params r) = Some (VStr text)
            /\ json_loads text = Some (VList (identity_clauses (identity_args op))))
      /\ (caseless_all status_filter = false ->
          exists text rest,
            dict_get "filtering" (req_params r) = Some (VStr text)
            /\ json_loads text = Some (VList (status_clause status_filter :: rest))).
Proof.
  intros op status_filter user t Hop Hu.
  destruct (filtered_request op status_filter user t Hop Hu) as (r & Ht & Hf & _).
  exists r. split; [exact Ht|]. split; [|split].
  - intros Hall Hnone. rewrite Hf. unfold filter_clauses.
    now rewrite Hall, (no_identity_clauses _ Hnone).
  - intros Hall Hsome. pose proof (plain_filter_clauses op status_filter) as Hp.
    revert Hf Hp. unfold filter_clauses. rewrite Hall. cbn [app].
    destruct (identity_clauses (identity_args op)) as [|c cs]; [congruence|].
    intros Hf Hp. eexists. split; [exact Hf|]. now apply loads_dumps.
  - intros Hother. pose proof (plain_filter_clauses op status_filter) as Hp.
    revert Hf Hp. unfold filter_clauses. rewrite Hother. cbn [app].
    intros Hf Hp. eexists _, _. split; [exact Hf|]. now apply loads_dumps.
Qed.

(** C4, as the code has it.  For the filtered listings, with the user
    credential configured, the one request sent has a single
    [filtering] parameter exactly when some clause applies, and its
    text decodes to the array of [filter_clauses]: the status clause
    first when the status is not ["all"], then an [EQUAL] clause on
    [campaign.id], then one on [adset.id], each for an identity filter
    that is given and not empty.  Identity filters alone, under the
    status ["all"], still give the parameter. *)
Theorem filter_clauses_in_order :
  forall (op : operation) (status_filter user : string) (t : trace),
    status_arg op = Some status_filter ->
    _user_token t = (inr user, t) ->
    exists r,
      snd (run op t) = (t ++ [r])%list
      /\ (filter_clauses op status_filter = [] ->
          dict_get "filtering" (req_params r) = None)
      /\ (filter_clauses op status_filter <> [] ->
          exists text,
            dict_get "filtering" (req_params r) = Some (VStr text)
            /\ json_loads text = Some (VList (filter_clauses op status_filter)))
      /\ (caseless_all status_filter = true ->
          filter_clauses op status_filter = identity_clauses (identity_args op))
      /\ NoDup (keys (req_params r)).
Proof.
  intros op status_filter user t Hop Hu.
  destruct (filtered_request op status_filter user t Hop Hu) as (r & Ht & Hf & Hk).
  exists r. split; [exact Ht|]. split; [|split; [|split; [|exact Hk]]].
  - intros Hnil. now rewrite Hf, Hnil.
  - intros Hne. pose proof (plain_filter_clauses op status_filter) as Hp.
    destruct (filter_clauses op status_filter) as [|c cs]; [congruence|].
    eexists. split; [exact Hf|]. now apply loads_dumps.
  - intros Hall. unfold filter_clauses. now rewrite Hall.
Qed.

(** ** Which errors an operation catches *)

Ltac select_credential H :=
  unfold selects in H; unfold meta_graph_api_call;
  destruct (String.eqb _ "page");
  [ let p := fresh "p" in
    let Hp := fresh "Hp" in
    destruct H as (p & -> & Hp & H); cbn [truthy];
    apply String.eqb_neq in Hp; rewrite Hp; cbn [negb]
  | destruct (String.eqb _ "app");
    [ let a := fresh "a" in destruct H as (a & H & ->)
    | let u := fresh "u" in destruct H as (u & H & ->) ] ];
  rewrite (bind_inr _ _ _ _ _ (bind_inr _ _ _ _ _ H)); unfold ret at 1;
  cbv beta iota.

(** A [params] blob that is not JSON ends the call with an error result. *)
Lemma params_parse_error_is_returned (endpoint method token_type : string)
    (page_id fields body : option string) (p : string)
    (t t' : trace) (token : value) :
  selects token_type page_id t token t' ->
  p <> EmptyString ->
  json_loads p = None ->
  meta_graph_api_call endpoint method token_type page_id fields (Some p) body t
  = (inr (error_result "params must be valid JSON"), t').
Proof.
  intros H Hp Hbad. apply String.eqb_neq in Hp.
  select_credential H; cbn [truthy]; rewrite Hp; cbn [negb];
    unfold try_except, bind, loads; rewrite Hbad; reflexivity.
Qed.

(** The parameters the escape hatch merges, when [params] is an object. *)
Lemma params_object_merged (fields params : option string) :
  params_object params ->
  exists extra : dict,
    forall t,
      match params with
      | Some p =>
          if truthy (VStr p) then
            try_except
              (v <- loads p ;;
               d <- dict_update
                      match fields with
                      | Some f =>
                          if truthy (VStr f) then dict_set "fields" (VStr f) []
                          else []
                      | None => []
                      end v ;;
               ret (inr d))
              is_JSONDecodeError
              (fun _ => ret (inl (_fmt (VDict [("error", VStr "params must be valid JSON")]))))
          else ret (inr
                      match fields with
                      | Some f =>
                          if truthy (VStr f) then dict_set "fields" (VStr f) []
                          else []
                      | None => []
                      end)
      | None => ret (inr
                       match fields with
                       | Some f =>
                           if truthy (VStr f) then dict_set "fields" (VStr f) []
                           else []
                       | None => []
                       end)
      end t = (@inr exn (string + dict) (inr extra), t).
Proof.
  intros H. destruct params as [p|]; [|eexists; reflexivity].
  destruct H as [->|[o Ho]]; [eexists; reflexivity|].
  destruct (truthy (VStr p)); [|eexists; reflexivity].
  eexists. intros t. unfold try_except, bind, loads. rewrite Ho. reflexivity.
Qed.

(** A [body] blob that is not JSON ends a write call with an error result. *)
Lemma body_parse_error_is_returned (endpoint method token_type : string)
    (page_id fields params : option string) (b : string)
    (t t' : trace) (token : value) :
  selects token_type page_id t token t' ->
  params_object params ->
  upper method = "POST" ->
  b <> EmptyString ->
  json_loads b = None ->
  meta_graph_api_call endpoint method token_type page_id fields params (Some b) t
  = (inr (error_result "body must be valid JSON"), t').
Proof.
  intros H Hparams Hm Hb Hbad. apply String.eqb_neq in Hb.
  destruct (params_object_merged fields params Hparams) as (extra & Hextra).
  select_credential H; rewrite (bind_inr _ _ _ _ _ (Hextra _)); cbv beta iota;
    rewrite Hm; change (String.eqb "POST" "GET") with false;
    change (String.eqb "POST" "POST") with true; cbv iota;
    cbn [truthy]; rewrite Hb; cbn [negb];
    unfold try_except, bind, loads; rewrite Hbad; reflexivity.
Qed.

(** A verb other than GET, POST and DELETE ends the call with an error
    result and sends nothing. *)
Lemma unsupported_verb_is_returned (endpoint method token_type : string)
    (page_id fields params body : option string)
    (t t' : trace) (token : value) :
  selects token_type page_id t token t' ->
  params_object params ->
  upper method <> "GET" -> upper method <> "POST" -> upper method <> "DELETE" ->
  meta_graph_api_call endpoint method token_type page_id fields params body t
  = (inr (error_result ("Unsupported method: " ++ method
                        ++ ". Use GET, POST, or DELETE.")), t').
Proof.
  intros H Hparams Hg Hp Hd.
  apply String.eqb_neq in Hg. apply String.eqb_neq in Hp. apply String.eqb_neq in Hd.
  destruct (params_object_merged fields params Hparams) as (extra & Hextra).
  select_credential H; rewrite (bind_inr _ _ _ _ _ (Hextra _)); cbv beta iota;
    rewrite Hg, Hp, Hd; reflexivity.
Qed.

Lemma fails_bind_l {A B : Type} (c : M A) (k : A -> M B) :
  fails c -> fails (bind c k).
Proof.
  intros H t. destruct (H t) as (e & t' & He). exists e, t'.
  now apply bind_inl.
Qed.

Lemma fails_bind_r {A B : Type} (c : M A) (k : A -> M B) :
  (forall a, fails (k a)) -> fails (bind c k).
Proof.
  intros H t. unfold bind. destruct (c t) as [[e|a] t']; [eauto | apply H].
Qed.

Lemma fails_bind_when {A B : Type} (c : M A) (k : A -> M B) (Q : A -> Prop) :
  (forall t a t', c t = (inr a, t') -> Q a) ->
  (forall a, Q a -> fails (k a)) ->
  fails (bind c k).
Proof.
  intros Hc Hk t. unfold bind. destruct (c t) as [[e|a] t'] eqn:E; [eauto|].
  apply Hk. exact (Hc t a t' E).
Qed.

Lemma refuses_bind {A B : Type} (c : M A) (k : A -> M B) :
  refuses c -> refuses (bind c k).
Proof.
  intros H t. destruct (H t) as (msg & He). exists msg. now apply bind_inl.
Qed.

Section NothingConfigured.

Hypothesis no_user : environ_get "META_SYSTEM_USER_TOKEN" EmptyString = EmptyString.
Hypothesis no_pages : environ_get "META_PAGE_TOKENS" "{}" = "{}".
Hypothesis no_app : environ_get "META_APP_ID" EmptyString = EmptyString.

Lemma user_token_unset : refuses _user_token.
Proof. intros t. unfold _user_token. rewrite no_user. eexists. reflexivity. Qed.

Lemma app_token_unset : refuses _app_token.
Proof. intros t. unfold _app_token. rewrite no_app. eexists. reflexivity. Qed.

Lemma page_token_unset (page_id : string) : refuses (_page_token page_id).
Proof.
  intros t.
  assert (_page_tokens t = (inr (VDict []), t)) as Hm
      by (unfold _page_tokens; rewrite no_pages; reflexivity).
  rewrite (page_token_lookup page_id [] t Hm). cbn [dict_get].
  destruct (user_token_unset t) as (msg & Hu).
  rewrite (exchange_without_user page_id t _ Hu). eexists. reflexivity.
Qed.

Lemma unconfigured_escape_hatch_raises (endpoint method token_type : string)
    (page_id fields params body : option string) :
  resolves_credential
    (GraphApiCall endpoint method token_type page_id fields params body) = true ->
  refuses (meta_graph_api_call endpoint method token_type page_id fields params body).
Proof.
  cbn [resolves_credential]. intros Hop. unfold meta_graph_api_call.
  apply refuses_bind. destruct (String.eqb token_type "page").
  - cbn [andb] in Hop. apply negb_true_iff, negb_false_iff in Hop.
    destruct page_id as [p|]; [|discriminate]. cbn [given] in Hop.
    cbn [truthy]. rewrite Hop. cbn [negb]. apply refuses_bind, page_token_unset.
  - destruct (String.eqb token_type "app").
    + apply refuses_bind, app_token_unset.
    + apply refuses_bind, user_token_unset.
Qed.

(** With nothing configured, every operation that resolves a credential
    ends in a [ValueError] that leaves it, before anything is sent. *)
Lemma unconfigured_operation_raises (op : operation) :
  resolves_credential op = true -> refuses (run op).
Proof.
  intros Hop.
  destruct op; try (now apply unconfigured_escape_hatch_raises); cbn [run];
    unfold meta_list_pages, meta_get_page_info, meta_get_page_posts,
      meta_create_page_post, meta_delete_page_post, meta_get_post_comments,
      meta_reply_to_comment, meta_delete_comment, meta_like_comment,
      meta_hide_comment, meta_get_ad_accounts, meta_get_ad_campaigns,
      meta_get_ad_adsets, meta_get_ads, meta_get_ad_creative, meta_get_ad_comments,
      meta_reply_to_ad_comment, meta_hide_ad_comment, meta_delete_ad_comment,
      meta_get_ig_accounts, meta_get_ig_media, meta_get_ig_comments,
      meta_reply_ig_comment, meta_delete_ig_comment, meta_get_conversations,
      meta_get_conversation_messages, meta_send_message, meta_get_lead_forms,
      meta_get_lead_data, meta_get_page_insights, meta_get_post_insights,
      meta_get_page_subscriptions, meta_subscribe_page_webhooks, meta_debug_token;
    apply refuses_bind;
    try apply page_token_unset; try apply user_token_unset.
  destruct (String.eqb token_type "user");
    [apply refuses_bind, user_token_unset|].
  destruct (String.eqb token_type "app");
    [apply refuses_bind, app_token_unset | apply page_token_unset].
Qed.

End NothingConfigured.

Section NoBody.

Hypothesis remote_gives_no_body : forall t r, no_body (remote t r).

Lemma fails_send_json {A : Type} (r : request) (k : value -> M A) :
  fails (resp <- send r ;; data <- resp_json resp ;; k data).
Proof.
  intros t. unfold bind, send. pose proof (remote_gives_no_body t r) as H.
  destruct (remote t r) as [msg|resp]; [eexists _, _; reflexivity|].
  destruct H as [msg Hb]. unfold resp_json. rewrite Hb.
  eexists _, _. reflexivity.
Qed.

Lemma fails_perform (p : primitive) (token : value) : fails (perform p token).
Proof.
  destruct p; cbn [perform]; unfold _graph_get, _graph_post, _graph_delete;
    apply fails_send_json.
Qed.

Lemma fails_read {A : Type} (endpoint : string) (params : dict) (token : value)
    (k : value -> M A) :
  fails (data <- _graph_get endpoint params token ;; k data).
Proof. apply fails_bind_l, (fails_perform (Read endpoint params)). Qed.

Lemma fails_write {A : Type} (endpoint : string) (payload : dict) (token : value)
    (k : value -> M A) :
  fails (data <- _graph_post endpoint payload token ;; k data).
Proof. apply fails_bind_l, (fails_perform (Write endpoint payload)). Qed.

Lemma fails_remove {A : Type} (endpoint : string) (token : value)
    (k : value -> M A) :
  fails (data <- _graph_delete endpoint token ;; k data).
Proof. apply fails_bind_l, (fails_perform (Remove endpoint)). Qed.

Lemma body_object_parsed (body : option string) :
  params_object body ->
  exists payload : dict,
    forall t,
      match body with
      | Some b =>
          if truthy (VStr b) then
            try_except
              (v <- loads b ;; ret (inr v))
              is_JSONDecodeError
              (fun _ => ret (inl (_fmt (VDict [("error", VStr "body must be valid JSON")]))))
          else ret (inr (VDict []))
      | None => ret (inr (VDict []))
      end t = (@inr exn (string + value) (inr (VDict payload)), t).
Proof.
  intros H. destruct body as [b|]; [|eexists; reflexivity].
  destruct H as [->|[o Ho]]; [eexists; reflexivity|].
  destruct (truthy (VStr b)); [|eexists; reflexivity].
  eexists. intros t. unfold try_except, bind, loads. rewrite Ho. reflexivity.
Qed.

Lemma bodiless_escape_hatch_raises (endpoint method token_type : string)
    (page_id fields params body : option string) :
  resolves_credential
    (GraphApiCall endpoint method token_type page_id fields params body) = true ->
  reaches_remote (GraphApiCall endpoint method token_type page_id fields params body) ->
  fails (meta_graph_api_call endpoint method token_type page_id fields params body).
Proof.
  cbn [resolves_credential reaches_remote]. intros Hop (Hparams & Hverb).
  destruct (params_object_merged fields params Hparams) as (extra & Hextra).
  unfold meta_graph_api_call.
  apply (fails_bind_when _ _ (fun r => exists token : value, r = inr token)).
  { intros t r t'. destruct (String.eqb token_type "page").
    - cbn [andb] in Hop. apply negb_true_iff, negb_false_iff in Hop.
      destruct page_id as [p|]; [|discriminate]. cbn [given] in Hop.
      cbn [truthy]. rewrite Hop. cbn [negb]. unfold bind, ret.
      destruct (_page_token p t) as [[e|tok] t0]; intros [= <- <-]; eauto.
    - destruct (String.eqb token_type "app"); unfold bind, ret;
        [destruct (_app_token t) as [[e|tok] t0]
        |destruct (_user_token t) as [[e|tok] t0]];
        intros [= <- <-]; eauto. }
  intros r (token & ->) t. cbv beta iota.
  rewrite (bind_inr _ _ _ _ _ (Hextra t)). cbv beta iota.
  destruct Hverb as [Hm|[Hm|[Hm Hbody]]]; rewrite Hm.
  - change (String.eqb "GET" "GET") with true. cbv iota. apply fails_read.
  - change (String.eqb "DELETE" "GET") with false.
    change (String.eqb "DELETE" "POST") with false.
    change (String.eqb "DELETE" "DELETE") with true. cbv iota. apply fails_remove.
  - change (String.eqb "POST" "GET") with false.
    change (String.eqb "POST" "POST") with true. cbv iota.
    destruct (body_object_parsed body Hbody) as (payload & Hpayload).
    rewrite (bind_inr _ _ _ _ _ (Hpayload t)). cbv beta iota.
    unfold ret at 1. unfold bind at 1. apply fails_write.
Qed.

(** When no request gets a decoded body, every operation that resolves
    a credential and gets as far as its request ends in an exception
    that leaves it. *)
Lemma bodiless_operation_raises (op : operation) :
  resolves_credential op = true -> reaches_remote op -> fails (run op).
Proof.
  intros Hop Hreach.
  destruct op; try (now apply bodiless_escape_hatch_raises); cbn [run];
    unfold meta_list_pages, meta_get_page_info, meta_get_page_posts,
      meta_create_page_post, meta_delete_page_post, meta_get_post_comments,
      meta_reply_to_comment, meta_delete_comment, meta_like_comment,
      meta_hide_comment, meta_get_ad_accounts, meta_get_ad_campaigns,
      meta_get_ad_adsets, meta_get_ads, meta_get_ad_creative, meta_get_ad_comments,
      meta_reply_to_ad_comment, meta_hide_ad_comment, meta_delete_ad_comment,
      meta_get_ig_accounts, meta_get_ig_media, meta_get_ig_comments,
      meta_reply_ig_comment, meta_delete_ig_comment, meta_get_conversations,
      meta_get_conversation_messages, meta_send_message, meta_get_lead_forms,
      meta_get_lead_data, meta_get_page_insights, meta_get_post_insights,
      meta_get_page_subscriptions, meta_subscribe_page_webhooks, meta_debug_token;
    apply fails_bind_r; intros token;
    first [ apply fails_read | apply fails_write | apply fails_remove
          | apply fails_send_json | idtac ].
  apply fails_bind_r. intros app_token. apply fails_read.
Qed.

End NoBody.

(** ** From the credential to the request *)

Lemma bind_ret_fails {A B : Type} (c : M A) (f : A -> B) (t t' : trace) (e : exn) :
  (x <- c ;; ret (f x)) t = (inl e, t') -> c t = (inl e, t').
Proof.
  unfold bind, ret. destruct (c t) as [[e0|a] t0]; [|discriminate].
  now intros [= <- <-].
Qed.

Lemma bind_ret_gives {A B : Type} (c : M A) (f : A -> B) (t t' : trace) (b : B) :
  (x <- c ;; ret (f x)) t = (inr b, t') -> exists a, c t = (inr a, t') /\ b = f a.
Proof.
  unfold bind, ret. destruct (c t) as [[e0|a] t0]; [discriminate|].
  intros [= <- <-]. now exists a.
Qed.

Lemma carries_request_of (p : primitive) (token : value) :
  carries token (request_of p token).
Proof. destruct p; [apply carries_read | apply carries_write | apply carries_remove]. Qed.

(** A primitive and the formatting of what it returns: one request is
    sent, it carries the credential, and a request that gets no decoded
    body ends the whole in the exception of the failure. *)
Lemma primitive_then_format (p : primitive) (token : value) (t : trace) :
  exists r,
    snd ((data <- perform p token ;; ret (_fmt data)) t) = (t ++ [r])%list
    /\ carries token r
    /\ forall e,
         failure_of (remote t r) = Some e ->
         (data <- perform p token ;; ret (_fmt data)) t = (inl e, (t ++ [r])%list).
Proof.
  exists (request_of p token). split; [|split].
  - rewrite snd_bind_silent by (intros data; apply silent_ret). apply perform_trace.
  - apply carries_request_of.
  - intros e He. exact (bind_inl _ _ _ _ _ (perform_failure p token t e He)).
Qed.

(** The same for the request the hide operations send themselves. *)
Lemma request_then_format (r : request) (token : value) (t : trace) :
  carries token r ->
  exists r',
    snd ((resp <- send r ;; data <- resp_json resp ;; ret (_fmt data)) t)
    = (t ++ [r'])%list
    /\ carries token r'
    /\ forall e,
         failure_of (remote t r') = Some e ->
         (resp <- send r ;; data <- resp_json resp ;; ret (_fmt data)) t
         = (inl e, (t ++ [r'])%list).
Proof.
  intros Hc. exists r. split; [|split; [exact Hc|]].
  - apply send_then_silent. intros resp.
    apply silent_bind; [apply silent_resp_json | intros data; apply silent_ret].
  - intros e He. now apply send_json_failure.
Qed.

(** The credential step of the escape hatch is its selector. *)
Lemma credential_selects (endpoint method token_type : string)
    (page_id fields params body : option string) (c : M value)
    (t t' : trace) (token : value) :
  credential_of (GraphApiCall endpoint method token_type page_id fields params body)
  = Some c ->
  c t = (inr token, t') ->
  selects token_type page_id t token t'.
Proof.
  cbn [credential_of]. unfold selects. destruct (String.eqb token_type "page").
  - destruct page_id as [p|]; [|discriminate]. cbn [truthy].
    destruct (String.eqb p EmptyString) eqn:E; cbn [negb]; [discriminate|].
    intros [= <-] Hc. exists p. apply String.eqb_neq in E. now repeat split.
  - destruct (String.eqb token_type "app"); intros [= <-] Hc;
      apply bind_ret_gives in Hc; destruct Hc as (a & Ha & ->); now exists a.
Qed.

(** With its credential resolved, parameters that are absent, empty or
    an object, and a verb it supports (for POST, a body that is absent,
    empty or an object), the escape hatch is one primitive and the
    formatting of what it returns. *)
Lemma escape_hatch_performs (endpoint method token_type : string)
    (page_id fields params body : option string) (token : value) (t t' : trace) :
  selects token_type page_id t token t' ->
  params_object params ->
  upper method = "GET" \/ upper method = "DELETE"
  \/ (upper method = "POST" /\ params_object body) ->
  exists p,
    meta_graph_api_call endpoint method token_type page_id fields params body t
    = (data <- perform p token ;; ret (_fmt data)) t'.
Proof.
  intros H Hparams Hverb.
  destruct (params_object_merged fields params Hparams) as (extra & Hextra).
  assert (forall k : string + dict -> M string,
             (merged <-
                match params with
                | Some p =>
                    if truthy (VStr p) then
                      try_except
                        (v <- loads p ;;
                         d <- dict_update
                                match fields with
                                | Some f =>
                                    if truthy (VStr f) then dict_set "fields" (VStr f) []
                                    else []
                                | None => []
                                end v ;;
                         ret (inr d))
                        is_JSONDecodeError
                        (fun _ => ret (inl (_fmt (VDict [("error",
                                                          VStr "params must be valid JSON")]))))
                    else ret (inr
                                match fields with
                                | Some f =>
                                    if truthy (VStr f) then dict_set "fields" (VStr f) []
                                    else []
                                | None => []
                                end)
                | None => ret (inr
                                 match fields with
                                 | Some f =>
                                     if truthy (VStr f) then dict_set "fields" (VStr f) []
                                     else []
                                 | None => []
                                 end)
                end ;; k merged) t' = k (inr extra) t') as Hmerged
      by (intros k; apply bind_inr, Hextra).
  assert (exists p,
             (if String.eqb (upper method) "GET" then
                data <- _graph_get endpoint extra token ;; ret (_fmt data)
              else if String.eqb (upper method) "POST" then
                parsed <-
                  match body with
                  | Some b =>
                      if truthy (VStr b) then
                        try_except
                          (v <- loads b ;; ret (inr v))
                          is_JSONDecodeError
                          (fun _ => ret (inl (_fmt (VDict [("error",
                                                            VStr "body must be valid JSON")]))))
                      else ret (inr (VDict []))
                  | None => ret (inr (VDict []))
                  end ;;
                match parsed with
                | inl out => ret out
                | inr payload =>
                    payload <-
                      match payload with
                      | VDict d => ret (dict_merge d extra)
                      | other => no_attribute other "update"
                      end ;;
                    data <- _graph_post endpoint payload token ;;
                    ret (_fmt data)
                end
              else if String.eqb (upper method) "DELETE" then
                data <- _graph_delete endpoint token ;; ret (_fmt data)
              else
                ret (_fmt (VDict [("error", VStr ("Unsupported method: " ++ method
                                                  ++ ". Use GET, POST, or DELETE."))]))) t'
             = (data <- perform p token ;; ret (_fmt data)) t') as (p & Hp).
  { destruct Hverb as [Hm|[Hm|[Hm Hbody]]]; rewrite Hm.
    - exists (Read endpoint extra). reflexivity.
    - exists (Remove endpoint). reflexivity.
    - change (String.eqb "POST" "GET") with false.
      change (String.eqb "POST" "POST") with true. cbv iota.
      destruct (body_object_parsed body Hbody) as (payload & Hpayload).
      rewrite (bind_inr _ _ _ _ _ (Hpayload t')). cbv beta iota.
      exists (Write endpoint (dict_merge payload extra)). reflexivity. }
  exists p. rewrite <- Hp.
  select_credential H; exact (Hmerged _).
Qed.

(** With every credential it needs resolved, an operation that gets as
    far as its request sends exactly one more request, and when that
    request gets no decoded body the operation ends in the exception of
    the failure. *)
Lemma operation_request (op : operation) (t : trace) (token : value) (t' : trace) :
  credentials_resolved op t token t' ->
  reaches_remote op ->
  exists r,
    snd (run op t) = (t' ++ [r])%list
    /\ forall e,
         failure_of (remote t' r) = Some e ->
         run op t = (inl e, (t' ++ [r])%list).
Proof.
  intros ((c & Hc & Hct) & Hauth) Hreach.
  assert (forall (p : primitive) (tk : value),
             exists r,
               snd ((data <- perform p tk ;; ret (_fmt data)) t') = (t' ++ [r])%list
               /\ forall e,
                    failure_of (remote t' r) = Some e ->
                    (data <- perform p tk ;; ret (_fmt data)) t'
                    = (inl e, (t' ++ [r])%list)) as Hprim.
  { intros p tk. destruct (primitive_then_format p tk t') as (r & Hr & _ & Hf).
    now exists r. }
  assert (forall (r : request),
             exists r',
               snd ((resp <- send r ;; data <- resp_json resp ;; ret (_fmt data)) t')
               = (t' ++ [r'])%list
               /\ forall e,
                    failure_of (remote t' r') = Some e ->
                    (resp <- send r ;; data <- resp_json resp ;; ret (_fmt data)) t'
                    = (inl e, (t' ++ [r'])%list)) as Hraw.
  { intros r. exists r. split.
    - apply send_then_silent. intros resp.
      apply silent_bind; [apply silent_resp_json | intros data; apply silent_ret].
    - intros e He. now apply send_json_failure. }
  destruct op;
    try (cbn [credential_of page_of] in Hc; injection Hc as <-;
         try (apply user_credential_step in Hct; destruct Hct as (user & Hct & ->));
         cbn [run]; unfold_tools; cbv zeta; rewrite (bind_inr _ _ _ _ _ Hct);
         match goal with
         | |- context [_graph_get ?e ?p ?tk] => exact (Hprim (Read e p) tk)
         | |- context [_graph_post ?e ?p ?tk] => exact (Hprim (Write e p) tk)
         | |- context [_graph_delete ?e ?tk] => exact (Hprim (Remove e) tk)
         | |- context [send ?r] => exact (Hraw r)
         end).
  - (* the token inspection *)
    cbn [credential_of] in Hc. injection Hc as <-. destruct Hauth as (auth & Hauth).
    cbn [run]. unfold meta_debug_token. rewrite (bind_inr _ _ _ _ _ Hct).
    unfold debug_authorization in Hauth. rewrite (bind_inr _ _ _ _ _ Hauth).
    exact (Hprim (Read "debug_token" [("input_token", token)]) (VStr auth)).
  - (* the escape hatch *)
    assert (selects token_type page_id t token t') as Hsel
        by (eapply credential_selects; eassumption).
    destruct Hreach as (Hparams & Hverb). cbn [run].
    match goal with
    | |- context [meta_graph_api_call ?e ?m ?tt ?pid ?f ?pa ?b] =>
        destruct (escape_hatch_performs e m tt pid f pa b token t t' Hsel Hparams Hverb)
          as (p & Hp)
    end.
    rewrite Hp. exact (Hprim p token).
Qed.

(** An error of the credential step leaves the operation as it is. *)
Lemma credential_failure_leaves (op : operation) (c : M value) (t t' : trace)
    (e : exn) :
  credential_of op = Some c ->
  c t = (inl e, t') ->
  run op t = (inl e, t').
Proof.
  intros Hc Hct.
  destruct op;
    try (cbn [credential_of page_of] in Hc; injection Hc as <-;
         try apply bind_ret_fails in Hct;
         cbn [run]; unfold_tools; cbv zeta; exact (bind_inl _ _ _ _ _ Hct)).
  cbn [credential_of] in Hc. cbn [run]. unfold meta_graph_api_call.
  destruct (String.eqb token_type "page").
  - destruct page_id as [p|]; [|discriminate].
    destruct (negb (truthy (VStr p))); [discriminate|]. injection Hc as <-.
    exact (bind_inl _ _ _ _ _ (bind_inl _ _ _ _ _ Hct)).
  - destruct (String.eqb token_type "app"); injection Hc as <-;
      apply bind_ret_fails in Hct;
      exact (bind_inl _ _ _ _ _ (bind_inl _ _ _ _ _ Hct)).
Qed.

(** The one error an operation of the fixed catalog catches: in the
    token inspection the [ValueError] of a missing app id or secret is
    replaced by the user credential when the authorization is chosen. *)
Lemma debug_token_catches (token_type : string) (c : M value) (input : value)
    (t t' : trace) (e : exn) :
  credential_of (DebugToken token_type) = Some c ->
  c t = (inr input, t') ->
  _app_token t' = (inl e, t') ->
  (forall user,
      _user_token t' = (inr user, t') ->
      snd (run (DebugToken token_type) t)
      = (t' ++ [request_of (Read "debug_token" [("input_token", input)])
                  (VStr user)])%list)
  /\ (forall e',
         _user_token t' = (inl e', t') ->
         run (DebugToken token_type) t = (inl e', t')).
Proof.
  cbn [credential_of]. intros [= <-] Hct He.
  assert (is_ValueError e = true) as Hv.
  { unfold _app_token in He.
    destruct (truthy _ && truthy _); [discriminate|]. now injection He as <-. }
  cbn [run]. unfold meta_debug_token. rewrite (bind_inr _ _ _ _ _ Hct). split.
  - intros user Hu.
    assert (try_except _app_token is_ValueError (fun _ => _user_token) t'
            = (inr user, t')) as Hauth by (unfold try_except; now rewrite He, Hv).
    rewrite (bind_inr _ _ _ _ _ Hauth).
    rewrite snd_bind_silent by (intros data; apply silent_ret).
    apply (perform_trace (Read "debug_token" [("input_token", input)])).
  - intros e' Hu.
    assert (try_except _app_token is_ValueError (fun _ => _user_token) t'
            = (inl e', t')) as Hauth by (unfold try_except; now rewrite He, Hv).
    exact (bind_inl _ _ _ _ _ Hauth).
Qed.

(** C10.  A selector that is neither ["page"] nor ["app"] is treated as
    ["user"], whatever it spells: the call is the call made with
    ["user"]; without a user credential it raises the error of the user
    credential and sends nothing; with one, every request it sends
    carries the user credential, and when the parameters are absent,
    empty or an object and the verb is one it supports (for POST, with
    a body that is absent, empty or an object) it does send a request:
    exactly one, carrying the user credential. *)
Theorem unknown_selector_uses_user_credential :
  forall (endpoint method token_type : string)
         (page_id fields params body : option string) (t : trace),
    token_type <> "page" ->
    token_type <> "app" ->
    meta_graph_api_call endpoint method token_type page_id fields params body t
    = meta_graph_api_call endpoint method "user" page_id fields params body t
    /\ (forall e,
           _user_token t = (inl e, t) ->
           meta_graph_api_call endpoint method token_type page_id fields params body t
           = (inl e, t))
    /\ (forall user,
           _user_token t = (inr user, t) ->
           exists new,
             snd (meta_graph_api_call endpoint method token_type page_id fields
                    params body t) = (t ++ new)%list
             /\ Forall (carries (VStr user)) new)
    /\ (forall user,
           _user_token t = (inr user, t) ->
           params_object params ->
           upper method = "GET" \/ upper method = "DELETE"
           \/ (upper method = "POST" /\ params_object body) ->
           exists r,
             snd (meta_graph_api_call endpoint method token_type page_id fields
                    params body t) = (t ++ [r])%list
             /\ carries (VStr user) r).
Proof.
  intros endpoint method token_type page_id fields params body t Hpage Happ.
  assert (forall user,
             _user_token t = (inr user, t) ->
             selects token_type page_id t (VStr user) t) as Hsel.
  { intros user Hu. unfold selects.
    apply String.eqb_neq in Hpage. apply String.eqb_neq in Happ.
    rewrite Hpage, Happ. now exists user. }
  assert (forall user,
             _user_token t = (inr user, t) ->
             params_object params ->
             upper method = "GET" \/ upper method = "DELETE"
             \/ (upper method = "POST" /\ params_object body) ->
             exists r,
               snd (meta_graph_api_call endpoint method token_type page_id fields
                      params body t) = (t ++ [r])%list
               /\ carries (VStr user) r) as Hsent.
  { intros user Hu Hparams Hverb.
    destruct (escape_hatch_performs endpoint method token_type page_id fields params
                body (VStr user) t t (Hsel user Hu) Hparams Hverb) as (p & Hp).
    rewrite Hp. destruct (primitive_then_format p (VStr user) t) as (r & Hr & Hc & _).
    now exists r. }
  revert Hsent.
  apply String.eqb_neq in Hpage. apply String.eqb_neq in Happ.
  unfold meta_graph_api_call. rewrite Hpage, Happ.
  change (String.eqb "user" "page") with false.
  change (String.eqb "user" "app") with false. cbv iota.
  intros Hsent.
  split; [reflexivity|]. split; [|split; [|exact Hsent]].
  - intros e He. exact (bind_inl _ _ _ _ _ (bind_inl _ _ _ _ _ He)).
  - intros user Hu.
    rewrite (bind_inr _ _ _ _ _ (bind_inr _ _ _ _ _ Hu)). unfold ret at 1.
    match goal with
    | |- exists new, snd (?c t) = _ /\ _ =>
        cut (sends (carries (VStr user)) c); [intros Hs; exact (Hs t)|]
    end.
    apply sends_bind.
    { destruct params as [p|]; [|apply sends_silent, silent_ret].
      destruct (truthy (VStr p)); [|apply sends_silent, silent_ret].
      apply sends_silent, silent_try_except; [|intros e; apply silent_ret].
      apply silent_bind; [apply silent_loads|]. intros v.
      apply silent_bind; [apply silent_dict_update|]. intros d. apply silent_ret. }
    intros [out|extra]; [apply sends_silent, silent_ret|].
    destruct (String.eqb (upper method) "GET").
    { apply sends_bind; [|intros data; apply sends_silent, silent_ret].
      apply (sends_perform _ (Read endpoint extra)), carries_read. }
    destruct (String.eqb (upper method) "POST").
    { apply sends_bind.
      { apply sends_silent. destruct body as [b|]; [|apply silent_ret].
        destruct (truthy (VStr b)); [|apply silent_ret].
        apply silent_try_except; [|intros e; apply silent_ret].
        apply silent_bind; [apply silent_loads|]. intros v. apply silent_ret. }
      intros [out|payload]; [apply sends_silent, silent_ret|].
      apply sends_bind.
      { apply sends_silent. destruct payload; try apply silent_raise. apply silent_ret. }
      intros payload'.
      apply sends_bind; [|intros data; apply sends_silent, silent_ret].
      apply (sends_perform _ (Write endpoint payload')), carries_write. }
    destruct (String.eqb (upper method) "DELETE").
    { apply sends_bind; [|intros data; apply sends_silent, silent_ret].
      apply (sends_perform _ (Remove endpoint)), carries_remove. }
    apply sends_silent, silent_ret.
Qed.


(** * Further properties of the code *)

(** ** What every operation keeps *)

(** One step through a body, for a property of the requests sent. *)
Ltac sends_step :=
  match goal with
  | |- sends _ (bind _ _) => apply sends_bind; [|intros ?]
  | |- sends _ (try_except _ _ _) => apply sends_try_except; [|intros ?]
  | |- sends _ (_page_token _) => apply sends_page_token; intros ?
  | |- sends _ _user_token => apply sends_silent, silent_user_token
  | |- sends _ _app_token => apply sends_silent, silent_app_token
  | |- sends _ (_graph_get ?e ?p ?t) => apply (sends_perform _ (Read e p) t)
  | |- sends _ (_graph_post ?e ?p ?t) => apply (sends_perform _ (Write e p) t)
  | |- sends _ (_graph_delete ?e ?t) => apply (sends_perform _ (Remove e) t)
  | |- sends _ (send _) => apply sends_send
  | |- sends _ (ret _) => apply sends_silent, silent_ret
  | |- sends _ (raise _) => apply sends_silent, silent_raise
  | |- sends _ (no_attribute _ _) => apply sends_silent, silent_raise
  | |- sends _ (resp_json _) => apply sends_silent, silent_resp_json
  | |- sends _ (loads _) => apply sends_silent, silent_loads
  | |- sends _ (dict_update _ _) => apply sends_silent, silent_dict_update
  | |- sends _ (if ?b then _ else _) => destruct b
  | |- sends _ (match ?x with _ => _ end) => destruct x
  end.

(** X2.  An operation registered as read-only ([readOnlyHint] is
    [True]) sends GET requests only, the token exchange included. *)
Theorem read_only_operations_only_get :
  forall (op : operation) (t : trace),
    readOnlyHint (annotations op) = true ->
    exists new,
      snd (run op t) = (t ++ new)%list /\ Forall (fun r => req_verb r = GET) new.
Proof.
  intros op t Hro. revert t.
  change (sends (fun r => req_verb r = GET) (run op)).
  destruct op; try discriminate; cbn [run]; unfold_tools; repeat sends_step;
    reflexivity.
Qed.

(** X3.  In the fixed catalog a DELETE request is sent only by an
    operation registered as destructive: one that is not sends none.
    And a destructive operation that returns has sent a DELETE last. *)
Theorem delete_only_when_destructive :
  forall (op : operation) (t : trace),
    in_fixed_catalog op = true ->
    (destructiveHint (annotations op) = false ->
     exists new,
       snd (run op t) = (t ++ new)%list
       /\ Forall (fun r => req_verb r <> DELETE) new)
    /\ (destructiveHint (annotations op) = true ->
        forall out,
          fst (run op t) = inr out ->
          exists t' r, snd (run op t) = (t' ++ [r])%list /\ req_verb r = DELETE).
Proof.
  intros op t Hop. split.
  - intros Hd. revert t.
    change (sends (fun r => req_verb r <> DELETE) (run op)).
    destruct op; try discriminate; cbn [run]; unfold_tools; repeat sends_step;
      cbn; discriminate.
  - intros Hd out.
    destruct op; try discriminate; cbn [run]; unfold_tools;
      unfold bind at 1 3; destruct (_page_token page_id t) as [[e|token] t'];
      try discriminate; intros _;
      rewrite snd_bind_silent by (intros data; apply silent_ret);
      eexists t', _; (split; [apply (perform_trace (Remove _))|]); reflexivity.
Qed.

Lemma at_most_silent {A : Type} (c : M A) : silent c -> sends_at_most 0 c.
Proof.
  intros H t. exists []. rewrite H, app_nil_r. split; [reflexivity | apply Nat.le_refl].
Qed.

Lemma at_most_le {A : Type} (n m : nat) (c : M A) :
  (n <= m)%nat -> sends_at_most n c -> sends_at_most m c.
Proof.
  intros Hnm H t. destruct (H t) as (new & Hnew & Hlen). exists new.
  split; [exact Hnew | lia].
Qed.

Lemma at_most_bind {A B : Type} (a b : nat) (c : M A) (k : A -> M B) :
  sends_at_most a c -> (forall x, sends_at_most b (k x)) ->
  sends_at_most (a + b) (bind c k).
Proof.
  intros Hc Hk t. unfold bind. destruct (Hc t) as (new & Hnew & Hlen).
  destruct (c t) as [[e|x] t']; cbn [snd] in Hnew; subst t'.
  - exists new. split; [reflexivity | lia].
  - destruct (Hk x (t ++ new)%list) as (new' & Hnew' & Hlen').
    exists (new ++ new')%list. rewrite Hnew', app_assoc, length_app.
    split; [reflexivity | lia].
Qed.

Lemma at_most_try_except {A : Type} (a b : nat) (c : M A) (handles : exn -> bool)
    (h : exn -> M A) :
  sends_at_most a c -> (forall e, sends_at_most b (h e)) ->
  sends_at_most (a + b) (try_except c handles h).
Proof.
  intros Hc Hh t. unfold try_except. destruct (Hc t) as (new & Hnew & Hlen).
  destruct (c t) as [[e|x] t']; cbn [snd] in Hnew; subst t'.
  - destruct (handles e).
    + destruct (Hh e (t ++ new)%list) as (new' & Hnew' & Hlen').
      exists (new ++ new')%list. rewrite Hnew', app_assoc, length_app.
      split; [reflexivity | lia].
    + exists new. split; [reflexivity | lia].
  - exists new. split; [reflexivity | lia].
Qed.

Lemma at_most_send (r : request) : sends_at_most 1 (send r).
Proof.
  intros t. exists [r]. split; [|apply Nat.le_refl].
  unfold send. destruct (remote t r); reflexivity.
Qed.

Lemma at_most_perform (p : primitive) (token : value) :
  sends_at_most 1 (perform p token).
Proof.
  intros t. exists [request_of p token]. split; [apply perform_trace | apply Nat.le_refl].
Qed.

(** One step through a body that sends nothing. *)
Ltac silent_step :=
  match goal with
  | |- silent (bind _ _) => apply silent_bind; [|intros ?]
  | |- silent (try_except _ _ _) => apply silent_try_except; [|intros ?]
  | |- silent (ret _) => apply silent_ret
  | |- silent (raise _) => apply silent_raise
  | |- silent (no_attribute _ _) => apply silent_raise
  | |- silent (resp_json _) => apply silent_resp_json
  | |- silent (raise_for_status _) => apply silent_raise_for_status
  | |- silent (loads _) => apply silent_loads
  | |- silent (dict_update _ _) => apply silent_dict_update
  | |- silent (py_get _ _ _) => apply silent_py_get
  | |- silent _user_token => apply silent_user_token
  | |- silent _app_token => apply silent_app_token
  | |- silent _page_tokens => apply silent_page_tokens
  | |- silent (if ?b then _ else _) => destruct b
  | |- silent (match ?x with _ => _ end) => destruct x
  end.

Lemma at_most_exchange (page_id : string) :
  sends_at_most 1 (_exchange_page_token page_id).
Proof.
  unfold _exchange_page_token. apply (at_most_try_except 1 0).
  - apply (at_most_bind 0 1); [apply at_most_silent, silent_user_token|]. intros user.
    apply (at_most_bind 1 0); [apply at_most_send|]. intros resp.
    apply at_most_silent. repeat silent_step.
  - intros e. apply at_most_silent, silent_raise.
Qed.

Lemma at_most_page_token (page_id : string) : sends_at_most 1 (_page_token page_id).
Proof.
  unfold _page_token.
  apply (at_most_bind 0 1); [apply at_most_silent, silent_page_tokens|]. intros tokens.
  apply (at_most_bind 0 1); [apply at_most_silent, silent_py_get|]. intros token.
  destruct (negb (truthy token)); [apply at_most_exchange|].
  apply (at_most_le 0 1); [lia | apply at_most_silent, silent_ret].
Qed.

(** One step through a body that sends at most one request. *)
Ltac at_most_one :=
  match goal with
  | |- sends_at_most 1 (bind (_graph_get ?e ?p ?t) _) =>
      apply (at_most_bind 1 0);
      [apply (at_most_perform (Read e p) t)
      |intros ?; apply at_most_silent; repeat silent_step]
  | |- sends_at_most 1 (bind (_graph_post ?e ?p ?t) _) =>
      apply (at_most_bind 1 0);
      [apply (at_most_perform (Write e p) t)
      |intros ?; apply at_most_silent; repeat silent_step]
  | |- sends_at_most 1 (bind (_graph_delete ?e ?t) _) =>
      apply (at_most_bind 1 0);
      [apply (at_most_perform (Remove e) t)
      |intros ?; apply at_most_silent; repeat silent_step]
  | |- sends_at_most 1 (bind (send _) _) =>
      apply (at_most_bind 1 0);
      [apply at_most_send | intros ?; apply at_most_silent; repeat silent_step]
  | |- sends_at_most 1 (bind (_page_token _) _) =>
      apply (at_most_bind 1 0);
      [apply at_most_page_token | intros ?; apply at_most_silent; repeat silent_step]
  | |- sends_at_most 1 (_page_token _) => apply at_most_page_token
  | |- sends_at_most 1 (if ?b then _ else _) => destruct b
  | |- sends_at_most 1 (match ?x with _ => _ end) => destruct x
  | |- sends_at_most 1 (bind _ _) =>
      apply (at_most_bind 0 1);
      [apply at_most_silent; repeat silent_step | intros ?]
  | |- sends_at_most 1 _ =>
      apply (at_most_le 0 1); [lia | apply at_most_silent; repeat silent_step]
  end.

(** X4.  No operation sends more than two requests: at most the token
    exchange and the call itself; there is no retry and no pagination. *)
Theorem at_most_two_requests :
  forall (op : operation) (t : trace),
    exists new,
      snd (run op t) = (t ++ new)%list /\ (List.length new <= 2)%nat.
Proof.
  intros op. change (sends_at_most 2 (run op)).
  destruct op; cbn [run]; unfold_tools;
    (apply (at_most_bind 1 1); [repeat at_most_one | intros ?; repeat at_most_one]).
Qed.

(** ** The resolvers at their edges *)

Lemma page_tokens_unfold (t : trace) :
  _page_tokens t =
  (inr match json_loads (environ_get "META_PAGE_TOKENS" "{}") with
       | Some v => v
       | None => VDict []
       end, t).
Proof.
  unfold _page_tokens, try_except, loads.
  destruct (json_loads (environ_get "META_PAGE_TOKENS" "{}")); reflexivity.
Qed.

(** X5.  A page map that is not set, or whose text is not JSON, is no
    error: the map counts as empty, and every page credential is then
    obtained by the token exchange. *)
Theorem unusable_page_map_means_exchange :
  forall (page_id : string) (t : trace),
    environ "META_PAGE_TOKENS" = None
    \/ json_loads (environ_get "META_PAGE_TOKENS" "{}") = None ->
    _page_tokens t = (inr (VDict []), t)
    /\ _page_token page_id t = _exchange_page_token page_id t.
Proof.
  intros page_id t H.
  assert (_page_tokens t = (inr (VDict []), t)) as Hm.
  { rewrite page_tokens_unfold. destruct H as [H|H].
    - unfold environ_get. rewrite H. reflexivity.
    - rewrite H. reflexivity. }
  split; [exact Hm|]. now rewrite (page_token_lookup page_id [] t Hm).
Qed.

(** X6.  A page map whose text is JSON but no object (an array, a
    number, a string) is not degraded to an empty map: every page
    resolution ends in an [AttributeError], and nothing is sent. *)
Theorem page_map_that_is_no_object_raises :
  forall (page_id : string) (v : value) (t : trace),
    json_loads (environ_get "META_PAGE_TOKENS" "{}") = Some v ->
    (forall d, v <> VDict d) ->
    _page_token page_id t
    = (inl (AttributeError ("'" ++ type_name v ++ "' object has no attribute 'get'")), t).
Proof.
  intros page_id v t Hv Hnd. unfold _page_token.
  rewrite (bind_inr _ _ _ _ _ (page_tokens_unfold t)), Hv.
  destruct v; try reflexivity. now destruct (Hnd entries).
Qed.

Lemma page_tokens_anywhere (t t' : trace) (r : exn + value) :
  _page_tokens t = (r, t) -> _page_tokens t' = (r, t').
Proof. rewrite !page_tokens_unfold. congruence. Qed.

(** X7.  An exchanged page token is not kept: resolving the same
    unmapped page again, right after a resolution that succeeded, sends
    the exchange request a second time. *)
Theorem exchanged_token_is_not_cached :
  forall (page_id : string) (m : dict) (user : string) (t : trace) (tok : value),
    _page_tokens t = (inr (VDict m), t) ->
    dict_get page_id m = None ->
    _user_token t = (inr user, t) ->
    fst (_page_token page_id t) = inr tok ->
    snd ((first <- _page_token page_id ;; _page_token page_id) t)
    = (t ++ [exchange_request page_id user; exchange_request page_id user])%list.
Proof.
  intros page_id m user t tok Hm Hmiss Hu Hfirst.
  assert (forall t0, snd (_page_token page_id t0)
                     = (t0 ++ [exchange_request page_id user])%list) as Hsnd.
  { intros t0.
    rewrite (page_token_lookup page_id m t0 (page_tokens_anywhere t t0 _ Hm)), Hmiss.
    now rewrite (exchange_unfold page_id user t0 (user_token_anywhere t t0 _ Hu)). }
  unfold bind. pose proof (Hsnd t) as H1.
  destruct (_page_token page_id t) as [[e|tok1] t1]; [discriminate|].
  cbn [snd] in H1. subst t1. rewrite Hsnd, <- app_assoc. reflexivity.
Qed.

Lemma app_token_unfold (t : trace) :
  _app_token t =
  (if truthy (VStr (environ_get "META_APP_ID" EmptyString))
      && truthy (VStr (environ_get "META_APP_SECRET" EmptyString))
   then inr (environ_get "META_APP_ID" EmptyString ++ "|"
             ++ environ_get "META_APP_SECRET" EmptyString)
   else inl (ValueError "META_APP_ID and META_APP_SECRET env vars are not set"), t).
Proof.
  unfold _app_token.
  destruct (truthy (VStr (environ_get "META_APP_ID" EmptyString))
            && truthy (VStr (environ_get "META_APP_SECRET" EmptyString)));
    reflexivity.
Qed.

Lemma user_token_unfold (t : trace) :
  _user_token t =
  (if truthy (VStr (environ_get "META_SYSTEM_USER_TOKEN" EmptyString))
   then inr (environ_get "META_SYSTEM_USER_TOKEN" EmptyString)
   else inl (ValueError "META_SYSTEM_USER_TOKEN env var is not set"), t).
Proof.
  unfold _user_token.
  destruct (truthy (VStr (environ_get "META_SYSTEM_USER_TOKEN" EmptyString)));
    reflexivity.
Qed.

(** X8.  No resolver hands out an empty credential, whatever the
    configuration and the remote side: a user token is never empty, an
    app token has a part that is not empty on each side of its bar, and
    a page token is never [None] nor the empty string. *)
Theorem resolved_credentials_are_not_empty :
  forall (page_id : string) (t : trace),
    (forall user, fst (_user_token t) = inr user -> user <> EmptyString)
    /\ (forall app,
           fst (_app_token t) = inr app ->
           exists id secret,
             app = id ++ "|" ++ secret /\ id <> EmptyString /\ secret <> EmptyString)
    /\ (forall tok,
           fst (_page_token page_id t) = inr tok ->
           tok <> VNone /\ tok <> VStr EmptyString).
Proof.
  intros page_id t. split; [|split].
  - intros user. rewrite user_token_unfold. cbn [truthy fst].
    destruct (String.eqb (environ_get "META_SYSTEM_USER_TOKEN" EmptyString) EmptyString)
      eqn:E; cbn [negb]; [discriminate|].
    intros [= <-]. now apply String.eqb_neq.
  - intros app. rewrite app_token_unfold. cbn [truthy fst].
    destruct (String.eqb (environ_get "META_APP_ID" EmptyString) EmptyString) eqn:E1;
      cbn [negb andb]; [discriminate|].
    destruct (String.eqb (environ_get "META_APP_SECRET" EmptyString) EmptyString) eqn:E2;
      cbn [negb]; [discriminate|].
    intros [= <-]. eexists _, _. split; [reflexivity|].
    split; now apply String.eqb_neq.
  - intros tok. unfold _page_token.
    rewrite (bind_inr _ _ _ _ _ (page_tokens_unfold t)).
    assert (forall tok', truthy tok' = true -> tok' <> VNone /\ tok' <> VStr EmptyString)
      as Htruthy by (intros tok' Ht; split; intros ->; discriminate).
    assert (forall t0, fst (_exchange_page_token page_id t0) = inr tok ->
                       tok <> VNone /\ tok <> VStr EmptyString) as Hex.
    { intros t0. unfold _exchange_page_token, try_except.
      destruct (bind _user_token _ t0) as [[e|tok'] t1] eqn:E; [discriminate|].
      cbn [fst]. intros [= ->]. revert E. unfold bind.
      destruct (_user_token t0) as [[e|u] t2]; [discriminate|].
      destruct (send _ t2) as [[e|resp] t3]; [discriminate|].
      destruct (raise_for_status resp t3) as [[e|[]] t4]; [discriminate|].
      destruct (resp_json resp t4) as [[e|data] t5]; [discriminate|].
      destruct (py_get data "access_token" VNone t5) as [[e|token] t6]; [discriminate|].
      destruct (truthy token) eqn:Ht; [|discriminate].
      intros [= <- _]. now apply Htruthy. }
    unfold bind.
    destruct (py_get _ page_id VNone t) as [[e|token] t1]; [discriminate|].
    destruct (truthy token) eqn:Ht; cbn [negb]; [|apply Hex].
    intros [= <-]. now apply Htruthy.
Qed.

(** ** The credential on every request *)

Lemma user_token_not_empty (t t' : trace) (user : string) :
  _user_token t = (inr user, t') -> user <> EmptyString.
Proof.
  rewrite user_token_unfold. cbn [truthy].
  destruct (String.eqb (environ_get "META_SYSTEM_USER_TOKEN" EmptyString) EmptyString)
    eqn:E; cbn [negb]; [discriminate|].
  intros [= <- _]. now apply String.eqb_neq.
Qed.

Lemma app_token_not_empty (t t' : trace) (app : string) :
  _app_token t = (inr app, t') -> app <> EmptyString.
Proof.
  rewrite app_token_unfold. cbn [truthy].
  destruct (String.eqb (environ_get "META_APP_ID" EmptyString) EmptyString) eqn:E;
    cbn [negb andb]; [discriminate|].
  destruct (negb _); [|discriminate]. intros [= <- _].
  destruct (environ_get "META_APP_ID" EmptyString); [discriminate|].
  cbn [append]. discriminate.
Qed.

Lemma debug_authorization_not_empty (t t' : trace) (auth : string) :
  try_except _app_token is_ValueError (fun _ => _user_token) t = (inr auth, t') ->
  auth <> EmptyString.
Proof.
  unfold try_except. destruct (_app_token t) as [[e|app] t0] eqn:E.
  - destruct (is_ValueError e); [|discriminate]. apply user_token_not_empty.
  - intros [= <- <-]. exact (app_token_not_empty t t0 app E).
Qed.

Lemma exchange_not_empty (page_id : string) (t t' : trace) (tok : value) :
  _exchange_page_token page_id t = (inr tok, t') ->
  tok <> VNone /\ tok <> VStr EmptyString.
Proof.
  unfold _exchange_page_token, try_except.
  destruct (bind _user_token _ t) as [[e|tok'] t1] eqn:E; [discriminate|].
  intros [= -> _]. revert E. unfold bind.
  destruct (_user_token t) as [[e|u] t2]; [discriminate|].
  destruct (send _ t2) as [[e|resp] t3]; [discriminate|].
  destruct (raise_for_status resp t3) as [[e|[]] t4]; [discriminate|].
  destruct (resp_json resp t4) as [[e|data] t5]; [discriminate|].
  destruct (py_get data "access_token" VNone t5) as [[e|token] t6]; [discriminate|].
  destruct (truthy token) eqn:Ht; [|discriminate].
  intros [= <- _]. split; intros ->; discriminate.
Qed.

Lemma page_token_not_empty (page_id : string) (t t' : trace) (tok : value) :
  _page_token page_id t = (inr tok, t') ->
  tok <> VNone /\ tok <> VStr EmptyString.
Proof.
  unfold _page_token. rewrite (bind_inr _ _ _ _ _ (page_tokens_unfold t)).
  unfold bind.
  destruct (py_get _ page_id VNone t) as [[e|token] t1]; [discriminate|].
  destruct (truthy token) eqn:Ht; cbn [negb]; [|apply exchange_not_empty].
  intros [= <- _]. split; intros ->; discriminate.
Qed.

Lemma text_credential (user : string) :
  user <> EmptyString -> VStr user <> VNone /\ VStr user <> VStr EmptyString.
Proof. intros H. split; [discriminate | intros [= E]; exact (H E)]. Qed.

(** A step whose result is known to be good, before the steps that use
    it. *)
Lemma sends_bind_when {A B : Type} (P : request -> Prop) (Q : A -> Prop)
    (c : M A) (k : A -> M B) :
  sends P c ->
  (forall t a t', c t = (inr a, t') -> Q a) ->
  (forall a, Q a -> sends P (k a)) ->
  sends P (bind c k).
Proof.
  intros Hc HQ Hk t. unfold bind. destruct (Hc t) as (new & Hnew & HP).
  destruct (c t) as [[e|a] t'] eqn:E; cbn [snd] in Hnew; subst t'.
  - exists new. now split.
  - destruct (Hk a (HQ _ _ _ E) (t ++ new)%list) as (new' & Hnew' & HP').
    exists (new ++ new')%list. rewrite Hnew', app_assoc. split; [reflexivity|].
    apply Forall_app. now split.
Qed.

Lemma sends_exchange_credentialed (page_id : string) :
  sends credentialed (_exchange_page_token page_id).
Proof.
  unfold _exchange_page_token. apply sends_try_except.
  - apply (sends_bind_when _ (fun user => user <> EmptyString));
      [apply sends_silent, silent_user_token
      | intros t user t'; apply user_token_not_empty |].
    intros user Hu. apply sends_bind.
    + apply sends_send. exists (VStr user).
      split; [left; reflexivity | now apply text_credential].
    + intros resp. apply sends_silent.
      apply silent_bind; [apply silent_raise_for_status|]. intros _.
      apply silent_bind; [apply silent_resp_json|]. intros data.
      apply silent_bind; [apply silent_py_get|]. intros token.
      destruct (truthy token); [apply silent_ret | apply silent_raise].
  - intros e. apply sends_silent, silent_raise.
Qed.

Lemma sends_page_token_credentialed (page_id : string) :
  sends credentialed (_page_token page_id).
Proof.
  unfold _page_token.
  apply sends_bind; [apply sends_silent, silent_page_tokens|]. intros tokens.
  apply sends_bind; [apply sends_silent, silent_py_get|]. intros token.
  destruct (negb (truthy token)); [apply sends_exchange_credentialed|].
  apply sends_silent, silent_ret.
Qed.

(** The request at the end of a body carries the credential in hand. *)
Ltac credential_sent :=
  eexists; split;
  [ first [ apply carries_read | apply carries_write | apply carries_remove
          | right; reflexivity ]
  | first [ assumption | apply text_credential; assumption ] ].

Ltac under_page_token :=
  apply (sends_bind_when _ (fun tok => tok <> VNone /\ tok <> VStr EmptyString));
  [ apply sends_page_token_credentialed
  | intros ? ? ?; apply page_token_not_empty
  | intros ? ?; repeat sends_step; credential_sent ].

Ltac under_user_token :=
  apply (sends_bind_when _ (fun user => user <> EmptyString));
  [ apply sends_silent, silent_user_token
  | intros ? ? ?; apply user_token_not_empty
  | intros ? ?; repeat sends_step; credential_sent ].


(** ** The escape hatch, past its error results *)

Lemma dict_get_absent (k : string) (d : dict) :
  ~ In k (keys d) -> dict_get k d = None.
Proof.
  induction d as [|[k' v] d IH]; cbn [dict_get keys map fst In]; [reflexivity|].
  intros H. destruct (String.eqb k k') eqn:E.
  - apply String.eqb_eq in E. subst. tauto.
  - apply IH. unfold keys. tauto.
Qed.

Lemma dict_merge_NoDup (d o : dict) :
  NoDup (keys d) -> NoDup (keys (dict_merge d o)).
Proof.
  revert d. induction o as [|[k v] o IH]; intros d H; [exact H|].
  unfold dict_merge. cbn [fold_left fst snd]. apply IH. now apply dict_set_NoDup.
Qed.

(** [d.update(o)]: what [o] holds wins, the rest is what [d] held. *)
Lemma dict_get_merge (k : string) (d o : dict) :
  NoDup (keys o) ->
  dict_get k (dict_merge d o)
  = match dict_get k o with Some v => Some v | None => dict_get k d end.
Proof.
  revert d. induction o as [|[k0 v0] o IH]; intros d H; [reflexivity|].
  cbn [keys map fst] in H. inversion H as [|? ? Hk Ho]; subst.
  change (dict_merge d ((k0, v0) :: o)) with (dict_merge (dict_set k0 v0 d) o).
  rewrite (IH _ Ho). cbn [dict_get]. destruct (String.eqb k k0) eqn:E.
  - apply String.eqb_eq in E. subst k0.
    rewrite (dict_get_absent k o Hk). apply dict_get_set_same.
  - destruct (dict_get k o); [reflexivity|].
    apply dict_get_set_other. intros ->. now rewrite String.eqb_refl in E.
Qed.

Lemma scan_number_no_object (s r : string) (d : dict) :
  scan_number s <> Some (VDict d, r).
Proof.
  unfold scan_number.
  destruct (match s with
            | EmptyString => (false, s)
            | String c rest => if Ascii.eqb c "-" then (true, rest) else (false, s)
            end) as [neg s1].
  destruct (scan_int_part s1) as [[ds s2]|]; [|discriminate].
  destruct (scan_frac s2) as [frac s3]. destruct (scan_exp s3) as [ex s4].
  destruct frac; destruct ex; discriminate.
Qed.

Lemma scan_atom_no_object (s r : string) (d : dict) :
  scan_atom s <> Some (VDict d, r).
Proof.
  unfold scan_atom.
  repeat match goal with
         | |- context [match strip_prefix ?p s with _ => _ end] =>
             destruct (strip_prefix p s); [discriminate|]
         end.
  apply scan_number_no_object.
Qed.

(** An object that [json.loads] gives has each key once. *)
Lemma loads_object_keys (s : string) (d : dict) :
  json_loads s = Some (VDict d) -> NoDup (keys d).
Proof.
  unfold json_loads.
  destruct (scan_value _ _) as [[v r]|] eqn:E; [|discriminate].
  intros H. assert (v = VDict d) as ->.
  { destruct (skip_ws r); [congruence | discriminate]. }
  clear H. revert E. generalize (skip_ws s). intros s0.
  destruct (S (String.length s)) as [|f]; [discriminate|]. cbn [scan_value].
  destruct s0 as [|c rest]; [discriminate|].
  destruct (Ascii.eqb c quote).
  { destruct (scan_string rest) as [[x y]|]; discriminate. }
  destruct (Ascii.eqb c "[").
  { destruct (skip_ws rest) as [|c1 rest1]; [discriminate|].
    destruct (Ascii.eqb c1 "]"); [discriminate|].
    destruct (scan_items f _) as [[x y]|]; discriminate. }
  destruct (Ascii.eqb c "{").
  { destruct (skip_ws rest) as [|c1 rest1]; [discriminate|].
    destruct (Ascii.eqb c1 "}"); [intros [= <- _]; constructor|].
    destruct (scan_members f _) as [[pairs y]|]; [|discriminate].
    intros [= <- _]. apply dict_merge_NoDup. constructor. }
  intros E. now apply scan_atom_no_object in E.
Qed.

Lemma bind_ret {A B : Type} (a : A) (k : A -> M B) (t : trace) :
  bind (ret a) k t = k a t.
Proof. reflexivity. Qed.

Lemma params_loaded (extra P : dict) (p : string) (h : exn -> M (string + dict))
    (t : trace) :
  json_loads p = Some (VDict P) ->
  try_except (v <- loads p ;; d <- dict_update extra v ;; ret (inr d))
    is_JSONDecodeError h t
  = (inr (inr (dict_merge extra P)), t).
Proof. intros H. unfold try_except, bind, loads. now rewrite H. Qed.

Lemma body_loaded (b : string) (v : value) (h : exn -> M (string + value)) (t : trace) :
  json_loads b = Some v ->
  try_except (v <- loads b ;; ret (inr v)) is_JSONDecodeError h t = (inr (inr v), t).
Proof. intros H. unfold try_except, bind, loads. now rewrite H. Qed.

Lemma write_call_request (endpoint method token_type : string)
    (page_id fields : option string) (p b : string) (P B : dict)
    (token : value) (t t' : trace) :
  selects token_type page_id t token t' ->
  upper method = "POST" ->
  p <> EmptyString -> json_loads p = Some (VDict P) ->
  b <> EmptyString -> json_loads b = Some (VDict B) ->
  snd (meta_graph_api_call endpoint method token_type page_id fields (Some p) (Some b) t)
  = (t' ++ [request_of (Write endpoint (dict_merge B (dict_merge (fields_entry fields) P)))
              token])%list.
Proof.
  intros H Hm Hp HP Hb HB.
  apply String.eqb_neq in Hp. apply String.eqb_neq in Hb.
  select_credential H; cbn [truthy]; rewrite Hp; cbn [negb];
    rewrite (bind_inr _ _ _ _ _ (params_loaded _ P p _ _ HP)); cbv beta iota;
    rewrite Hm; change (String.eqb "POST" "GET") with false;
    change (String.eqb "POST" "POST") with true; cbv iota;
    rewrite Hb; cbn [negb];
    rewrite (bind_inr _ _ _ _ _ (body_loaded b _ _ _ HB)); cbv beta iota;
    rewrite bind_ret;
    (rewrite snd_bind_silent by (intros data; apply silent_ret));
    apply (perform_trace (Write endpoint _)).
Qed.

(** X9.  A write through the escape hatch sends one form in which the
    sources are layered: the credential is the [access_token] whatever
    the caller wrote under that name; for any other name an entry of
    [params] wins over the [fields] argument, and both win over an entry
    of [body]. *)
Theorem write_call_layers_its_sources :
  forall (endpoint method token_type : string) (page_id fields : option string)
         (p b : string) (P B : dict) (token : value) (t t' : trace),
    selects token_type page_id t token t' ->
    upper method = "POST" ->
    p <> EmptyString -> json_loads p = Some (VDict P) ->
    b <> EmptyString -> json_loads b = Some (VDict B) ->
    exists form,
      snd (meta_graph_api_call endpoint method token_type page_id fields
             (Some p) (Some b) t)
      = (t' ++ [mkRequest POST (GRAPH_API_BASE ++ "/" ++ endpoint) [] form])%list
      /\ dict_get "access_token" form = Some token
      /\ forall k, k <> "access_token" ->
           dict_get k form
           = match dict_get k P with
             | Some v => Some v
             | None =>
                 match dict_get k (fields_entry fields) with
                 | Some v => Some v
                 | None => dict_get k B
                 end
             end.
Proof.
  intros endpoint method token_type page_id fields p b P B token t t'
         H Hm Hp HP Hb HB.
  eexists. split; [|split].
  - rewrite (write_call_request _ _ _ _ fields p b P B token t t' H Hm Hp HP Hb HB).
    reflexivity.
  - apply dict_get_set_same.
  - intros k Hk. rewrite dict_get_set_other by congruence.
    assert (NoDup (keys (fields_entry fields))) as HF.
    { unfold fields_entry. destruct fields as [f|]; [|constructor].
      destruct (truthy (VStr f)); [|constructor].
      cbn. constructor; [intros []|constructor]. }
    rewrite dict_get_merge by (apply dict_merge_NoDup, HF).
    rewrite dict_get_merge by (exact (loads_object_keys p P HP)).
    destruct (dict_get k P); reflexivity.
Qed.

(** X10.  A read and a delete through the escape hatch never look at the
    [body] argument, not even to reject a text that is not JSON; and a
    delete sends the credential alone: neither [fields] nor the entries
    of [params] reach the request. *)
Theorem read_and_delete_calls_ignore_body :
  forall (endpoint method token_type : string) (page_id fields params : option string),
    upper method = "GET" \/ upper method = "DELETE" ->
    (forall (body body' : option string) (t : trace),
        meta_graph_api_call endpoint method token_type page_id fields params body t
        = meta_graph_api_call endpoint method token_type page_id fields params body' t)
    /\ (upper method = "DELETE" ->
        forall (body : option string) (token : value) (t t' : trace),
          selects token_type page_id t token t' ->
          params_object params ->
          snd (meta_graph_api_call endpoint method token_type page_id fields params body t)
          = (t' ++ [mkRequest DELETE (GRAPH_API_BASE ++ "/" ++ endpoint)
                      [("access_token", token)] []])%list).
Proof.
  intros endpoint method token_type page_id fields params Hm. split.
  - intros body body' t. unfold meta_graph_api_call.
    destruct Hm as [Hm|Hm]; rewrite Hm; reflexivity.
  - intros Hd body token t t' H Hparams.
    destruct (params_object_merged fields params Hparams) as (extra & Hextra).
    select_credential H; rewrite (bind_inr _ _ _ _ _ (Hextra _)); cbv beta iota;
      rewrite Hd; change (String.eqb "DELETE" "GET") with false;
      change (String.eqb "DELETE" "POST") with false;
      change (String.eqb "DELETE" "DELETE") with true; cbv iota;
      (rewrite snd_bind_silent by (intros data; apply silent_ret));
      apply (perform_trace (Remove endpoint)).
Qed.

(** X11.  The verb is matched without regard to case: two spellings with
    the same upper-case form, when that form is GET, POST or DELETE, make
    the same call. *)
Theorem verb_is_matched_caselessly :
  forall (endpoint m1 m2 token_type : string)
         (page_id fields params body : option string) (t : trace),
    upper m1 = upper m2 ->
    upper m1 = "GET" \/ upper m1 = "POST" \/ upper m1 = "DELETE" ->
    meta_graph_api_call endpoint m1 token_type page_id fields params body t
    = meta_graph_api_call endpoint m2 token_type page_id fields params body t.
Proof.
  intros endpoint m1 m2 token_type page_id fields params body t Heq Hm.
  unfold meta_graph_api_call. rewrite <- Heq.
  destruct Hm as [Hm|[Hm|Hm]]; rewrite Hm; reflexivity.
Qed.

(** X12.  Only a text that is not JSON gives an error result.  A [params]
    text that decodes to null, a boolean or a number ends the call in a
    [TypeError], and on a write a [body] text that decodes to anything
    but an object ends it in an [AttributeError]; both escape the call,
    after the credential was resolved and before anything is sent. *)
Theorem decoded_blob_of_wrong_type_raises :
  forall (endpoint method token_type : string) (page_id fields : option string)
         (token : value) (t t' : trace),
    selects token_type page_id t token t' ->
    (forall (p : string) (v : value) (body : option string),
        p <> EmptyString -> json_loads p = Some v ->
        match v with VNone | VBool _ | VInt _ | VFloat _ => True | _ => False end ->
        meta_graph_api_call endpoint method token_type page_id fields (Some p) body t
        = (inl (TypeError ("'" ++ type_name v ++ "' object is not iterable")), t'))
    /\ (forall (params : option string) (b : string) (v : value),
           params_object params -> upper method = "POST" ->
           b <> EmptyString -> json_loads b = Some v -> (forall d, v <> VDict d) ->
           meta_graph_api_call endpoint method token_type page_id fields params (Some b) t
           = (inl (AttributeError ("'" ++ type_name v
                                   ++ "' object has no attribute 'update'")), t')).
Proof.
  intros endpoint method token_type page_id fields token t t' H. split.
  - intros p v body Hp Hv Hkind. apply String.eqb_neq in Hp.
    select_credential H; cbn [truthy]; rewrite Hp; cbn [negb];
      unfold try_except, bind at 1 2 3, loads; rewrite Hv;
      destruct v; try contradiction; reflexivity.
  - intros params b v Hparams Hm Hb Hv Hnd. apply String.eqb_neq in Hb.
    destruct (params_object_merged fields params Hparams) as (extra & Hextra).
    select_credential H; rewrite (bind_inr _ _ _ _ _ (Hextra _)); cbv beta iota;
      rewrite Hm; change (String.eqb "POST" "GET") with false;
      change (String.eqb "POST" "POST") with true; cbv iota;
      cbn [truthy]; rewrite Hb; cbn [negb];
      rewrite (bind_inr _ _ _ _ _ (body_loaded b _ _ _ Hv)); cbv beta iota;
      destruct v; try reflexivity; now destruct (Hnd entries).
Qed.

(** ** The credential of a fixed operation *)

Lemma page_token_mapped (page_id : string) (m : dict) (tok : value) (t : trace) :
  _page_tokens t = (inr (VDict m), t) ->
  dict_get page_id m = Some tok -> truthy tok = true ->
  _page_token page_id t = (inr tok, t).
Proof.
  intros Hm Hin Ht. rewrite (page_token_lookup page_id m t Hm), Hin, Ht. reflexivity.
Qed.

Lemma send_json_trace {A : Type} (r : request) (f : value -> A) (t : trace) :
  snd ((resp <- send r ;; data <- resp_json resp ;; ret (f data)) t) = (t ++ [r])%list.
Proof.
  apply send_then_silent. intros resp.
  apply silent_bind; [apply silent_resp_json | intros data; apply silent_ret].
Qed.

(** The one request of a body that goes on, the credential in hand, with
    a primitive or with the request of the hide operations. *)
Ltac one_request :=
  cbv zeta;
  match goal with
  | |- context [_graph_get ?e ?p ?tk] =>
      exists (request_of (Read e p) tk);
      rewrite snd_bind_silent by (intros ?; apply silent_ret);
      split; [exact (perform_trace (Read e p) tk _) | ]
  | |- context [_graph_post ?e ?p ?tk] =>
      exists (request_of (Write e p) tk);
      rewrite snd_bind_silent by (intros ?; apply silent_ret);
      split; [exact (perform_trace (Write e p) tk _) | ]
  | |- context [_graph_delete ?e ?tk] =>
      exists (request_of (Remove e) tk);
      rewrite snd_bind_silent by (intros ?; apply silent_ret);
      split; [exact (perform_trace (Remove e) tk _) | ]
  | |- context [send ?r] =>
      exists r; split; [apply send_json_trace | ]
  end.

(** The trace of a primitive, put in place of the call. *)
Ltac primitive_trace :=
  match goal with
  | |- snd (_graph_get ?e ?p ?tk ?t) = _ =>
      etransitivity; [exact (perform_trace (Read e p) tk t)|]
  | |- snd (_graph_post ?e ?p ?tk ?t) = _ =>
      etransitivity; [exact (perform_trace (Write e p) tk t)|]
  | |- snd (_graph_delete ?e ?tk ?t) = _ =>
      etransitivity; [exact (perform_trace (Remove e) tk t)|]
  end.

(** X13.  A fixed operation that takes a page id works under that page's
    credential: when the page map holds a token for the page that is not
    empty, the operation sends exactly one request, and that request
    carries the mapped token; no exchange takes place. *)
Theorem page_operation_uses_mapped_token :
  forall (op : operation) (p : string) (m : dict) (tok : value) (t : trace),
    page_of op = Some p ->
    _page_tokens t = (inr (VDict m), t) ->
    dict_get p m = Some tok -> truthy tok = true ->
    exists r, snd (run op t) = (t ++ [r])%list /\ carries tok r.
Proof.
  intros op p m tok t Hp Hm Hin Ht.
  pose proof (page_token_mapped p m tok t Hm Hin Ht) as Hpt.
  destruct op; cbn [page_of] in Hp; try discriminate;
    injection Hp as ->; cbn [run]; unfold_tools; cbv zeta;
    rewrite (bind_inr _ _ _ _ _ Hpt); one_request;
    first [ apply carries_read | apply carries_write | apply carries_remove
          | right; reflexivity ].
Qed.

(** X14.  The page listing and the five operations on the ad account
    side work under the user credential: when it is
    configured each of them sends exactly one request, a GET that
    carries it. *)
Theorem user_operation_sends_one_read :
  forall (op : operation) (user : string) (t : trace),
    by_user op = true ->
    _user_token t = (inr user, t) ->
    exists r, snd (run op t) = (t ++ [r])%list
              /\ req_verb r = GET /\ carries (VStr user) r.
Proof.
  intros op user t Hop Hu.
  destruct op; try discriminate; cbn [run]; unfold_tools; cbv zeta;
    rewrite (bind_inr _ _ _ _ _ Hu); one_request;
    (split; [reflexivity | apply carries_read]).
Qed.

(** ** Single operations *)

(** X15.  Hiding a comment (and an ad comment, which is the same code)
    sends one POST with [is_hidden] spelled [true] or [false] in lower
    case, and returns the decoded body as it came: unlike the
    primitives it does not reduce an error payload to its message. *)
Theorem hide_comment_returns_body_unchanged :
  forall (comment_id page_id : string) (is_hidden : bool) (token : value)
         (t t' : trace) (resp : response) (v : value),
    _page_token page_id t = (inr token, t') ->
    remote t' (mkRequest POST (GRAPH_API_BASE ++ "/" ++ comment_id) []
                 [("is_hidden", VStr (if is_hidden then "true" else "false"));
                  ("access_token", token)]) = Arrived resp ->
    body resp = inr v ->
    meta_hide_comment comment_id page_id is_hidden t
    = (inr (_fmt v),
       (t' ++ [mkRequest POST (GRAPH_API_BASE ++ "/" ++ comment_id) []
                 [("is_hidden", VStr (if is_hidden then "true" else "false"));
                  ("access_token", token)]])%list)
    /\ meta_hide_ad_comment comment_id page_id is_hidden t
       = meta_hide_comment comment_id page_id is_hidden t.
Proof.
  intros comment_id page_id is_hidden token t t' resp v Hpt Hr Hb.
  split; [|reflexivity].
  unfold meta_hide_comment. rewrite (bind_inr _ _ _ _ _ Hpt).
  assert (str_bool_lower is_hidden = if is_hidden then "true" else "false") as ->
    by (destruct is_hidden; reflexivity).
  unfold bind, send. rewrite Hr. unfold resp_json. rewrite Hb. reflexivity.
Qed.

(** X16.  Creating a page post sends one form with the message, then the
    link when one is given and not empty, then the credential; a link
    given as the empty string is left out like an absent one. *)
Theorem page_post_form :
  forall (page_id message : string) (link : option string) (token : value)
         (t t' : trace),
    _page_token page_id t = (inr token, t') ->
    snd (meta_create_page_post page_id message link t)
    = (t' ++ [mkRequest POST (GRAPH_API_BASE ++ "/" ++ page_id ++ "/feed") []
                (("message", VStr message) :: optional_entry "link" link
                 ++ [("access_token", token)])])%list.
Proof.
  intros page_id message link token t t' Hpt.
  unfold meta_create_page_post. cbv zeta. rewrite (bind_inr _ _ _ _ _ Hpt).
  rewrite snd_bind_silent by (intros ?; apply silent_ret).
  primitive_trace. unfold request_of, optional_entry.
  destruct link as [l|]; [destruct (truthy (VStr l))|]; reflexivity.
Qed.

(** X17.  The insights read sends [metric] and [period], then [since] and
    [until] each only when given and not empty, then the credential. *)
Theorem insights_window_is_optional :
  forall (page_id metrics period : string) (since until : option string)
         (token : value) (t t' : trace),
    _page_token page_id t = (inr token, t') ->
    snd (meta_get_page_insights page_id metrics period since until t)
    = (t' ++ [mkRequest GET (GRAPH_API_BASE ++ "/" ++ page_id ++ "/insights")
                (("metric", VStr metrics) :: ("period", VStr period)
                 :: optional_entry "since" since ++ optional_entry "until" until
                 ++ [("access_token", token)]) []])%list.
Proof.
  intros page_id metrics period since until token t t' Hpt.
  unfold meta_get_page_insights. cbv zeta. rewrite (bind_inr _ _ _ _ _ Hpt).
  rewrite snd_bind_silent by (intros ?; apply silent_ret).
  primitive_trace. unfold request_of, optional_entry.
  destruct since as [s|]; [destruct (truthy (VStr s))|];
    (destruct until as [u|]; [destruct (truthy (VStr u))|]); reflexivity.
Qed.

(** X18.  Sending a message sends one form whose [recipient] and
    [message] entries are JSON texts: whatever characters the recipient
    id and the message hold, the texts decode to [{"id": recipient_id}]
    and to [{"text": message}]. *)
Theorem message_form_decodes :
  forall (page_id recipient_id message : string) (token : value) (t t' : trace),
    _page_token page_id t = (inr token, t') ->
    exists (r : request) (recipient text : string),
      snd (meta_send_message page_id recipient_id message t) = (t' ++ [r])%list
      /\ req_verb r = POST
      /\ req_url r = GRAPH_API_BASE ++ "/" ++ page_id ++ "/messages"
      /\ keys (req_data r) = ["recipient"; "message"; "messaging_type"; "access_token"]
      /\ dict_get "recipient" (req_data r) = Some (VStr recipient)
      /\ json_loads recipient = Some (VDict [("id", VStr recipient_id)])
      /\ dict_get "message" (req_data r) = Some (VStr text)
      /\ json_loads text = Some (VDict [("text", VStr message)])
      /\ dict_get "messaging_type" (req_data r) = Some (VStr "RESPONSE").
Proof.
  intros page_id recipient_id message token t t' Hpt.
  unfold meta_send_message. cbv zeta. rewrite (bind_inr _ _ _ _ _ Hpt).
  rewrite snd_bind_silent by (intros ?; apply silent_ret).
  eexists _, _, _. split; [exact (perform_trace (Write _ _) _ _)|].
  repeat split; try reflexivity; apply loads_dumps; reflexivity.
Qed.

(** X19.  The token inspection is authorized by the app token when the
    app id and secret are configured and falls back to the user
    credential when they are not; the fallback covers the authorization
    only: asking to inspect the app token without them raises, and
    nothing is sent. *)
Theorem debug_token_authorization :
  forall (user : string) (t : trace),
    _user_token t = (inr user, t) ->
    (forall app,
        _app_token t = (inr app, t) ->
        snd (meta_debug_token "user" t)
        = (t ++ [request_of (Read "debug_token" [("input_token", VStr user)])
                   (VStr app)])%list
        /\ snd (meta_debug_token "app" t)
           = (t ++ [request_of (Read "debug_token" [("input_token", VStr app)])
                      (VStr app)])%list)
    /\ (forall e,
           _app_token t = (inl e, t) ->
           snd (meta_debug_token "user" t)
           = (t ++ [request_of (Read "debug_token" [("input_token", VStr user)])
                      (VStr user)])%list
           /\ meta_debug_token "app" t = (inl e, t)).
Proof.
  intros user t Hu. split.
  - intros app Ha.
    assert (try_except _app_token is_ValueError (fun _ => _user_token) t = (inr app, t))
      as Hauth by (unfold try_except; now rewrite Ha).
    split; unfold meta_debug_token;
      change (String.eqb "user" "user") with true;
      change (String.eqb "app" "user") with false;
      change (String.eqb "app" "app") with true; cbv iota.
    + rewrite (bind_inr _ _ _ _ _ (bind_inr _ _ _ _ _ Hu)). unfold ret at 1.
      rewrite (bind_inr _ _ _ _ _ Hauth).
      rewrite snd_bind_silent by (intros ?; apply silent_ret).
      apply (perform_trace (Read _ _)).
    + rewrite (bind_inr _ _ _ _ _ (bind_inr _ _ _ _ _ Ha)). unfold ret at 1.
      rewrite (bind_inr _ _ _ _ _ Hauth).
      rewrite snd_bind_silent by (intros ?; apply silent_ret).
      apply (perform_trace (Read _ _)).
  - intros e He.
    assert (is_ValueError e = true) as Hv.
    { rewrite app_token_unfold in He.
      destruct (truthy _ && truthy _); [discriminate|]. now injection He as <-. }
    assert (try_except _app_token is_ValueError (fun _ => _user_token) t = (inr user, t))
      as Hauth by (unfold try_except; now rewrite He, Hv).
    split; unfold meta_debug_token;
      change (String.eqb "user" "user") with true;
      change (String.eqb "app" "user") with false;
      change (String.eqb "app" "app") with true; cbv iota.
    + rewrite (bind_inr _ _ _ _ _ (bind_inr _ _ _ _ _ Hu)). unfold ret at 1.
      rewrite (bind_inr _ _ _ _ _ Hauth).
      rewrite snd_bind_silent by (intros ?; apply silent_ret).
      apply (perform_trace (Read _ _)).
    + exact (bind_inl _ _ _ _ _ (bind_inl _ _ _ _ _ He)).
Qed.

(** X20.  The primitives take the decoded body for an object with an
    [error] object in it.  A body that decodes to null, a boolean or a
    number makes each of them raise a [TypeError], and an [error] member
    that is not an object (a text, a number) an [AttributeError]; the
    request has been sent by then. *)
Theorem primitive_raises_on_unexpected_shape :
  forall (p : primitive) (token : value) (t : trace) (resp : response),
    remote t (request_of p token) = Arrived resp ->
    (forall v,
        body resp = inr v ->
        match v with VNone | VBool _ | VInt _ | VFloat _ => True | _ => False end ->
        perform p token t
        = (inl (TypeError ("argument of type '" ++ type_name v ++ "' is not iterable")),
           (t ++ [request_of p token])%list))
    /\ (forall d e,
           body resp = inr (VDict d) ->
           dict_get "error" d = Some e -> (forall o, e <> VDict o) ->
           perform p token t
           = (inl (AttributeError ("'" ++ type_name e
                                   ++ "' object has no attribute 'get'")),
              (t ++ [request_of p token])%list)).
Proof.
  intros p token t resp Hr. split.
  - intros v Hb Hkind. rewrite (perform_answer p token t resp Hr).
    unfold bind, resp_json. rewrite Hb.
    destruct v; try contradiction; reflexivity.
  - intros d e Hb He Hno. rewrite (perform_answer p token t resp Hr).
    unfold bind, resp_json, py_in, py_item, dict_in. rewrite Hb. cbn [ret].
    rewrite He. destruct e; try reflexivity. now destruct (Hno entries).
Qed.

(** X21.  The status filter is compared and sent in upper case: two
    spellings with the same upper-case form make the same call, in each
    of the three listings that take one. *)
Theorem status_filter_is_caseless :
  forall (s1 s2 : string),
    upper s1 = upper s2 ->
    (forall ad_account_id limit,
        meta_get_ad_campaigns ad_account_id s1 limit
        = meta_get_ad_campaigns ad_account_id s2 limit)
    /\ (forall ad_account_id campaign_id limit,
           meta_get_ad_adsets ad_account_id campaign_id s1 limit
           = meta_get_ad_adsets ad_account_id campaign_id s2 limit)
    /\ (forall ad_account_id campaign_id adset_id limit,
           meta_get_ads ad_account_id campaign_id adset_id s1 limit
           = meta_get_ads ad_account_id campaign_id adset_id s2 limit).
Proof.
  intros s1 s2 H. repeat split; intros;
    unfold meta_get_ad_campaigns, meta_get_ad_adsets, meta_get_ads;
    rewrite H; reflexivity.
Qed.

(** ** Decoding what [_fmt] wrote *)

Section RoundTrip.

Variable ensure_ascii : bool.
Variable indent : option nat.

Lemma scan_escape_char_any (c : ascii) (tail : string) (t r : string) :
  scan_string tail = Some (t, r) ->
  scan_string (escape_char ensure_ascii c ++ tail) = Some (String c t, r).
Proof.
  intros H. destruct ensure_ascii; [now apply scan_escape_char|].
  destruct c as [[|] [|] [|] [|] [|] [|] [|] [|]];
    match goal with
    | |- context [escape_char false ?c] =>
        let e := eval vm_compute in (escape_char false c) in
        change (escape_char false c) with e
    end;
    cbn; rewrite H; reflexivity.
Qed.

Lemma scan_escape_any (s rest : string) :
  scan_string (escape ensure_ascii s ++ String quote rest) = Some (s, rest).
Proof.
  induction s as [|c s IH]; [reflexivity|].
  cbn [escape]. rewrite append_assoc. now apply scan_escape_char_any.
Qed.

Lemma encode_string_followed (s rest : string) :
  encode_string ensure_ascii s ++ rest
  = String quote (escape ensure_ascii s ++ String quote rest).
Proof. unfold encode_string. cbn [append]. now rewrite append_assoc. Qed.

Lemma skip_ws_spaces (n : nat) (s : string) : skip_ws (spaces n ++ s) = skip_ws s.
Proof. induction n as [|n IH]; [reflexivity | exact IH]. Qed.

Lemma skip_ws_break (level : nat) (s : string) :
  skip_ws (break indent level ++ s) = skip_ws s.
Proof.
  unfold break. destruct indent as [n|]; [|reflexivity].
  cbn [append]. change (skip_ws (String newline ?x)) with (skip_ws x).
  apply skip_ws_spaces.
Qed.

(** The separator is a comma and then blanks. *)
Lemma separator_shape (level : nat) :
  exists w,
    (forall s, item_separator indent level ++ s = String "," (w ++ s))
    /\ (forall s, skip_ws (w ++ s) = skip_ws s).
Proof.
  unfold item_separator. destruct indent as [n|] eqn:E.
  - exists (break (Some n) level). split; [reflexivity|].
    intros s. rewrite <- E. apply skip_ws_break.
  - exists " ". split; reflexivity.
Qed.

Lemma dumps_head_any (v : value) (level : nat) :
  plain v = true ->
  exists c s,
    dumps_at ensure_ascii indent level v = String c s
    /\ is_ws c = false /\ Ascii.eqb c "]" = false /\ Ascii.eqb c "}" = false.
Proof.
  destruct v as [|[|]| | |s|[|x xs]|[|e es]]; try discriminate; intros _;
    cbn [dumps_at encode_string append]; eexists _, _;
    (split; [reflexivity | repeat split]).
Qed.

Lemma skip_ws_dumps_any (v : value) (level : nat) (rest : string) :
  plain v = true ->
  skip_ws (dumps_at ensure_ascii indent level v ++ rest)
  = dumps_at ensure_ascii indent level v ++ rest.
Proof.
  intros H. destruct (dumps_head_any v level H) as (c & s & -> & Hws & _).
  now apply skip_ws_head.
Qed.

Lemma join_then {A : Type} (sep : string) (g : A -> string) (x : A) (xs : list A)
    (R : string) :
  join sep (map g (x :: xs)) ++ R =
  g x ++ match xs with
         | [] => R
         | _ :: _ => sep ++ join sep (map g xs) ++ R
         end.
Proof.
  destruct xs as [|y ys]; cbn [map join]; [reflexivity|].
  rewrite !append_assoc. reflexivity.
Qed.

Lemma list_text (x : value) (xs : list value) (level : nat) (rest : string) :
  dumps_at ensure_ascii indent level (VList (x :: xs)) ++ rest =
  String "[" (break indent (S level)
              ++ join (item_separator indent (S level))
                   (map (dumps_at ensure_ascii indent (S level)) (x :: xs))
              ++ break indent level ++ String "]" rest).
Proof.
  cbn [dumps_at]. cbn [append]. rewrite !append_assoc. reflexivity.
Qed.

Lemma dict_text (e : string * value) (es : list (string * value))
    (level : nat) (rest : string) :
  dumps_at ensure_ascii indent level (VDict (e :: es)) ++ rest =
  String "{" (break indent (S level)
              ++ join (item_separator indent (S level))
                   (map (formatted_entry ensure_ascii indent (S level)) (e :: es))
              ++ break indent level ++ String "}" rest).
Proof.
  cbn [dumps_at]. cbn [append]. rewrite !append_assoc. reflexivity.
Qed.

(** The steps of the decoder over blanks. *)
Lemma scan_open_list_ws (f : nat) (inner : string) (c : ascii) (s : string) :
  skip_ws inner = String c s -> Ascii.eqb c "]" = false ->
  scan_value (S f) (String "[" inner) =
  match scan_items f (String c s) with
  | Some (items, r) => Some (VList items, r)
  | None => None
  end.
Proof.
  intros Hws Hc. cbn [scan_value Ascii.eqb Bool.eqb quote]. rewrite Hws, Hc.
  reflexivity.
Qed.

Lemma scan_open_dict_ws (f : nat) (inner : string) (c : ascii) (s : string) :
  skip_ws inner = String c s -> Ascii.eqb c "}" = false ->
  scan_value (S f) (String "{" inner) =
  match scan_members f (String c s) with
  | Some (pairs, r) => Some (VDict (dict_merge [] pairs), r)
  | None => None
  end.
Proof.
  intros Hws Hc. cbn [scan_value Ascii.eqb Bool.eqb quote]. rewrite Hws, Hc.
  reflexivity.
Qed.

Lemma scan_items_last_ws (f : nat) (s tail rest : string) (v : value) :
  scan_value f s = Some (v, tail) -> skip_ws tail = String "]" rest ->
  scan_items (S f) s = Some ([v], rest).
Proof. intros H Ht. cbn [scan_items]. rewrite H, Ht. reflexivity. Qed.

Lemma scan_items_more_ws (f : nat) (s w s' r : string) (v : value) (vs : list value) :
  scan_value f s = Some (v, String "," (w ++ s')) ->
  skip_ws (w ++ s') = s' ->
  scan_items f s' = Some (vs, r) ->
  scan_items (S f) s = Some (v :: vs, r).
Proof.
  intros H Hs H'. cbn [scan_items]. rewrite H.
  change (skip_ws (String "," (w ++ s'))) with (String "," (w ++ s')).
  cbn [Ascii.eqb Bool.eqb]. rewrite Hs, H'. reflexivity.
Qed.

Lemma scan_members_key_any (f : nat) (k s : string) :
  skip_ws s = s ->
  scan_members (S f) (encode_string ensure_ascii k ++ ": " ++ s) =
  match scan_value f s with
  | None => None
  | Some (v, r) =>
      match skip_ws r with
      | EmptyString => None
      | String c rest' =>
          if Ascii.eqb c "}" then Some ([(k, v)], rest')
          else if Ascii.eqb c "," then
            match scan_members f (skip_ws rest') with
            | Some (kvs, r') => Some ((k, v) :: kvs, r')
            | None => None
            end
          else None
      end
  end.
Proof.
  intros Hs. rewrite encode_string_followed.
  cbn [scan_members Ascii.eqb Bool.eqb quote]. rewrite scan_escape_any.
  cbn [append].
  change (skip_ws (String ":" (String " " s))) with (String ":" (String " " s)).
  cbn [Ascii.eqb Bool.eqb].
  change (skip_ws (String " " s)) with (skip_ws s).
  rewrite Hs. reflexivity.
Qed.

Lemma scan_members_last_ws (f : nat) (k s tail rest : string) (v : value) :
  skip_ws s = s ->
  scan_value f s = Some (v, tail) -> skip_ws tail = String "}" rest ->
  scan_members (S f) (encode_string ensure_ascii k ++ ": " ++ s) = Some ([(k, v)], rest).
Proof.
  intros Hs H Ht. rewrite (scan_members_key_any f k s Hs), H, Ht. reflexivity.
Qed.

Lemma scan_members_more_ws (f : nat) (k s w s' r : string) (v : value)
    (kvs : list (string * value)) :
  skip_ws s = s ->
  scan_value f s = Some (v, String "," (w ++ s')) ->
  skip_ws (w ++ s') = s' ->
  scan_members f s' = Some (kvs, r) ->
  scan_members (S f) (encode_string ensure_ascii k ++ ": " ++ s) = Some ((k, v) :: kvs, r).
Proof.
  intros Hs H Hs' H'. rewrite (scan_members_key_any f k s Hs), H.
  change (skip_ws (String "," (w ++ s'))) with (String "," (w ++ s')).
  cbn [Ascii.eqb Bool.eqb]. rewrite Hs', H'. reflexivity.
Qed.

Lemma items_head (x : value) (xs : list value) (level : nat) (R : string) :
  plain x = true ->
  exists c s,
    join (item_separator indent level) (map (dumps_at ensure_ascii indent level) (x :: xs))
    ++ R = String c s
    /\ is_ws c = false /\ Ascii.eqb c "]" = false.
Proof.
  intros Hx. rewrite join_then.
  destruct (dumps_head_any x level Hx) as (c & s & -> & Hws & Hc & _).
  cbn [append]. eexists _, _. split; [reflexivity | now split].
Qed.

Lemma entries_head (e : string * value) (es : list (string * value)) (level : nat)
    (R : string) :
  exists s,
    join (item_separator indent level)
      (map (formatted_entry ensure_ascii indent level) (e :: es)) ++ R
    = String quote s.
Proof.
  rewrite join_then. unfold formatted_entry at 1. unfold encode_string.
  cbn [append]. eexists. reflexivity.
Qed.

(** Entries without a repeated key, set one after the other, are the
    entries in their order. *)
Lemma set_after (k : string) (v : value) (d : dict) :
  ~ In k (keys d) -> dict_set k v d = (d ++ [(k, v)])%list.
Proof.
  induction d as [|[k' v'] d IH]; cbn [dict_set keys map fst app In]; intros H;
    [reflexivity|].
  destruct (String.eqb k k') eqn:E.
  - apply String.eqb_eq in E. exfalso. apply H. left. now symmetry.
  - f_equal. apply IH. intros Hin. apply H. right. exact Hin.
Qed.

Lemma merge_after (d acc : dict) :
  NoDup (keys (acc ++ d)%list) -> dict_merge acc d = (acc ++ d)%list.
Proof.
  revert acc. induction d as [|[k v] d IH]; intros acc Hnd.
  - cbn. now rewrite app_nil_r.
  - change (dict_merge acc ((k, v) :: d)) with (dict_merge (dict_set k v acc) d).
    assert ((acc ++ (k, v) :: d) = ((acc ++ [(k, v)]) ++ d))%list as Heq
        by (now rewrite <- app_assoc).
    rewrite Heq in Hnd |- *. rewrite set_after.
    + now apply IH.
    + unfold keys in Hnd. rewrite !map_app in Hnd.
      apply NoDup_app_remove_r in Hnd. apply NoDup_remove_2 in Hnd.
      rewrite app_nil_r in Hnd. exact Hnd.
Qed.

Lemma merge_of_distinct (d : dict) :
  distinct (keys d) = true -> dict_merge [] d = d.
Proof. intros H. apply (merge_after d []). now apply distinct_NoDup. Qed.

(** With enough fuel, the decoder reads the text of a plain object back
    as that object and stops right after it, whatever the settings of
    the encoder were. *)
Lemma scan_formatted (fuel : nat) :
  (forall v level rest,
      plain v = true -> (need v <= fuel)%nat ->
      scan_value fuel (dumps_at ensure_ascii indent level v ++ rest) = Some (v, rest))
  /\ (forall x xs level tail rest,
         forallb plain (x :: xs) = true -> (need_items (x :: xs) <= fuel)%nat ->
         skip_ws tail = String "]" rest ->
         scan_items fuel
           (join (item_separator indent level)
              (map (dumps_at ensure_ascii indent level) (x :: xs)) ++ tail)
         = Some (x :: xs, rest))
  /\ (forall e es level tail rest,
         forallb (fun kv => plain (snd kv)) (e :: es) = true ->
         (need_entries (e :: es) <= fuel)%nat ->
         skip_ws tail = String "}" rest ->
         scan_members fuel
           (join (item_separator indent level)
              (map (formatted_entry ensure_ascii indent level) (e :: es)) ++ tail)
         = Some (e :: es, rest)).
Proof.
  induction fuel as [|f (IHv & IHi & IHm)].
  - split; [|split].
    + intros v level rest _ H. pose proof (need_positive v). lia.
    + intros x xs level tail rest _ H. cbn [need_items fold_right] in H. lia.
    + intros e es level tail rest _ H. cbn [need_entries fold_right] in H. lia.
  - split; [|split].
    + intros v level rest Hp Hn.
      destruct v as [|[|]| | |s|[|x xs]|[|e es]]; try discriminate; try reflexivity.
      * cbn [dumps_at]. rewrite encode_string_followed.
        cbn [scan_value Ascii.eqb Bool.eqb quote]. now rewrite scan_escape_any.
      * rewrite list_text. cbn [plain] in Hp.
        assert (plain x = true) as Hx
            by (cbn [forallb] in Hp; now apply andb_true_iff in Hp).
        destruct (items_head x xs (S level) (break indent level ++ String "]" rest) Hx)
          as (c & s' & Hc & Hws & Hclose).
        rewrite (scan_open_list_ws f _ c s');
          [|rewrite skip_ws_break, Hc; now apply skip_ws_head | exact Hclose].
        rewrite <- Hc. rewrite (IHi x xs (S level) _ rest); [reflexivity | exact Hp | |].
        -- cbn [need] in Hn. unfold need_items. lia.
        -- now rewrite skip_ws_break.
      * rewrite dict_text. cbn [plain] in Hp.
        apply andb_true_iff in Hp. destruct Hp as [Hp Hd].
        destruct (entries_head e es (S level) (break indent level ++ String "}" rest))
          as (s' & Hc).
        rewrite (scan_open_dict_ws f _ quote s');
          [|rewrite skip_ws_break, Hc; reflexivity | reflexivity].
        rewrite <- Hc. rewrite (IHm e es (S level) _ rest); [| exact Hp | |].
        -- now rewrite (merge_of_distinct (e :: es) Hd).
        -- cbn [need] in Hn. unfold need_entries. lia.
        -- now rewrite skip_ws_break.
    + intros x xs level tail rest Hp Hn Ht. rewrite join_then.
      cbn [forallb] in Hp. apply andb_true_iff in Hp. destruct Hp as [Hx Hxs].
      cbn [need_items fold_right] in Hn. fold (need_items xs) in Hn.
      destruct xs as [|y ys].
      * apply (scan_items_last_ws f _ tail); [|exact Ht]. apply IHv; [exact Hx | lia].
      * destruct (separator_shape level) as (w & Hsep & Hw). rewrite Hsep.
        eapply scan_items_more_ws.
        -- apply IHv; [exact Hx | lia].
        -- rewrite Hw.
           assert (plain y = true) as Hy
               by (cbn [forallb] in Hxs; now apply andb_true_iff in Hxs).
           destruct (items_head y ys level tail Hy) as (c & s' & -> & Hws & _).
           now apply skip_ws_head.
        -- apply IHi; [exact Hxs | lia | exact Ht].
    + intros [k v] es level tail rest Hp Hn Ht. rewrite join_then.
      cbn [forallb snd] in Hp. apply andb_true_iff in Hp. destruct Hp as [He Hes].
      cbn [need_entries fold_right snd] in Hn. fold (need_entries es) in Hn.
      unfold formatted_entry at 1. cbn [fst snd]. rewrite !append_assoc.
      destruct es as [|y ys].
      * apply (scan_members_last_ws f k _ tail);
          [now apply skip_ws_dumps_any | | exact Ht].
        apply IHv; [exact He | lia].
      * destruct (separator_shape level) as (w & Hsep & Hw). rewrite Hsep.
        eapply scan_members_more_ws.
        -- now apply skip_ws_dumps_any.
        -- apply IHv; [exact He | lia].
        -- rewrite Hw. destruct (entries_head y ys level tail) as (s' & ->).
           reflexivity.
        -- apply IHm; [exact Hes | lia | exact Ht].
Qed.

(** A text made of parts is at least as long as the fuel its parts need. *)
Lemma need_below_join {A : Type} (m : A -> nat) (g : A -> string) (sep : string)
    (l : list A) :
  (forall x, In x l -> (S (m x) <= String.length (g x))%nat) ->
  (fold_right (fun x acc => S (Nat.max (m x) acc)) O l
   <= String.length (join sep (map g l)))%nat.
Proof.
  induction l as [|x l IH]; intros H; [cbn; lia|].
  assert (S (m x) <= String.length (g x))%nat as Hx by (apply H; now left).
  assert (fold_right (fun x acc => S (Nat.max (m x) acc)) O l
          <= String.length (join sep (map g l)))%nat as Hl
      by (apply IH; intros y Hy; apply H; now right).
  cbn [fold_right]. destruct l as [|y l].
  - cbn [map join fold_right] in *. lia.
  - change (join sep (map g (x :: y :: l)))
      with (g x ++ sep ++ join sep (map g (y :: l))).
    rewrite !length_append. lia.
Qed.

Lemma need_below_formatted (n : nat) :
  forall v level,
    (need v <= n)%nat -> plain v = true ->
    (S (need v) <= String.length (dumps_at ensure_ascii indent level v))%nat.
Proof.
  induction n as [|n IH]; intros v level Hn Hp.
  { pose proof (need_positive v). lia. }
  destruct v as [|[|]| | |s|items|entries]; try discriminate;
    try (cbn; lia).
  - cbn [dumps_at]. unfold encode_string. cbn [String.length need].
    rewrite length_append. cbn [String.length]. lia.
  - destruct items as [|x xs]; [cbn; lia|].
    cbn [need] in Hn. cbn [plain] in Hp.
    pose proof (need_below_join need (dumps_at ensure_ascii indent (S level))
                  (item_separator indent (S level)) (x :: xs)) as Hj.
    rewrite <- (append_nil_r (dumps_at ensure_ascii indent level (VList (x :: xs)))).
    rewrite list_text. cbn [need String.length]. rewrite !length_append.
    cbn [String.length].
    assert (forall y, In y (x :: xs) ->
                      (S (need y)
                       <= String.length (dumps_at ensure_ascii indent (S level) y))%nat)
      as Hall.
    { intros y Hy. apply IH.
      - clear - Hn Hy. revert Hn. generalize (x :: xs) Hy. clear.
        induction l as [|z l IHl]; intros Hin Hn; [destruct Hin|].
        cbn [fold_right] in Hn. destruct Hin as [->|Hin]; [lia|].
        apply IHl; [exact Hin | lia].
      - rewrite forallb_forall in Hp. now apply Hp. }
    specialize (Hj Hall). lia.
  - destruct entries as [|e es]; [cbn; lia|].
    cbn [need] in Hn. cbn [plain] in Hp.
    apply andb_true_iff in Hp. destruct Hp as [Hp _].
    pose proof (need_below_join (fun kv : string * value => need (snd kv))
                  (formatted_entry ensure_ascii indent (S level))
                  (item_separator indent (S level)) (e :: es)) as Hj.
    rewrite <- (append_nil_r (dumps_at ensure_ascii indent level (VDict (e :: es)))).
    rewrite dict_text. cbn [need String.length]. rewrite !length_append.
    cbn [String.length].
    assert (forall y, In y (e :: es) ->
                      (S (need (snd y))
                       <= String.length (formatted_entry ensure_ascii indent (S level) y))%nat)
      as Hall.
    { intros y Hy. unfold formatted_entry. rewrite !length_append.
      assert (S (need (snd y))
              <= String.length (dumps_at ensure_ascii indent (S level) (snd y)))%nat;
        [|lia].
      apply IH.
      - clear - Hn Hy. revert Hn. generalize (e :: es) Hy. clear.
        induction l as [|z l IHl]; intros Hin Hn; [destruct Hin|].
        cbn [fold_right] in Hn. destruct Hin as [->|Hin]; [lia|].
        apply IHl; [exact Hin | lia].
      - rewrite forallb_forall in Hp. now apply Hp. }
    specialize (Hj Hall). lia.
Qed.

End RoundTrip.

(** X22.  What the encoder writes, the decoder reads back: for an object
    made of null, booleans, texts, lists and dicts without a repeated
    key, the text written under any settings decodes to the object.  In
    particular the document [_fmt] gives for such data, an error result
    among them, decodes to that data, whatever characters its texts
    hold. *)
Theorem formatted_document_decodes :
  forall (v : value),
    plain v = true ->
    (forall ensure_ascii indent,
        json_loads (dumps_at ensure_ascii indent 0 v) = Some v)
    /\ json_loads (_fmt v) = Some v.
Proof.
  intros v Hp.
  assert (forall ensure_ascii indent,
             json_loads (dumps_at ensure_ascii indent 0 v) = Some v) as H.
  { intros ea ind. unfold json_loads.
    pose proof (skip_ws_dumps_any ea ind v 0 EmptyString Hp) as Hws.
    rewrite append_nil_r in Hws. rewrite Hws.
    pose proof (need_below_formatted ea ind (need v) v 0 (Nat.le_refl _) Hp) as Hlen.
    destruct (scan_formatted ea ind (S (String.length (dumps_at ea ind 0 v))))
      as (Hv & _ & _).
    specialize (Hv v 0%nat EmptyString Hp). rewrite append_nil_r in Hv.
    rewrite Hv by lia. reflexivity. }
  split; [exact H | apply H].
Qed.

(** ** The document an operation returns *)

(** One step of a body whose primitive is answered with an object. *)
Ltac answered H :=
  cbv zeta;
  match goal with
  | |- context [_graph_get ?e ?p ?tk] =>
      rewrite (bind_inr (_graph_get e p tk) _ _ _ _ (H (Read e p) tk))
  | |- context [_graph_post ?e ?p ?tk] =>
      rewrite (bind_inr (_graph_post e p tk) _ _ _ _ (H (Write e p) tk))
  | |- context [_graph_delete ?e ?tk] =>
      rewrite (bind_inr (_graph_delete e tk) _ _ _ _ (H (Remove e) tk))
  end.

Lemma result_of_answered_operation (op : operation) (t : trace) (answer : value) :
  (by_user op = true /\ exists user, _user_token t = (inr user, t))
  \/ (sends_by_itself op = false
      /\ exists p tok, page_of op = Some p /\ _page_token p t = (inr tok, t)) ->
  (forall p token,
      perform p token t = (inr answer, (t ++ [request_of p token])%list)) ->
  fst (run op t) = inr (_fmt answer).
Proof.
  intros Hcred H. destruct Hcred as [(Hop & user & Hu)|(Hop & p & tok & Hp & Hpt)].
  - destruct op; try discriminate; cbn [run]; unfold_tools; cbv zeta;
      rewrite (bind_inr _ _ _ _ _ Hu); answered H; reflexivity.
  - destruct op; cbn [page_of] in Hp; try discriminate; try (cbn in Hop; discriminate);
      injection Hp as ->; cbn [run]; unfold_tools; cbv zeta;
      rewrite (bind_inr _ _ _ _ _ Hpt); answered H; reflexivity.
Qed.

(** X23.  The document of an operation that goes through a primitive,
    once its credential is resolved without a request: when the remote
    side answers with an object that has no [error] member the
    operation returns that object formatted, and when it answers with
    an error object that has a [message] text the operation returns the
    uniform error result with that text, the same document a local
    error result is. *)
Theorem result_document_of_an_operation :
  forall (op : operation) (t : trace) (resp : response) (d : dict),
    (by_user op = true /\ exists user, _user_token t = (inr user, t))
    \/ (sends_by_itself op = false
        /\ exists p tok, page_of op = Some p /\ _page_token p t = (inr tok, t)) ->
    (forall r, remote t r = Arrived resp) ->
    body resp = inr (VDict d) ->
    (dict_get "error" d = None -> fst (run op t) = inr (_fmt (VDict d)))
    /\ (forall e msg,
           dict_get "error" d = Some (VDict e) ->
           dict_get "message" e = Some (VStr msg) ->
           fst (run op t) = inr (error_result msg)).
Proof.
  intros op t resp d Hcred Hr Hb. split.
  - intros Hnone. apply (result_of_answered_operation op t (VDict d) Hcred).
    intros p token. now apply (perform_plain p token t resp d).
  - intros e msg He Hmsg. unfold error_result.
    apply (result_of_answered_operation op t _ Hcred). intros p token.
    now apply (perform_error_message p token t resp d e).
Qed.

End Server.

(** * Concrete runs *)

(** ** Where the claims as stated fail *)


(** C2 as stated fails: the conversations listing is no Instagram media
    listing, yet a limit of 100 is sent as 50, not as 100. *)
Lemma conversations_ceiling_counterexample :
  map (fun r => dict_get "limit" (req_params r))
    (snd (run mapped_environ entity_remote (GetConversations "page1" 100) []))
  = [Some (VStr "50")]
  /\ str_int (clamp 100 (stated_ceiling (GetConversations "page1" 100))) = "100".
Proof. split; vm_compute; reflexivity. Qed.

(** C3 as stated fails: the ad-set listing with the status ["all"] and a
    campaign id sends a [filtering] parameter, the text of the array
    that holds the campaign clause. *)
Lemma all_status_with_identity_counterexample :
  caseless_all "all" = true
  /\ map (fun r => dict_get "filtering" (req_params r))
       (snd (run user_environ entity_remote
               (GetAdAdsets "act_1" (Some "c1") "all" 25) []))
     = [Some (VStr (json_dumps (VList [identity_clause "campaign.id" "c1"])))]
  /\ json_loads (json_dumps (VList [identity_clause "campaign.id" "c1"]))
     = Some (VList [identity_clause "campaign.id" "c1"]).
Proof. repeat split; vm_compute; reflexivity. Qed.

(** C4 as stated fails: a campaign id that is supplied but empty gets no
    clause; the array sent holds the status clause alone. *)
Lemma empty_identity_counterexample :
  map (fun r => dict_get "filtering" (req_params r))
    (snd (run user_environ entity_remote
            (GetAdAdsets "act_1" (Some EmptyString) "ACTIVE" 25) []))
  = [Some (VStr (json_dumps (VList [status_clause "ACTIVE"])))]
  /\ json_loads (json_dumps (VList [status_clause "ACTIVE"]))
     = Some (VList [status_clause "ACTIVE"]).
Proof. split; vm_compute; reflexivity. Qed.

(** C5 as stated fails: [page2] is a key of the static map, with an
    empty token; resolving it sends the exchange request and returns
    the exchanged token, not the mapped value. *)
Lemma empty_mapped_token_counterexample :
  _page_tokens mapped_environ []
  = (inr (VDict [("page1", VStr "PAGE-TOKEN"); ("page2", VStr EmptyString)]), [])
  /\ _page_token mapped_environ entity_remote "page2" []
     = (inr (VStr "EXCHANGED"), [exchange_request "page2" "USER-TOKEN"]).
Proof. split; vm_compute; reflexivity. Qed.

(** C6 as stated fails: with no user credential, resolving a page the
    static map does not hold sends no request at all, though the remote
    side would have answered. *)
Lemma exchange_without_credential_counterexample :
  _page_tokens bare_environ [] = (inr (VDict []), [])
  /\ _page_token bare_environ entity_remote "page1" []
     = (inl (exchange_error "page1" "META_SYSTEM_USER_TOKEN env var is not set"), []).
Proof. split; vm_compute; reflexivity. Qed.


(** ** The theorems at concrete inputs *)


(** C2 at the Instagram media listing with a limit of 500: the request
    is sent, with the limit 50, and its answer is the result. *)
Lemma limit_is_clamped_witness :
  exists r,
    snd (run mapped_environ entity_remote (GetIgMedia "ig1" "page1" 500) [])
    = ([] ++ [r])%list
    /\ req_verb r = GET
    /\ dict_get "limit" (req_params r) = Some (VStr "50")
    /\ fst (run mapped_environ entity_remote (GetIgMedia "ig1" "page1" 500) [])
       = inr (_fmt (VDict [("access_token", VStr "EXCHANGED"); ("id", VStr "1")])).
Proof.
  destruct (limit_is_clamped mapped_environ entity_remote
              (GetIgMedia "ig1" "page1" 500) 500 [] eq_refl) as (_ & _ & H & _).
  destruct (H (_page_token mapped_environ entity_remote "page1") (VStr "PAGE-TOKEN") []
              eq_refl) as (r & Ht & Hv & Hl & Hout);
    [vm_compute; reflexivity|].
  exists r. split; [exact Ht|]. split; [exact Hv|]. split; [exact Hl|].
  apply (Hout 200%Z EmptyString); reflexivity.
Defined.

(** C3 at the campaigns listing with the status ["paused"]. *)
Lemma status_filter_encoding_witness :
  exists r text rest,
    snd (run user_environ entity_remote (GetAdCampaigns "act_1" "paused" 25) [])
    = ([] ++ [r])%list
    /\ dict_get "filtering" (req_params r) = Some (VStr text)
    /\ json_loads text = Some (VList (status_clause "paused" :: rest)).
Proof.
  destruct (status_filter_encoding user_environ entity_remote
              (GetAdCampaigns "act_1" "paused" 25) "paused" "USER-TOKEN" []
              eq_refl eq_refl) as (r & Ht & _ & _ & H).
  destruct (H eq_refl) as (text & rest & Hf & Hl).
  exists r, text, rest. repeat split; assumption.
Defined.

(** C4 at the ads listing with a status, a campaign id and an ad set id. *)
Lemma filter_clauses_in_order_witness :
  exists r text,
    snd (run user_environ entity_remote
           (GetAds "act_1" (Some "c1") (Some "s1") "Active" 25) [])
    = ([] ++ [r])%list
    /\ dict_get "filtering" (req_params r) = Some (VStr text)
    /\ json_loads text
       = Some (VList [status_clause "Active"; identity_clause "campaign.id" "c1";
                      identity_clause "adset.id" "s1"]).
Proof.
  destruct (filter_clauses_in_order user_environ entity_remote
              (GetAds "act_1" (Some "c1") (Some "s1") "Active" 25) "Active"
              "USER-TOKEN" [] eq_refl eq_refl) as (r & Ht & _ & H & _).
  destruct H as (text & Hf & Hl); [discriminate|].
  exists r, text. repeat split; assumption.
Defined.

(** C5 at a page the static map gives a token, and at one it gives an
    empty token. *)
Lemma mapped_page_token_witness :
  _page_token mapped_environ entity_remote "page1" [] = (inr (VStr "PAGE-TOKEN"), [])
  /\ _page_token mapped_environ entity_remote "page2" []
     = _exchange_page_token mapped_environ entity_remote "page2" [].
Proof.
  assert (_page_tokens mapped_environ []
          = (inr (VDict [("page1", VStr "PAGE-TOKEN"); ("page2", VStr EmptyString)]),
             [])) as Hm by (vm_compute; reflexivity).
  split.
  - destruct (mapped_page_token_needs_no_exchange mapped_environ entity_remote "page1"
                [("page1", VStr "PAGE-TOKEN"); ("page2", VStr EmptyString)] [] Hm)
      as (H & _).
    apply (H "PAGE-TOKEN"); [reflexivity | discriminate].
  - destruct (mapped_page_token_needs_no_exchange mapped_environ entity_remote "page2"
                [("page1", VStr "PAGE-TOKEN"); ("page2", VStr EmptyString)] [] Hm)
      as (_ & H & _).
    apply (H (VStr EmptyString)); reflexivity.
Defined.

(** C6 at a page the static map does not hold. *)
Lemma unmapped_page_token_witness :
  snd (_page_token mapped_environ entity_remote "page9" [])
  = [exchange_request "page9" "USER-TOKEN"]
  /\ fst (_page_token mapped_environ entity_remote "page9" []) = inr (VStr "EXCHANGED").
Proof.
  assert (_page_tokens mapped_environ []
          = (inr (VDict [("page1", VStr "PAGE-TOKEN"); ("page2", VStr EmptyString)]),
             [])) as Hm by (vm_compute; reflexivity).
  destruct (unmapped_page_token_is_exchanged mapped_environ entity_remote "page9"
              [("page1", VStr "PAGE-TOKEN"); ("page2", VStr EmptyString)]
              [] Hm eq_refl) as (H & _).
  destruct (H "USER-TOKEN" eq_refl) as (Ht & Hok & _).
  split; [exact Ht|].
  apply (Hok 200%Z EmptyString
           [("access_token", VStr "EXCHANGED"); ("id", VStr "1")]);
    [reflexivity | reflexivity | reflexivity | discriminate].
Defined.


(** C10 at a misspelled selector: the call is the call under ["user"],
    and it sends one request, which carries the user credential. *)
Lemma unknown_selector_witness :
  meta_graph_api_call user_environ entity_remote "me" "GET" "usr" None None None None []
  = meta_graph_api_call user_environ entity_remote "me" "GET" "user" None None None
      None []
  /\ exists r,
       snd (meta_graph_api_call user_environ entity_remote "me" "GET" "usr" None None
              None None [])
       = ([] ++ [r])%list
       /\ carries (VStr "USER-TOKEN") r.
Proof.
  destruct (unknown_selector_uses_user_credential user_environ entity_remote
              "me" "GET" "usr" None None None None [])
    as (Hsame & _ & _ & Hsent); [discriminate | discriminate |].
  split; [exact Hsame|].
  apply (Hsent "USER-TOKEN"); [vm_compute; reflexivity | exact I | left; reflexivity].
Defined.

(** ** The further properties at concrete inputs *)

(** X2 at the page listing. *)
Lemma read_only_operations_witness :
  exists new,
    snd (run user_environ entity_remote ListPages []) = ([] ++ new)%list
    /\ Forall (fun r => req_verb r = GET) new.
Proof.
  exact (read_only_operations_only_get user_environ entity_remote ListPages []
           eq_refl).
Defined.

(** X3 at the deletion of a page post. *)
Lemma delete_only_when_destructive_witness :
  exists t' r,
    snd (run mapped_environ entity_remote (DeletePagePost "1_2" "page1") [])
    = (t' ++ [r])%list
    /\ req_verb r = DELETE.
Proof.
  destruct (delete_only_when_destructive mapped_environ entity_remote
              (DeletePagePost "1_2" "page1") [] eq_refl) as (_ & H).
  assert (exists out,
             fst (run mapped_environ entity_remote (DeletePagePost "1_2" "page1") [])
             = inr out) as (out & Hout)
      by (vm_compute; eexists; reflexivity).
  exact (H eq_refl out Hout).
Defined.

(** X5 at a page map that is no JSON text. *)
Lemma unusable_page_map_witness :
  _page_token broken_map_environ entity_remote "page1" []
  = _exchange_page_token broken_map_environ entity_remote "page1" [].
Proof.
  apply (unusable_page_map_means_exchange broken_map_environ entity_remote "page1" []).
  right. vm_compute. reflexivity.
Defined.

(** X6 at a page map that is a JSON array. *)
Lemma page_map_that_is_no_object_witness :
  _page_token list_map_environ entity_remote "page1" []
  = (inl (AttributeError "'list' object has no attribute 'get'"), []).
Proof.
  apply (page_map_that_is_no_object_raises list_map_environ entity_remote "page1"
           (VList []) []); [vm_compute; reflexivity | discriminate].
Defined.

(** X7 at a page the static map does not hold. *)
Lemma exchanged_token_is_not_cached_witness :
  snd ((first <- _page_token mapped_environ entity_remote "page9" ;;
        _page_token mapped_environ entity_remote "page9") [])
  = [exchange_request "page9" "USER-TOKEN"; exchange_request "page9" "USER-TOKEN"].
Proof.
  apply (exchanged_token_is_not_cached mapped_environ entity_remote "page9"
           [("page1", VStr "PAGE-TOKEN"); ("page2", VStr EmptyString)]
           "USER-TOKEN" [] (VStr "EXCHANGED")); vm_compute; reflexivity.
Defined.

(** X9 at a write whose body, parameters and fields overlap. *)
Lemma write_call_layers_witness :
  exists form,
    snd (meta_graph_api_call user_environ entity_remote "me/feed" "post" "user" None
           (Some "id")
           (Some (json_dumps (VDict [("message", VStr "P")])))
           (Some (json_dumps (VDict [("message", VStr "B"); ("link", VStr "L");
                                     ("access_token", VStr "MINE")])))
           [])
    = [mkRequest POST (GRAPH_API_BASE ++ "/me/feed") [] form]
    /\ dict_get "access_token" form = Some (VStr "USER-TOKEN")
    /\ dict_get "message" form = Some (VStr "P")
    /\ dict_get "fields" form = Some (VStr "id")
    /\ dict_get "link" form = Some (VStr "L").
Proof.
  assert (selects user_environ entity_remote "user" None [] (VStr "USER-TOKEN") [])
    as Hsel by (exists "USER-TOKEN"; split; reflexivity).
  destruct (write_call_layers_its_sources user_environ entity_remote
              "me/feed" "post" "user" None (Some "id")
              (json_dumps (VDict [("message", VStr "P")]))
              (json_dumps (VDict [("message", VStr "B"); ("link", VStr "L");
                                  ("access_token", VStr "MINE")]))
              [("message", VStr "P")]
              [("message", VStr "B"); ("link", VStr "L"); ("access_token", VStr "MINE")]
              (VStr "USER-TOKEN") [] [] Hsel)
    as (form & Ht & Ha & Hk);
    [reflexivity | discriminate | vm_compute; reflexivity
     | discriminate | vm_compute; reflexivity |].
  exists form. split; [exact Ht|]. split; [exact Ha|].
  split; [|split].
  - apply (Hk "message"). discriminate.
  - apply (Hk "fields"). discriminate.
  - apply (Hk "link"). discriminate.
Defined.

(** X10 at a delete with a body that is no JSON text. *)
Lemma read_and_delete_calls_witness :
  meta_graph_api_call user_environ entity_remote "1_2" "delete" "user" None None None
    (Some "{") []
  = meta_graph_api_call user_environ entity_remote "1_2" "delete" "user" None None None
      None [].
Proof.
  apply (read_and_delete_calls_ignore_body user_environ entity_remote
           "1_2" "delete" "user" None None None).
  right. reflexivity.
Defined.

(** X11 at the verb in lower case. *)
Lemma verb_is_matched_witness :
  meta_graph_api_call user_environ entity_remote "me" "get" "user" None None None None []
  = meta_graph_api_call user_environ entity_remote "me" "GET" "user" None None None
      None [].
Proof.
  apply (verb_is_matched_caselessly user_environ entity_remote "me" "get" "GET");
    [reflexivity | left; reflexivity].
Defined.

(** X12 at parameters that decode to a number. *)
Lemma decoded_blob_witness :
  meta_graph_api_call user_environ entity_remote "me" "GET" "user" None None
    (Some "3") None []
  = (inl (TypeError "'int' object is not iterable"), []).
Proof.
  assert (selects user_environ entity_remote "user" None [] (VStr "USER-TOKEN") [])
    as Hsel by (exists "USER-TOKEN"; split; reflexivity).
  destruct (decoded_blob_of_wrong_type_raises user_environ entity_remote
              "me" "GET" "user" None None (VStr "USER-TOKEN") [] [] Hsel) as (H & _).
  apply (H "3" (VInt 3) None); [discriminate | vm_compute; reflexivity | exact I].
Defined.

(** X13 at the page-info operation. *)
Lemma page_operation_witness :
  exists r,
    snd (run mapped_environ entity_remote (GetPageInfo "page1") []) = ([] ++ [r])%list
    /\ carries (VStr "PAGE-TOKEN") r.
Proof.
  apply (page_operation_uses_mapped_token mapped_environ entity_remote
           (GetPageInfo "page1") "page1"
           [("page1", VStr "PAGE-TOKEN"); ("page2", VStr EmptyString)]);
    [reflexivity | vm_compute; reflexivity | reflexivity | reflexivity].
Defined.

(** X14 at the ad-creative operation. *)
Lemma user_operation_witness :
  exists r,
    snd (run user_environ entity_remote (GetAdCreative "ad1") []) = ([] ++ [r])%list
    /\ req_verb r = GET /\ carries (VStr "USER-TOKEN") r.
Proof.
  apply (user_operation_sends_one_read user_environ entity_remote (GetAdCreative "ad1"));
    [reflexivity | vm_compute; reflexivity].
Defined.

(** X15 at an error payload. *)
Lemma hide_comment_witness :
  fst (meta_hide_comment mapped_environ error_remote "c1" "page1" false [])
  = inr (_fmt (VDict [("error", VDict [("message", VStr "X"); ("code", VInt 190)])])).
Proof.
  destruct (hide_comment_returns_body_unchanged mapped_environ error_remote
              "c1" "page1" false (VStr "PAGE-TOKEN") [] []
              (mkResponse 400 "Client error '400 Bad Request'"
                 (inr (VDict [("error", VDict [("message", VStr "X");
                                               ("code", VInt 190)])])))
              (VDict [("error", VDict [("message", VStr "X"); ("code", VInt 190)])]))
    as (H & _); [vm_compute; reflexivity | reflexivity | reflexivity |].
  rewrite H. reflexivity.
Defined.

(** X16 at a link given as the empty string. *)
Lemma page_post_form_witness :
  snd (meta_create_page_post mapped_environ entity_remote "page1" "hello"
         (Some EmptyString) [])
  = [mkRequest POST (GRAPH_API_BASE ++ "/page1/feed") []
       [("message", VStr "hello"); ("access_token", VStr "PAGE-TOKEN")]].
Proof.
  apply (page_post_form mapped_environ entity_remote "page1" "hello" (Some EmptyString)
           (VStr "PAGE-TOKEN") [] []).
  vm_compute. reflexivity.
Defined.

(** X17 at a start date and an empty end date. *)
Lemma insights_window_witness :
  snd (meta_get_page_insights mapped_environ entity_remote "page1" "page_views" "day"
         (Some "2024-01-01") (Some EmptyString) [])
  = [mkRequest GET (GRAPH_API_BASE ++ "/page1/insights")
       [("metric", VStr "page_views"); ("period", VStr "day");
        ("since", VStr "2024-01-01"); ("access_token", VStr "PAGE-TOKEN")] []].
Proof.
  apply (insights_window_is_optional mapped_environ entity_remote "page1" "page_views"
           "day" (Some "2024-01-01") (Some EmptyString) (VStr "PAGE-TOKEN") [] []).
  vm_compute. reflexivity.
Defined.

(** X18 at a short message. *)
Lemma message_form_witness :
  exists (r : request) (recipient text : string),
    snd (meta_send_message mapped_environ entity_remote "page1" "42" "hi" [])
    = ([] ++ [r])%list
    /\ req_verb r = POST
    /\ req_url r = GRAPH_API_BASE ++ "/" ++ "page1" ++ "/messages"
    /\ keys (req_data r) = ["recipient"; "message"; "messaging_type"; "access_token"]
    /\ dict_get "recipient" (req_data r) = Some (VStr recipient)
    /\ json_loads recipient = Some (VDict [("id", VStr "42")])
    /\ dict_get "message" (req_data r) = Some (VStr text)
    /\ json_loads text = Some (VDict [("text", VStr "hi")])
    /\ dict_get "messaging_type" (req_data r) = Some (VStr "RESPONSE").
Proof.
  apply (message_form_decodes mapped_environ entity_remote "page1" "42" "hi"
           (VStr "PAGE-TOKEN") [] []).
  vm_compute. reflexivity.
Defined.

(** X19 with and without an app id and secret. *)
Lemma debug_token_witness :
  snd (meta_debug_token app_environ entity_remote "user" [])
  = [request_of (Read "debug_token" [("input_token", VStr "USER-TOKEN")])
       (VStr "APP|SECRET")]
  /\ snd (meta_debug_token user_environ entity_remote "user" [])
     = [request_of (Read "debug_token" [("input_token", VStr "USER-TOKEN")])
          (VStr "USER-TOKEN")].
Proof.
  split.
  - destruct (debug_token_authorization app_environ entity_remote "USER-TOKEN" [])
      as (H & _); [vm_compute; reflexivity|].
    apply (H "APP|SECRET"). vm_compute. reflexivity.
  - destruct (debug_token_authorization user_environ entity_remote "USER-TOKEN" [])
      as (_ & H); [vm_compute; reflexivity|].
    apply (H (ValueError "META_APP_ID and META_APP_SECRET env vars are not set")).
    vm_compute. reflexivity.
Defined.

(** X20 at the read primitive and the body [null]. *)
Lemma primitive_raises_witness :
  perform null_remote (Read "me" []) (VStr "T") []
  = (inl (TypeError "argument of type 'NoneType' is not iterable"),
     [request_of (Read "me" []) (VStr "T")]).
Proof.
  destruct (primitive_raises_on_unexpected_shape null_remote (Read "me" []) (VStr "T")
              [] (mkResponse 200 EmptyString (inr VNone)) eq_refl) as (H & _).
  apply (H VNone); [reflexivity | exact I].
Defined.

(** X21 at the campaigns listing. *)
Lemma status_filter_is_caseless_witness :
  meta_get_ad_campaigns user_environ entity_remote "act_1" "active" 25
  = meta_get_ad_campaigns user_environ entity_remote "act_1" "ACTIVE" 25.
Proof.
  destruct (status_filter_is_caseless user_environ entity_remote "active" "ACTIVE"
              eq_refl) as (H & _).
  apply H.
Defined.

(** X22 at an error result. *)
Lemma formatted_document_witness :
  json_loads (_fmt (VDict [("error", VStr "params must be valid JSON")]))
  = Some (VDict [("error", VStr "params must be valid JSON")]).
Proof.
  apply (formatted_document_decodes
           (VDict [("error", VStr "params must be valid JSON")])).
  reflexivity.
Defined.

(** X23 at the page listing and an error payload. *)
Lemma result_document_witness :
  fst (run user_environ error_remote ListPages []) = inr (error_result "X").
Proof.
  destruct (result_document_of_an_operation user_environ error_remote ListPages []
              (mkResponse 400 "Client error '400 Bad Request'"
                 (inr (VDict [("error", VDict [("message", VStr "X");
                                               ("code", VInt 190)])])))
              [("error", VDict [("message", VStr "X"); ("code", VInt 190)])])
    as (_ & H).
  - left. split; [reflexivity|]. exists "USER-TOKEN". vm_compute. reflexivity.
  - intros r. reflexivity.
  - reflexivity.
  - apply (H [("message", VStr "X"); ("code", VInt 190)] "X"); reflexivity.
Defined.

(** X8 at an exchanged page token. *)
Lemma resolved_credentials_witness :
  fst (_page_token mapped_environ entity_remote "page9" []) = inr (VStr "EXCHANGED")
  /\ VStr "EXCHANGED" <> VNone /\ VStr "EXCHANGED" <> VStr EmptyString.
Proof.
  assert (fst (_page_token mapped_environ entity_remote "page9" [])
          = inr (VStr "EXCHANGED")) as H by (vm_compute; reflexivity).
  split; [exact H|].
  destruct (resolved_credentials_are_not_empty mapped_environ entity_remote "page9" [])
    as (_ & _ & Hp).
  exact (Hp (VStr "EXCHANGED") H).
Defined.
